(** * The Speedscope profile parser of flamegraph-ai

    A shallow embedding of [apps/api/src/parser/speedscope.ts]: the document
    validator, the sampled-profile aggregator, the evented-profile
    reconstructor and the hotspot ranker, followed by the properties the
    specification states about them.

    Numbers.  A JavaScript number is an IEEE-754 double.  The development
    has the parser twice.  In the first embedding a finite number is held
    as an exact rational [Q] and [+], [-], [*], [/] are the exact
    operations: rounding error and overflow are outside it.  It carries
    the properties that rest on control flow, on the errors raised and on
    the sign and order of the sums.  [NaN] and the two infinities are
    values of their own there, which [asNumber] rejects, and integer-valued
    numbers that the code only counts with (loop indices, [sampleCount],
    [rank], [profileCount], the result of [Math.round]) are [nat] or [Z].
    The second embedding, [Double], has the numbers as binary64 doubles
    with every operation rounded as IEEE-754 prescribes, so that a sum can
    overflow to [Infinity] and a quotient can be [NaN]; it carries the
    properties of the ranking and of the numbers reported, which depend on
    that.

    Values.  The parser takes an [unknown]: the tree [JSON.parse] returned.
    [value] has the JSON values, [undefined] (a missing property or array
    element) and the non-finite numbers.  An object is the list of its own
    properties, an array the list of its elements. *)

From Corelib Require Import SpecFloat.
From Stdlib Require Import QArith Qround Qabs Qpower Lqa.
From stdpp Require Import base list sorting strings pretty.

Set Warnings "-register-all".
Local Open Scope string_scope.

(** ** Untyped input *)

Inductive value : Type :=
| Undefined
| Null
| Bool (b : bool)
| Num (q : Q)
| NaN
| Infinity (negative : bool)
| Str (s : string)
| Arr (elements : list value)
| Obj (properties : list (string * value)).

(** [o.k]: the own property [k] of an object, [undefined] when there is
    none (none of the keys the parser reads is on [Object.prototype]). *)
Fixpoint get (properties : list (string * value)) (k : string) : value :=
  match properties with
  | [] => Undefined
  | (k', v) :: rest => if String.eqb k' k then v else get rest k
  end.

(** [a[i]]: [undefined] past the end of the array. *)
Definition at_index (a : list value) (i : nat) : value :=
  default Undefined (a !! i).

(** [v ?? d] *)
Definition nullish (v d : value) : value :=
  match v with
  | Undefined | Null => d
  | _ => v
  end.

(** ** Errors

    The parser throws one class, [SpeedscopeParseError], with a message.
    [message] has one constructor per message template of the source, with
    the interpolated values as arguments.  [TypeError] is what [String(v)]
    throws by itself on an object it cannot convert. *)

Inductive message : Type :=
| ProfileMustBeObject
    (* "Profile must be a JSON object" *)
| MissingSharedFrames
    (* "Profile is missing shared frames" *)
| FramesMustBeNonEmpty
    (* "Profile shared.frames must be a non-empty array" *)
| NoProfileEntry
    (* "Profile must include at least one profile entry" *)
| InvalidFrameEntry (idx : nat)
    (* "Invalid frame entry at index ${idx}" *)
| InvalidProfile (profileIndex : nat)
    (* "Invalid profile at index ${profileIndex}" *)
| UnsupportedProfileType (profileIndex : nat) (profileType : string)
    (* "Unsupported profile type at index ${profileIndex}: ${profileType}" *)
| NoMeasurableActivity
    (* "Profile contains no measurable samples or durations" *)
| MissingSamplesArray (profileIndex : nat)
    (* "Sampled profile ${profileIndex} is missing samples array" *)
| InvalidWeight (profileIndex sampleIndex : nat)
    (* "Invalid weight at sampled profile ${profileIndex}, index ${sampleIndex}" *)
| InvalidFrameReference (profileIndex sampleIndex : nat)
    (* "Invalid frame reference in sampled profile ${profileIndex}, sample ${sampleIndex}" *)
| MissingMetricsEntry (frameIndex : nat)
    (* "Missing metrics entry for frame ${frameIndex}" *)
| InvalidLeafFrame (profileIndex sampleIndex : nat)
    (* "Invalid leaf frame in sampled profile ${profileIndex}, sample ${sampleIndex}" *)
| MissingTopFrameMetrics (topIndex : nat)
    (* "Missing top frame metrics for frame ${topIndex}" *)
| TooFewEvents (profileIndex : nat)
    (* "Evented profile ${profileIndex} must include at least two events" *)
| InvalidEventEntry (profileIndex i : nat)
    (* "Invalid event entry at profile ${profileIndex}, index ${i}" *)
| InvalidEventFrame (profileIndex i : nat)
    (* "Invalid event frame at profile ${profileIndex}, index ${i}" *)
| InvalidEventTimestamp (profileIndex i : nat)
    (* "Invalid event timestamp at profile ${profileIndex}, index ${i}" *)
| NonDecreasingTimestamps (profileIndex : nat)
    (* "Event timestamps must be non-decreasing in profile ${profileIndex}" *)
| MissingMetrics (frameIndex : option nat)
    (* "Missing metrics for frame ${stack[s]}" *)
| MissingTopMetrics (frameIndex : option nat)
    (* "Missing top metrics for frame ${stack[stack.length - 1]}" *)
| UnbalancedStack (profileIndex i : nat) (closing : option nat) (frame : nat)
    (* "Unbalanced event stack in profile ${profileIndex} at event ${i}
        (expected ${closing}, got ${frame})" *)
| InvalidEventType (profileIndex i : nat) (eventType : string)
    (* "Invalid event type at profile ${profileIndex}, index ${i}: ${eventType}" *)
| UnclosedFrames (profileIndex : nat)
    (* "Unclosed frames in evented profile ${profileIndex}" *).

Inductive exn : Type :=
| SpeedscopeParseError (msg : message)
| TypeError.

Inductive result (A : Type) : Type :=
| Ok (a : A)
| Throw (e : exn).
Arguments Ok {A} a.
Arguments Throw {A} e.

Definition bind {A B} (r : result A) (k : A -> result B) : result B :=
  match r with
  | Ok a => k a
  | Throw e => Throw e
  end.

Notation "'let!' x ':=' r 'in' k" := (bind r (fun x => k))
  (at level 10, x pattern, r at level 100, k at level 200).

Definition throw {A} (msg : message) : result A :=
  Throw (SpeedscopeParseError msg).

Definition isSpeedscopeParseError (e : exn) : bool :=
  match e with
  | SpeedscopeParseError _ => true
  | TypeError => false
  end.

(** [for (let i = start; i < start + a.length; i += 1) { body(i, a[i]) }]
    over the elements of an array, threading the variables the body
    assigns; a [throw] in the body leaves the loop. *)
Fixpoint for_loop {A St} (body : nat -> A -> St -> result St)
    (i : nat) (a : list A) (s : St) : result St :=
  match a with
  | [] => Ok s
  | x :: rest => let! s' := body i x s in for_loop body (S i) rest s'
  end.

(** ** Numbers *)

Definition Qltb (a b : Q) : bool := negb (Qle_bool b a).

(** [Number.isInteger] *)
Definition Number_isInteger (q : Q) : bool :=
  Qeq_bool q (inject_Z (Qfloor q)).

(** [Math.round]: the nearest integer, a tie going up. *)
Definition Math_round (q : Q) : Z := Qfloor (q + (1 # 2))%Q.

(** [Number(x.toFixed(digits))]: [toFixed] picks the integer [n] with
    [n / 10^digits] nearest to [x], the larger one on a tie, after taking
    the sign off; from [1e21] on it prints [x] itself. *)
Definition toFixed (x : Q) (digits : nat) : Q :=
  let scale := inject_Z (10 ^ Z.of_nat digits) in
  if Qle_bool (inject_Z (10 ^ 21)) (Qabs x) then x
  else if Qltb x 0
       then (- (inject_Z (Qfloor ((- x) * scale + (1 # 2))) / scale))%Q
       else (inject_Z (Qfloor (x * scale + (1 # 2))) / scale)%Q.

(** ** Data *)

Record FrameMetrics : Type := {
  name : string;
  file : string;
  selfTime : Q;
  totalTime : Q;
  sampleCount : nat;
  hotspotScore : Q
}.

(** [metricsByFrame]: the [Map] is filled with the keys [0 .. frames.length - 1]
    in this order and no key is added or removed afterwards, so it is held
    as the list of its values in insertion order, the key being the
    position: [get(k)] is [m !! k], and an update of the object found
    under [k] is [alter _ k m]. *)
Abbreviation metrics := (list FrameMetrics).

(** [Hotspot] of [packages/shared]; [h_name], [h_file] and [h_sampleCount]
    are its [name], [file] and [sampleCount]. *)
Record Hotspot : Type := {
  h_name : string;
  h_file : string;
  selfTimeMs : Q;
  totalTimeMs : Q;
  h_sampleCount : nat;
  inclusivePct : Q;
  exclusivePct : Q;
  rank : nat
}.

Record ParsedProfileSummary : Type := {
  hotspots : list Hotspot;
  totalSamples : Z;
  profileCount : nat
}.

(** ** The parser *)

Section Parser.

(** [Number::toString] of the host.  It is left abstract: the parser only
    compares the result of [String(v)] with the literals ["sampled"],
    ["evented"], ["O"] and ["C"], and copies it into names. *)
Variable Number_toString : Q -> string.

(** [String(v)].  An array prints its elements joined by commas, [null] and
    [undefined] elements as nothing; a plain object prints as
    ["[object Object]"], unless an own property hides [toString], which
    makes the conversion throw. *)
Fixpoint String_ (v : value) : result string :=
  match v with
  | Undefined => Ok "undefined"
  | Null => Ok "null"
  | Bool true => Ok "true"
  | Bool false => Ok "false"
  | Num q => Ok (Number_toString q)
  | NaN => Ok "NaN"
  | Infinity false => Ok "Infinity"
  | Infinity true => Ok "-Infinity"
  | Str s => Ok s
  | Arr elements =>
      let element e :=
        match e with
        | Undefined | Null => Ok ""
        | _ => String_ e
        end in
      (fix join (l : list value) : result string :=
         match l with
         | [] => Ok ""
         | [e] => element e
         | e :: rest =>
             let! s := element e in
             let! r := join rest in
             Ok (s ++ "," ++ r)
         end) elements
  | Obj properties =>
      if existsb (fun p => String.eqb (fst p) "toString") properties
      then Throw TypeError
      else Ok "[object Object]"
  end.

Definition asRecord (v : value) (msg : message)
  : result (list (string * value)) :=
  match v with
  | Obj properties => Ok properties
  | _ => throw msg
  end.

Definition asNumber (v : value) (msg : message) : result Q :=
  match v with
  | Num q => Ok q
  | _ => throw msg
  end.

(** The index is returned as the [nat] it denotes. *)
Definition asIndex (v : value) (max : nat) (msg : message) : result nat :=
  let! index := asNumber v msg in
  if negb (Number_isInteger index) || Qltb index 0
     || Qle_bool (inject_Z (Z.of_nat max)) index
  then throw msg
  else Ok (Z.to_nat (Qfloor index)).

(** [metric.totalTime += w; metric.sampleCount += 1] *)
Definition observe (w : Q) (metric : FrameMetrics) : FrameMetrics :=
  {| name := name metric; file := file metric;
     selfTime := selfTime metric;
     totalTime := totalTime metric + w;
     sampleCount := sampleCount metric + 1;
     hotspotScore := hotspotScore metric |}.

(** [topMetric.selfTime += w] *)
Definition observe_self (w : Q) (metric : FrameMetrics) : FrameMetrics :=
  {| name := name metric; file := file metric;
     selfTime := selfTime metric + w;
     totalTime := totalTime metric;
     sampleCount := sampleCount metric;
     hotspotScore := hotspotScore metric |}.

(** *** parseSampledProfile *)

(** The body of the loop over [sampleStack] (lines 174-188). *)
Definition sampled_frame (frameCount profileIndex sampleIndex : nat)
    (weightValue : Q) (i : nat) (entry : value) (m : metrics)
  : result metrics :=
  let! frameIndex := asIndex entry frameCount
                  (InvalidFrameReference profileIndex sampleIndex) in
  match m !! frameIndex with
  | None => throw (MissingMetricsEntry frameIndex)
  | Some _ => Ok (alter (observe weightValue) frameIndex m)
  end.

(** The weight of sample [sampleIndex] (line 166). *)
Definition sample_weight (weights : list value)
    (profileIndex sampleIndex : nat) : result Q :=
  if (0 <? length weights)%nat
  then asNumber (at_index weights sampleIndex)
         (InvalidWeight profileIndex sampleIndex)
  else Ok 1%Q.

(** The body of the loop over [samples] (lines 159-202); the state is
    [metricsByFrame] and [observed]. *)
Definition sampled_sample (frameCount profileIndex : nat)
    (weights : list value) (sampleIndex : nat) (sampleStack : value)
    (s : metrics * Q) : result (metrics * Q) :=
  let '(m, observed) := s in
  match sampleStack with
  | Arr ((_ :: _) as stack) =>
      let! weightValue := sample_weight weights profileIndex sampleIndex in
      if Qle_bool weightValue 0 then Ok (m, observed)
      else
        let observed := (observed + weightValue)%Q in
        let! m := for_loop
               (sampled_frame frameCount profileIndex sampleIndex weightValue)
               0 stack m in
        let! topIndex := asIndex (at_index stack (length stack - 1)) frameCount
                      (InvalidLeafFrame profileIndex sampleIndex) in
        match m !! topIndex with
        | None => throw (MissingTopFrameMetrics topIndex)
        | Some _ => Ok (alter (observe_self weightValue) topIndex m, observed)
        end
  | _ => Ok (m, observed)
  end.

Definition parseSampledProfile (profile : list (string * value))
    (frameCount : nat) (metricsByFrame : metrics) (profileIndex : nat)
  : result (metrics * Q) :=
  match get profile "samples" with
  | Arr samples =>
      let weights :=
        match get profile "weights" with
        | Arr weights => weights
        | _ => []
        end in
      for_loop (sampled_sample frameCount profileIndex weights)
        0 samples (metricsByFrame, 0%Q)
  | _ => throw (MissingSamplesArray profileIndex)
  end.

(** *** parseEventedProfile *)

(** The body of the loop over [stack] (lines 239-248). *)
Definition evented_frame (delta : Q) (s : nat) (frameIndex : nat)
    (m : metrics) : result metrics :=
  match m !! frameIndex with
  | None => throw (MissingMetrics (Some frameIndex))
  | Some _ => Ok (alter (observe delta) frameIndex m)
  end.

(** Lines 227-258: the time between this event and the next one goes to
    the frames that are on the stack before this event is applied. *)
Definition evented_window (profileIndex : nat) (events : list value)
    (i : nat) (at_ : Q) (stack : list nat) (m : metrics) (observed : Q)
  : result (metrics * Q) :=
  if (i <? length events - 1)%nat
  then
    let! next := asRecord (at_index events (i + 1))
                   (InvalidEventEntry profileIndex (i + 1)) in
    let! nextAt := asNumber (get next "at")
                     (InvalidEventTimestamp profileIndex (i + 1)) in
    let delta := (nextAt - at_)%Q in
    if Qltb delta 0 then throw (NonDecreasingTimestamps profileIndex)
    else if Qltb 0 delta && (0 <? length stack)%nat
    then
      let observed := (observed + delta)%Q in
      let! m := for_loop (evented_frame delta) 0 stack m in
      match last stack with
      | Some top =>
          match m !! top with
          | None => throw (MissingTopMetrics (Some top))
          | Some _ => Ok (alter (observe_self delta) top m, observed)
          end
      | None => throw (MissingTopMetrics None)
      end
    else Ok (m, observed)
  else Ok (m, observed).

(** The body of the loop over [events] (lines 221-278); the state is
    [stack] (the array, bottom first), [metricsByFrame] and [observed]. *)
Definition evented_event (frameCount profileIndex : nat)
    (events : list value) (i : nat) (entry : value)
    (s : list nat * metrics * Q) : result (list nat * metrics * Q) :=
  let '(stack, m, observed) := s in
  let! event := asRecord entry (InvalidEventEntry profileIndex i) in
  let! eventType := String_ (nullish (get event "type") (Str "")) in
  let! frame := asIndex (get event "frame") frameCount
                  (InvalidEventFrame profileIndex i) in
  let! at_ := asNumber (get event "at")
                (InvalidEventTimestamp profileIndex i) in
  let! (m, observed) :=
    evented_window profileIndex events i at_ stack m observed in
  if String.eqb eventType "O" then Ok ((stack ++ [frame])%list, m, observed)
  else if String.eqb eventType "C" then
    let closing := last stack in
    if decide (closing = Some frame)
    then Ok (removelast stack, m, observed)
    else throw (UnbalancedStack profileIndex i closing frame)
  else throw (InvalidEventType profileIndex i eventType).

Definition parseEventedProfile (profile : list (string * value))
    (frameCount : nat) (metricsByFrame : metrics) (profileIndex : nat)
  : result (metrics * Q) :=
  match get profile "events" with
  | Arr ((_ :: _ :: _) as events) =>
      let! (stack, m, observed) :=
        for_loop (evented_event frameCount profileIndex events)
          0 events ([], metricsByFrame, 0%Q) in
      if (0 <? length stack)%nat then throw (UnclosedFrames profileIndex)
      else Ok (m, observed)
  | _ => throw (TooFewEvents profileIndex)
  end.

(** *** parseSpeedscopeProfile *)

(** The body of the loop over [frames] (lines 73-83): [set(idx, _)] adds
    the key [idx], which is the number of keys set so far. *)
Definition frame_entry (idx : nat) (entry : value) (m : metrics)
  : result metrics :=
  let! frame := asRecord entry (InvalidFrameEntry idx) in
  let! name :=
    String_ (nullish (get frame "name") (Str ("frame_" ++ pretty idx))) in
  let! file := String_ (nullish (get frame "file") (Str "unknown")) in
  Ok (m ++ [ {| name := name; file := file; selfTime := 0; totalTime := 0;
                sampleCount := 0; hotspotScore := 0 |} ])%list.

(** The body of the loop over [profileEntries] (lines 87-104); the state
    is [metricsByFrame] and [totalObserved]. *)
Definition profile_entry (frameCount : nat) (profileIndex : nat)
    (entry : value) (s : metrics * Q) : result (metrics * Q) :=
  let '(m, totalObserved) := s in
  let! profile := asRecord entry (InvalidProfile profileIndex) in
  let! profileType := String_ (nullish (get profile "type") (Str "")) in
  if String.eqb profileType "sampled" then
    let! (m, observed) :=
      parseSampledProfile profile frameCount m profileIndex in
    Ok (m, (totalObserved + observed)%Q)
  else if String.eqb profileType "evented" then
    let! (m, observed) :=
      parseEventedProfile profile frameCount m profileIndex in
    Ok (m, (totalObserved + observed)%Q)
  else throw (UnsupportedProfileType profileIndex profileType).

(** Lines 57-104: validation and accumulation, up to the test of
    [totalObserved]; returns [profileEntries.length], [metricsByFrame] and
    [totalObserved]. *)
Definition accumulate (payload : value) : result (nat * metrics * Q) :=
  let! root := asRecord payload ProfileMustBeObject in
  let! shared := asRecord (get root "shared") MissingSharedFrames in
  match get shared "frames" with
  | Arr ((_ :: _) as frames) =>
      match get root "profiles" with
      | Arr ((_ :: _) as profileEntries) =>
          let! metricsByFrame := for_loop frame_entry 0 frames [] in
          let! (m, totalObserved) :=
            for_loop (profile_entry (length frames)) 0 profileEntries
              (metricsByFrame, 0%Q) in
          Ok (length profileEntries, m, totalObserved)
      | _ => throw NoProfileEntry
      end
  | _ => throw FramesMustBeNonEmpty
  end.

(** The callback of [filter] (line 111). *)
Definition observed_frame (metric : FrameMetrics) : bool :=
  Qltb 0 (totalTime metric) || Qltb 0 (selfTime metric).

(** The callback of the first [map] (lines 112-127).  Its assignment to
    [metric.hotspotScore] changes the map only, which is dropped when the
    function returns. *)
Definition to_hotspot (totalObserved : Q) (metric : FrameMetrics) : Hotspot :=
  let inclusivePct := (totalTime metric / totalObserved * 100)%Q in
  let exclusivePct := (selfTime metric / totalObserved * 100)%Q in
  {| h_name := name metric;
     h_file := file metric;
     selfTimeMs := toFixed (selfTime metric) 3;
     totalTimeMs := toFixed (totalTime metric) 3;
     h_sampleCount := sampleCount metric;
     inclusivePct := toFixed inclusivePct 2;
     exclusivePct := toFixed exclusivePct 2;
     rank := 0 |}.

(** The score the comparator computes from a hotspot (lines 129-130). *)
Definition score (h : Hotspot) : Q :=
  (inclusivePct h * (6 # 10) + exclusivePct h * (4 # 10))%Q.

(** The comparator of [sort] (lines 128-132). *)
Definition compareFn (a b : Hotspot) : Q :=
  let aScore := score a in
  let bScore := score b in
  (bScore - aScore)%Q.

(** [Array.prototype.sort]: with a consistent comparator the result is the
    stable sorted arrangement, whatever the engine's algorithm; it is
    computed here by insertion from the right, which keeps [x] ahead of the
    later elements it compares equal to. *)
Fixpoint sort_insert {A} (compare : A -> A -> Q) (x : A) (l : list A)
  : list A :=
  match l with
  | [] => [x]
  | y :: rest =>
      if Qle_bool (compare x y) 0 then x :: y :: rest
      else y :: sort_insert compare x rest
  end.

Definition Array_sort {A} (compare : A -> A -> Q) (l : list A) : list A :=
  foldr (sort_insert compare) [] l.

(** The callback of the second [map] (lines 133-136). *)
Definition with_rank (idx : nat) (item : Hotspot) : Hotspot :=
  {| h_name := h_name item; h_file := h_file item;
     selfTimeMs := selfTimeMs item; totalTimeMs := totalTimeMs item;
     h_sampleCount := h_sampleCount item;
     inclusivePct := inclusivePct item; exclusivePct := exclusivePct item;
     rank := idx + 1 |}.

(** Lines 110-136. *)
Definition rank_hotspots (m : metrics) (totalObserved : Q) : list Hotspot :=
  imap with_rank
    (Array_sort compareFn
       (map (to_hotspot totalObserved) (filter observed_frame m))).

Definition parseSpeedscopeProfile (payload : value)
  : result ParsedProfileSummary :=
  let! (count, m, totalObserved) := accumulate payload in
  if Qle_bool totalObserved 0 then throw NoMeasurableActivity
  else Ok {| hotspots := rank_hotspots m totalObserved;
             totalSamples := Math_round totalObserved;
             profileCount := count |}.

End Parser.

(** ** The API's use of the parser

    [apps/api/src/index.ts]: what the handler of [POST /api/analyze] does
    with the parser's result and with its errors, apart from the database.
    [Recommendation] is the record of the object literals in
    [buildRecommendations]; its [tier], [impact] and [effort] are strings,
    as they are when they are read back from the database. *)

Record Recommendation : Type := {
  rec_id : string;
  tier : string;
  title : string;
  rationale : string;
  impact : string;
  effort : string;
  confidence : Q
}.

Record Recommendations : Type := {
  quickWins : list Recommendation;
  deepRefactors : list Recommendation
}.

(** [Math.max] and [Math.min] of two finite numbers. *)
Definition Math_max (a b : Q) : Q := if Qle_bool a b then b else a.
Definition Math_min (a b : Q) : Q := if Qle_bool a b then a else b.

(** [confidenceFromPct] (lines 319-322). *)
Definition confidenceFromPct (value max : Q) : Q :=
  let bounded := Math_max 0 (Math_min (value / max) 1) in
  toFixed ((4 # 10) + bounded * (6 # 10)) 2.

(** [splitRecommendations] (lines 312-317). *)
Definition splitRecommendations (items : list Recommendation)
  : Recommendations :=
  {| quickWins := filter (fun item => tier item = "quick_win") items;
     deepRefactors := filter (fun item => tier item = "deep_refactor") items |}.

(** The status the [catch] of the handler answers with (lines 140-147):
    400 with the message for an error of the parser, 500 for any other. *)
Definition analyze_error_status (error : exn) : nat :=
  if isSpeedscopeParseError error then 400 else 500.

Section Api.

Variable Number_toString : Q -> string.




End Api.


(** * The vocabulary of the properties *)

(** ** Reading the code's loops and checks *)

(** [asIndex] accepts the same values and returns the same index whatever
    the message. *)
Definition index_of (v : value) (max : nat) : option nat :=
  match v with
  | Num index =>
      if negb (Number_isInteger index) || Qltb index 0
         || Qle_bool (inject_Z (Z.of_nat max)) index
      then None else Some (Z.to_nat (Qfloor index))
  | _ => None
  end.

(** [observe w] applied to the metrics of each index of a list in turn. *)
Definition observe_all (w : Q) (indices : list nat) (m : metrics) : metrics :=
  foldl (fun m frameIndex => alter (observe w) frameIndex m) m indices.

(** How often [f] is listed. *)
Definition occurrences (f : nat) (indices : list nat) : nat :=
  length (filter (fun k => k = f) indices).

(** [keeps P body]: once [P] holds of the loop's variables, it holds after
    any number of iterations of the loop with this body, over any array and
    from any index. *)
Definition keeps {A St} (P : St -> Prop)
    (body : nat -> A -> St -> result St) : Prop :=
  forall (a : list A) (k i : nat) (s s' : St),
    P s -> for_loop body i (take k a) s = Ok s' -> P s'.

(** ** Properties of the table and of errors *)

(** Every frame of the table has a [totalTime] that is at least its
    [selfTime]. *)
Definition total_ge_self (m : metrics) : Prop :=
  Forall (fun metric => (selfTime metric <= totalTime metric)%Q) m.

(** Every frame on the stack has its metrics in the table. *)
Definition stack_in_table (s : list nat * metrics * Q) : Prop :=
  Forall (fun frame => frame < length s.1.2) s.1.1.

(** [accumulated e]: [e] is not the error of line 107. *)
Definition accumulated (e : exn) : bool :=
  match e with
  | SpeedscopeParseError NoMeasurableActivity => false
  | _ => true
  end.

(** [weight_error e]: [e] is an invalid-weight error. *)
Definition weight_error (e : exn) : bool :=
  match e with
  | SpeedscopeParseError (InvalidWeight _ _) => true
  | _ => false
  end.

(** ** Samples *)

(** The sample has no stack: it is absent ([undefined], [null]), not an
    array, or an empty array. *)
Definition no_stack (sampleStack : value) : Prop :=
  match sampleStack with
  | Arr (_ :: _) => False
  | _ => True
  end.

(** The sample at [sampleIndex] is one the loop passes over: it has no
    stack, or its weight resolves to a number that is not positive. *)
Definition skipped (weights : list value) (profileIndex sampleIndex : nat)
    (sampleStack : value) : Prop :=
  no_stack sampleStack \/
  exists weightValue,
    sample_weight weights profileIndex sampleIndex = Ok weightValue /\
    (weightValue <= 0)%Q.

(** A sampled profile entry in which every sample has a weight, and one
    that is not positive. *)
Definition nonpositive_sampled (Number_toString : Q -> string)
    (entry : value) : Prop :=
  exists profile samples weights,
    entry = Obj profile /\
    String_ Number_toString (nullish (get profile "type") (Str ""))
      = Ok "sampled" /\
    get profile "samples" = Arr samples /\
    get profile "weights" = Arr weights /\
    forall i, i < length samples ->
      exists q, weights !! i = Some (Num q) /\ (q <= 0)%Q.

(** ** Where the parse stands *)

(** The parse of [payload] gets to profile entry [profileIndex], which is
    [entry], with the table [m] and the total [totalObserved]: validation
    passed and the entries before it went through. *)
Definition reaches_profile (Number_toString : Q -> string) (payload : value)
    (profileIndex : nat) (entry : value) (frameCount : nat) (m : metrics)
    (totalObserved : Q) : Prop :=
  exists root shared frames profileEntries m0,
    payload = Obj root /\ get root "shared" = Obj shared /\
    get shared "frames" = Arr frames /\ frames <> [] /\
    get root "profiles" = Arr profileEntries /\
    for_loop (frame_entry Number_toString) 0 frames [] = Ok m0 /\
    frameCount = length frames /\
    profileEntries !! profileIndex = Some entry /\
    for_loop (profile_entry Number_toString frameCount) 0
      (take profileIndex profileEntries) (m0, 0%Q) = Ok (m, totalObserved).

(** The parse gets to sample [sampleIndex] of the sampled profile entry
    [profileIndex], whose arrays are [samples] and [weights] ([[]] when the
    entry has no array of weights). *)
Definition reaches_sample (Number_toString : Q -> string) (payload : value)
    (profileIndex : nat) (samples weights : list value) (sampleIndex : nat)
    (sampleStack : value) (frameCount : nat) (s : metrics * Q) : Prop :=
  exists profile m1 t1,
    reaches_profile Number_toString payload profileIndex (Obj profile)
      frameCount m1 t1 /\
    String_ Number_toString (nullish (get profile "type") (Str ""))
      = Ok "sampled" /\
    get profile "samples" = Arr samples /\
    weights = match get profile "weights" with
              | Arr weights => weights
              | _ => []
              end /\
    samples !! sampleIndex = Some sampleStack /\
    for_loop (sampled_sample frameCount profileIndex weights) 0
      (take sampleIndex samples) (m1, 0%Q) = Ok s.

(** The parse gets to event [i] of the evented profile entry
    [profileIndex], whose array is [events], with [stack], [m] and
    [observed]. *)
Definition reaches_event (Number_toString : Q -> string) (payload : value)
    (profileIndex : nat) (events : list value) (i : nat) (entry : value)
    (frameCount : nat) (s : list nat * metrics * Q) : Prop :=
  exists profile m1 t1,
    reaches_profile Number_toString payload profileIndex (Obj profile)
      frameCount m1 t1 /\
    String_ Number_toString (nullish (get profile "type") (Str ""))
      = Ok "evented" /\
    get profile "events" = Arr events /\ 2 <= length events /\
    events !! i = Some entry /\
    for_loop (evented_event Number_toString frameCount profileIndex events)
      0 (take i events) ([], m1, 0%Q) = Ok s.

(** ** The look-ahead of the evented loop *)

(** The look-ahead of lines 227-234 finds nothing wrong after event [i],
    whose timestamp is [at_]: the event is the last one, or the next
    event is an object whose timestamp is a finite number, not smaller. *)
Definition look_ahead_passes (events : list value) (i : nat) (at_ : Q)
  : Prop :=
  length events - 1 <= i \/
  exists next nextAt,
    events !! (i + 1) = Some (Obj next) /\ get next "at" = Num nextAt /\
    (at_ <= nextAt)%Q.

(** The three errors of the look-ahead. *)
Definition look_ahead_error (profileIndex i : nat) (e : exn) : Prop :=
  e = SpeedscopeParseError (InvalidEventEntry profileIndex (i + 1)) \/
  e = SpeedscopeParseError (InvalidEventTimestamp profileIndex (i + 1)) \/
  e = SpeedscopeParseError (NonDecreasingTimestamps profileIndex).

(** The specification's sentence on unbalanced closes, as it is worded:
    whenever the parse gets to a [Close] event whose frame is not on top of
    the stack, or that finds the stack empty, it fails with the
    unbalanced-stack error. *)
Definition unbalanced_close_spec (Number_toString : Q -> string) : Prop :=
  forall payload profileIndex events i event frameCount stack m observed
         frame at_,
    reaches_event Number_toString payload profileIndex events i (Obj event)
      frameCount (stack, m, observed) ->
    String_ Number_toString (nullish (get event "type") (Str "")) = Ok "C" ->
    index_of (get event "frame") frameCount = Some frame ->
    get event "at" = Num at_ ->
    last stack <> Some frame ->
    exists p j closing f,
      parseSpeedscopeProfile Number_toString payload
      = Throw (SpeedscopeParseError (UnbalancedStack p j closing f)).

(** ** Documents *)

(** [Number::toString] on the integers below [1e21]: the decimal digits.
    The documents below hold no other number, and none where a string is
    read. *)
Definition decimal (q : Q) : string := pretty (Qfloor q).

Definition a_frame (name file : string) : value :=
  Obj [("name", Str name); ("file", Str file)].

Definition ints (l : list Z) : value := Arr (map (fun z => Num (inject_Z z)) l).

Definition an_event (type : string) (frame at_ : Z) : value :=
  Obj [("type", Str type); ("frame", Num (inject_Z frame));
       ("at", Num (inject_Z at_))].

Definition document (frames profiles : list value) : value :=
  Obj [("shared", Obj [("frames", Arr frames)]); ("profiles", Arr profiles)].

(** The metrics of a frame nothing was observed for. *)
Definition untouched (name file : string) : FrameMetrics :=
  {| name := name; file := file; selfTime := 0; totalTime := 0;
     sampleCount := 0; hotspotScore := 0 |}.

(** The document of the test "parses sampled profiles and computes
    metrics". *)
Definition sampled_document : value :=
  document
    [a_frame "root" "app.ts"; a_frame "render" "render.ts";
     a_frame "diff" "diff.ts"]
    [Obj [("type", Str "sampled");
          ("samples", Arr [ints [0; 1]; ints [0; 1]; ints [0; 2];
                           ints [0; 1]]%Z);
          ("weights", ints [5; 3; 2; 4]%Z)]].

(** The document of the test "parses evented profiles and computes
    inclusive/exclusive time". *)
Definition evented_document : value :=
  document
    [a_frame "main" "main.ts"; a_frame "work" "work.ts"]
    [Obj [("type", Str "evented");
          ("events", Arr [an_event "O" 0 0; an_event "O" 1 2; an_event "C" 1 6;
                          an_event "C" 0 10])]].

(** One frame that is twice on the stack of the only sample. *)
Definition recursive_document : value :=
  document [a_frame "fib" "fib.ts"]
    [Obj [("type", Str "sampled"); ("samples", Arr [ints [0; 0]%Z])]].

(** A [Close] for frame 0 comes first, and the event after it is earlier. *)
Definition close_first_events : list value :=
  [an_event "C" 0 5; an_event "O" 0 3].

Definition close_first_document : value :=
  document [a_frame "main" "main.ts"]
    [Obj [("type", Str "evented"); ("events", Arr close_first_events)]].

(** Frame 1 is closed while frame 0 is on top of the stack. *)
Definition crossed_events : list value :=
  [an_event "O" 0 0; an_event "C" 1 1].

Definition crossed_document : value :=
  document [a_frame "main" "main.ts"; a_frame "work" "work.ts"]
    [Obj [("type", Str "evented"); ("events", Arr crossed_events)]].

(** A sampled profile whose only sample weighs nothing. *)
Definition idle_profile : list (string * value) :=
  [("type", Str "sampled"); ("samples", Arr [ints [0]%Z]);
   ("weights", ints [0]%Z)].

Definition idle_document : value :=
  document [a_frame "main" "main.ts"] [Obj idle_profile].

(** Two samples and one weight. *)
Definition short_profile : list (string * value) :=
  [("type", Str "sampled"); ("samples", Arr [ints [0]%Z; ints [0]%Z]);
   ("weights", ints [1]%Z)].

Definition short_document : value :=
  document [a_frame "main" "main.ts"] [Obj short_profile].

(** A sampled profile whose weights are a string. *)
Definition odd_profile : list (string * value) :=
  [("type", Str "sampled"); ("samples", Arr [ints [0]%Z]);
   ("weights", Str "5,3")].

(** The sum of the [selfTime] of all frames. *)
Definition sum_self (m : metrics) : Q :=
  foldr (fun metric acc => (selfTime metric + acc)%Q) 0%Q m.

(** No frame of the table has a negative [selfTime]. *)
Definition self_nonneg (m : metrics) : Prop :=
  Forall (fun metric => (0 <= selfTime metric)%Q) m.

(** Some object inside [v], or [v] itself, has an own property
    [toString]. *)
Fixpoint hides_toString (v : value) : bool :=
  match v with
  | Arr elements => existsb hides_toString elements
  | Obj properties =>
      existsb (fun p => String.eqb (fst p) "toString") properties
      || existsb (fun p => let '(_, x) := p in hides_toString x) properties
  | _ => false
  end.

(** The evented profile entry of the tests' document. *)
Definition nested_events : list value :=
  [an_event "O" 0 0; an_event "O" 1 2; an_event "C" 1 6; an_event "C" 0 10].

Definition nested_profile : list (string * value) :=
  [("type", Str "evented"); ("events", Arr nested_events)].

(** The event is an object whose [type] reads as [t]. *)
Definition event_type_is (Number_toString : Q -> string) (t : string)
    (entry : value) : bool :=
  match entry with
  | Obj event =>
      match String_ Number_toString (nullish (get event "type") (Str "")) with
      | Ok eventType => String.eqb eventType t
      | Throw _ => false
      end
  | _ => false
  end.

(** How many of the events read as [t]. *)
Definition count_events (Number_toString : Q -> string) (t : string)
    (events : list value) : nat :=
  length (filter (fun entry => event_type_is Number_toString t entry = true)
            events).

(** The sample is a non-empty array. *)
Definition has_stack (sampleStack : value) : bool :=
  match sampleStack with
  | Arr (_ :: _) => true
  | _ => false
  end.

(** A document with one frame and one evented profile of a single event,
    as in the test "throws for malformed profiles". *)
Definition single_event_profile : value :=
  Obj [("type", Str "evented"); ("events", Arr [an_event "C" 0 10])].

Definition single_event_document : value :=
  document [Obj [("name", Str "x")]] [single_event_profile].

(** The name and file of every frame of the table, in order. *)
Definition labels (m : metrics) : list (string * string) :=
  map (fun metric => (name metric, file metric)) m.

(** The number of samples of a sampled profile that have a stack. *)
Definition count_stacks (samples : list value) : nat :=
  length (filter (fun sampleStack => has_stack sampleStack = true) samples).

(** A sampled profile without weights: of its four samples, two have a
    stack. *)
Definition unweighted_profile : list (string * value) :=
  [("type", Str "sampled");
   ("samples", Arr [ints [0; 0]%Z; Arr []; Null; ints [0]%Z])].

(** * The parser in binary64 arithmetic

    The same functions with the numbers as the code has them: IEEE-754
    doubles, [spec_float] with a 53-bit significand and the exponents of
    binary64, every operation rounded to nearest, ties to even, overflowing
    to an infinity and giving [NaN] where IEEE-754 does.  What does not
    compute with numbers ([value], [get], [String_], [asRecord], the errors
    and the loops) is shared with the exact embedding. *)

Module Double.

Definition prec : Z := 53.
Definition emax : Z := 1024.

Definition zero : spec_float := S754_zero false.

(** [x + y], [x - y], [x * y], [x / y], [x < y] and [x <= y]. *)
Definition add : spec_float -> spec_float -> spec_float := SFadd prec emax.
Definition sub : spec_float -> spec_float -> spec_float := SFsub prec emax.
Definition mul : spec_float -> spec_float -> spec_float := SFmul prec emax.
Definition div : spec_float -> spec_float -> spec_float := SFdiv prec emax.
Definition ltb : spec_float -> spec_float -> bool := SFltb.
Definition leb : spec_float -> spec_float -> bool := SFleb.

(** The double nearest to [n / d], with the sign [s]. *)
Definition of_ratio (s : bool) (n d : positive) : spec_float :=
  let '(mz, ez, lz) :=
    SFdiv_core_binary prec emax (Z.pos n) 0 (Z.pos d) 0 in
  binary_round_aux prec emax s mz ez lz.

(** The double a number literal of value [q] denotes, as [JSON.parse] and
    the compiler read it. *)
Definition of_Q (q : Q) : spec_float :=
  match Qnum q with
  | Z0 => zero
  | Z.pos n => of_ratio false n (Qden q)
  | Z.neg n => of_ratio true n (Qden q)
  end.

Definition of_Z (z : Z) : spec_float := binary_normalize prec emax z 0 false.

(** The real number a finite double is. *)
Definition exact (x : spec_float) : Q :=
  match x with
  | S754_finite s m e => (inject_Z (cond_Zopp s (Z.pos m)) * 2 ^ e)%Q
  | _ => 0%Q
  end.

(** [x <= y] for the numbers two doubles denote, the infinities included;
    it holds of no [NaN]. *)
Definition le (x y : spec_float) : Prop :=
  match x, y with
  | S754_nan, _ | _, S754_nan => False
  | S754_infinity true, _ | _, S754_infinity false => True
  | S754_infinity false, _ | _, S754_infinity true => False
  | _, _ => (exact x <= exact y)%Q
  end.

(** [Number.isInteger] *)
Definition Number_isInteger (x : spec_float) : bool :=
  match x with
  | S754_zero _ => true
  | S754_finite _ _ _ => Qeq_bool (exact x) (inject_Z (Qfloor (exact x)))
  | _ => false
  end.

(** [Math.round]: the nearest integer, a tie going up; a result of zero
    keeps the sign of [x]. *)
Definition Math_round (x : spec_float) : spec_float :=
  match x with
  | S754_finite s _ _ =>
      match Qfloor (exact x + (1 # 2)) with
      | Z0 => S754_zero s
      | n => of_Z n
      end
  | _ => x
  end.

(** [Number(x.toFixed(digits))]: [toFixed] takes the sign off, picks the
    integer [n] with [n / 10^digits] nearest to [x], the larger one on a
    tie, and prints it with the sign; from [1e21] on, and for [NaN] and the
    infinities, it prints [x] itself.  [Number] reads the digits back as
    the nearest double. *)
Definition toFixed (x : spec_float) (digits : nat) : spec_float :=
  match x with
  | S754_zero _ => zero
  | S754_finite s m e =>
      let q := (inject_Z (Z.pos m) * 2 ^ e)%Q in
      if Qle_bool (inject_Z (10 ^ 21)) q then x
      else
        match Qfloor (q * inject_Z (10 ^ Z.of_nat digits) + (1 # 2)) with
        | Z.pos n => of_ratio s n (Z.to_pos (10 ^ Z.of_nat digits))
        | _ => S754_zero s
        end
  | _ => x
  end.

Record FrameMetrics : Type := {
  name : string;
  file : string;
  selfTime : spec_float;
  totalTime : spec_float;
  sampleCount : nat;
  hotspotScore : spec_float
}.

Record Hotspot : Type := {
  h_name : string;
  h_file : string;
  selfTimeMs : spec_float;
  totalTimeMs : spec_float;
  h_sampleCount : nat;
  inclusivePct : spec_float;
  exclusivePct : spec_float;
  rank : nat
}.

Record ParsedProfileSummary : Type := {
  hotspots : list Hotspot;
  totalSamples : spec_float;
  profileCount : nat
}.

(** [metricsByFrame], as in the exact embedding: the list of the map's
    values in insertion order. *)
Abbreviation metrics := (list FrameMetrics).

Section Parser.

(** [Number::toString] of the host, left abstract. *)
Variable Number_toString : spec_float -> string.

(** [String(v)]; a number literal prints as the double it denotes. *)
Definition String_ (v : value) : result string :=
  String_ (fun q => Number_toString (of_Q q)) v.

(** A literal beyond the range of the doubles is read as an infinity,
    which is not finite. *)
Definition asNumber (v : value) (msg : message) : result spec_float :=
  match v with
  | Num q =>
      match of_Q q with
      | S754_nan | S754_infinity _ => throw msg
      | x => Ok x
      end
  | _ => throw msg
  end.

(** The index is returned as the [nat] it denotes. *)
Definition asIndex (v : value) (max : nat) (msg : message) : result nat :=
  let! index := asNumber v msg in
  if negb (Number_isInteger index) || ltb index zero
     || leb (of_Z (Z.of_nat max)) index
  then throw msg
  else Ok (Z.to_nat (Qfloor (exact index))).

(** [metric.totalTime += w; metric.sampleCount += 1] *)
Definition observe (w : spec_float) (metric : FrameMetrics) : FrameMetrics :=
  {| name := name metric; file := file metric;
     selfTime := selfTime metric;
     totalTime := add (totalTime metric) w;
     sampleCount := sampleCount metric + 1;
     hotspotScore := hotspotScore metric |}.

(** [topMetric.selfTime += w] *)
Definition observe_self (w : spec_float) (metric : FrameMetrics)
  : FrameMetrics :=
  {| name := name metric; file := file metric;
     selfTime := add (selfTime metric) w;
     totalTime := totalTime metric;
     sampleCount := sampleCount metric;
     hotspotScore := hotspotScore metric |}.

(** *** parseSampledProfile *)

(** The body of the loop over [sampleStack] (lines 174-188). *)
Definition sampled_frame (frameCount profileIndex sampleIndex : nat)
    (weightValue : spec_float) (i : nat) (entry : value) (m : metrics)
  : result metrics :=
  let! frameIndex := asIndex entry frameCount
                  (InvalidFrameReference profileIndex sampleIndex) in
  match m !! frameIndex with
  | None => throw (MissingMetricsEntry frameIndex)
  | Some _ => Ok (alter (observe weightValue) frameIndex m)
  end.

(** The weight of sample [sampleIndex] (line 166). *)
Definition sample_weight (weights : list value)
    (profileIndex sampleIndex : nat) : result spec_float :=
  if (0 <? length weights)%nat
  then asNumber (at_index weights sampleIndex)
         (InvalidWeight profileIndex sampleIndex)
  else Ok (of_Z 1).

(** The body of the loop over [samples] (lines 159-202); the state is
    [metricsByFrame] and [observed]. *)
Definition sampled_sample (frameCount profileIndex : nat)
    (weights : list value) (sampleIndex : nat) (sampleStack : value)
    (s : metrics * spec_float) : result (metrics * spec_float) :=
  let '(m, observed) := s in
  match sampleStack with
  | Arr ((_ :: _) as stack) =>
      let! weightValue := sample_weight weights profileIndex sampleIndex in
      if leb weightValue zero then Ok (m, observed)
      else
        let observed := add observed weightValue in
        let! m := for_loop
               (sampled_frame frameCount profileIndex sampleIndex weightValue)
               0 stack m in
        let! topIndex := asIndex (at_index stack (length stack - 1)) frameCount
                      (InvalidLeafFrame profileIndex sampleIndex) in
        match m !! topIndex with
        | None => throw (MissingTopFrameMetrics topIndex)
        | Some _ => Ok (alter (observe_self weightValue) topIndex m, observed)
        end
  | _ => Ok (m, observed)
  end.

Definition parseSampledProfile (profile : list (string * value))
    (frameCount : nat) (metricsByFrame : metrics) (profileIndex : nat)
  : result (metrics * spec_float) :=
  match get profile "samples" with
  | Arr samples =>
      let weights :=
        match get profile "weights" with
        | Arr weights => weights
        | _ => []
        end in
      for_loop (sampled_sample frameCount profileIndex weights)
        0 samples (metricsByFrame, zero)
  | _ => throw (MissingSamplesArray profileIndex)
  end.

(** *** parseEventedProfile *)

(** The body of the loop over [stack] (lines 239-248). *)
Definition evented_frame (delta : spec_float) (s : nat) (frameIndex : nat)
    (m : metrics) : result metrics :=
  match m !! frameIndex with
  | None => throw (MissingMetrics (Some frameIndex))
  | Some _ => Ok (alter (observe delta) frameIndex m)
  end.

(** Lines 227-258. *)
Definition evented_window (profileIndex : nat) (events : list value)
    (i : nat) (at_ : spec_float) (stack : list nat) (m : metrics)
    (observed : spec_float) : result (metrics * spec_float) :=
  if (i <? length events - 1)%nat
  then
    let! next := asRecord (at_index events (i + 1))
                   (InvalidEventEntry profileIndex (i + 1)) in
    let! nextAt := asNumber (get next "at")
                     (InvalidEventTimestamp profileIndex (i + 1)) in
    let delta := sub nextAt at_ in
    if ltb delta zero then throw (NonDecreasingTimestamps profileIndex)
    else if ltb zero delta && (0 <? length stack)%nat
    then
      let observed := add observed delta in
      let! m := for_loop (evented_frame delta) 0 stack m in
      match last stack with
      | Some top =>
          match m !! top with
          | None => throw (MissingTopMetrics (Some top))
          | Some _ => Ok (alter (observe_self delta) top m, observed)
          end
      | None => throw (MissingTopMetrics None)
      end
    else Ok (m, observed)
  else Ok (m, observed).

(** The body of the loop over [events] (lines 221-278); the state is
    [stack], [metricsByFrame] and [observed]. *)
Definition evented_event (frameCount profileIndex : nat)
    (events : list value) (i : nat) (entry : value)
    (s : list nat * metrics * spec_float)
  : result (list nat * metrics * spec_float) :=
  let '(stack, m, observed) := s in
  let! event := asRecord entry (InvalidEventEntry profileIndex i) in
  let! eventType := String_ (nullish (get event "type") (Str "")) in
  let! frame := asIndex (get event "frame") frameCount
                  (InvalidEventFrame profileIndex i) in
  let! at_ := asNumber (get event "at")
                (InvalidEventTimestamp profileIndex i) in
  let! (m, observed) :=
    evented_window profileIndex events i at_ stack m observed in
  if String.eqb eventType "O" then Ok ((stack ++ [frame])%list, m, observed)
  else if String.eqb eventType "C" then
    let closing := last stack in
    if decide (closing = Some frame)
    then Ok (removelast stack, m, observed)
    else throw (UnbalancedStack profileIndex i closing frame)
  else throw (InvalidEventType profileIndex i eventType).

Definition parseEventedProfile (profile : list (string * value))
    (frameCount : nat) (metricsByFrame : metrics) (profileIndex : nat)
  : result (metrics * spec_float) :=
  match get profile "events" with
  | Arr ((_ :: _ :: _) as events) =>
      let! (stack, m, observed) :=
        for_loop (evented_event frameCount profileIndex events)
          0 events ([], metricsByFrame, zero) in
      if (0 <? length stack)%nat then throw (UnclosedFrames profileIndex)
      else Ok (m, observed)
  | _ => throw (TooFewEvents profileIndex)
  end.

(** *** parseSpeedscopeProfile *)

(** The body of the loop over [frames] (lines 73-83). *)
Definition frame_entry (idx : nat) (entry : value) (m : metrics)
  : result metrics :=
  let! frame := asRecord entry (InvalidFrameEntry idx) in
  let! name :=
    String_ (nullish (get frame "name") (Str ("frame_" ++ pretty idx))) in
  let! file := String_ (nullish (get frame "file") (Str "unknown")) in
  Ok (m ++ [ {| name := name; file := file; selfTime := zero;
                totalTime := zero; sampleCount := 0;
                hotspotScore := zero |} ])%list.

(** The body of the loop over [profileEntries] (lines 87-104); the state
    is [metricsByFrame] and [totalObserved]. *)
Definition profile_entry (frameCount : nat) (profileIndex : nat)
    (entry : value) (s : metrics * spec_float)
  : result (metrics * spec_float) :=
  let '(m, totalObserved) := s in
  let! profile := asRecord entry (InvalidProfile profileIndex) in
  let! profileType := String_ (nullish (get profile "type") (Str "")) in
  if String.eqb profileType "sampled" then
    let! (m, observed) :=
      parseSampledProfile profile frameCount m profileIndex in
    Ok (m, add totalObserved observed)
  else if String.eqb profileType "evented" then
    let! (m, observed) :=
      parseEventedProfile profile frameCount m profileIndex in
    Ok (m, add totalObserved observed)
  else throw (UnsupportedProfileType profileIndex profileType).

(** Lines 57-104: validation and accumulation, up to the test of
    [totalObserved]. *)
Definition accumulate (payload : value)
  : result (nat * metrics * spec_float) :=
  let! root := asRecord payload ProfileMustBeObject in
  let! shared := asRecord (get root "shared") MissingSharedFrames in
  match get shared "frames" with
  | Arr ((_ :: _) as frames) =>
      match get root "profiles" with
      | Arr ((_ :: _) as profileEntries) =>
          let! metricsByFrame := for_loop frame_entry 0 frames [] in
          let! (m, totalObserved) :=
            for_loop (profile_entry (length frames)) 0 profileEntries
              (metricsByFrame, zero) in
          Ok (length profileEntries, m, totalObserved)
      | _ => throw NoProfileEntry
      end
  | _ => throw FramesMustBeNonEmpty
  end.

(** The callback of [filter] (line 111). *)
Definition observed_frame (metric : FrameMetrics) : bool :=
  ltb zero (totalTime metric) || ltb zero (selfTime metric).

(** The callback of the first [map] (lines 112-127). *)
Definition to_hotspot (totalObserved : spec_float) (metric : FrameMetrics)
  : Hotspot :=
  let inclusivePct :=
    mul (div (totalTime metric) totalObserved) (of_Z 100) in
  let exclusivePct :=
    mul (div (selfTime metric) totalObserved) (of_Z 100) in
  {| h_name := name metric;
     h_file := file metric;
     selfTimeMs := toFixed (selfTime metric) 3;
     totalTimeMs := toFixed (totalTime metric) 3;
     h_sampleCount := sampleCount metric;
     inclusivePct := toFixed inclusivePct 2;
     exclusivePct := toFixed exclusivePct 2;
     rank := 0 |}.

(** The score the comparator computes from a hotspot (lines 129-130). *)
Definition score (h : Hotspot) : spec_float :=
  add (mul (inclusivePct h) (of_Q (6 # 10)))
      (mul (exclusivePct h) (of_Q (4 # 10))).

(** The comparator of [sort] (lines 128-132). *)
Definition compareFn (a b : Hotspot) : spec_float :=
  let aScore := score a in
  let bScore := score b in
  sub bScore aScore.

(** [Array.prototype.sort], by insertion from the right as in the exact
    embedding: [x] goes behind [y] when the comparator's result is
    positive, and stays ahead of it when it is negative, zero or [NaN],
    which [sort] takes for zero. *)
Fixpoint sort_insert {A} (compare : A -> A -> spec_float) (x : A)
    (l : list A) : list A :=
  match l with
  | [] => [x]
  | y :: rest =>
      if ltb zero (compare x y) then y :: sort_insert compare x rest
      else x :: y :: rest
  end.

Definition Array_sort {A} (compare : A -> A -> spec_float) (l : list A)
  : list A :=
  foldr (sort_insert compare) [] l.

(** The callback of the second [map] (lines 133-136). *)
Definition with_rank (idx : nat) (item : Hotspot) : Hotspot :=
  {| h_name := h_name item; h_file := h_file item;
     selfTimeMs := selfTimeMs item; totalTimeMs := totalTimeMs item;
     h_sampleCount := h_sampleCount item;
     inclusivePct := inclusivePct item; exclusivePct := exclusivePct item;
     rank := idx + 1 |}.

(** Lines 110-136. *)
Definition rank_hotspots (m : metrics) (totalObserved : spec_float)
  : list Hotspot :=
  imap with_rank
    (Array_sort compareFn
       (map (to_hotspot totalObserved) (filter observed_frame m))).

Definition parseSpeedscopeProfile (payload : value)
  : result ParsedProfileSummary :=
  let! (count, m, totalObserved) := accumulate payload in
  if leb totalObserved zero then throw NoMeasurableActivity
  else Ok {| hotspots := rank_hotspots m totalObserved;
             totalSamples := Math_round totalObserved;
             profileCount := count |}.

End Parser.

End Double.

(** ** The vocabulary of rounding *)

(** A result of rounding with the sign [s]: no [NaN], the sign [s], and an
    exponent of at least [emin] when it is finite. *)
Definition rounded (prec emax : Z) (s : bool) (x : spec_float) : Prop :=
  match x with
  | S754_zero s' | S754_infinity s' => s' = s
  | S754_finite s' _ e => s' = s /\ (emin prec emax <= e)%Z
  | S754_nan => False
  end.

Definition nonzero (x : spec_float) : Prop :=
  match x with
  | S754_zero _ => False
  | _ => True
  end.

(** A double whose exponent, if it is finite, is at least that of the
    subnormal numbers: every double the operations return is one. *)
Definition grounded (x : spec_float) : Prop :=
  match x with
  | S754_finite _ _ e => (emin Double.prec Double.emax <= e)%Z
  | _ => True
  end.

(** The order the comparator is to give: the larger score first. *)
Definition by_score64 (a b : Double.Hotspot) : Prop :=
  Double.le (Double.score b) (Double.score a).

(** A double that is no [NaN] and has the sign [+]: zero, a positive
    number or [Infinity]. *)
Definition nonneg (x : spec_float) : Prop :=
  rounded Double.prec Double.emax false x.

(** No time in the table is negative or [NaN]. *)
Definition nonneg_metrics (m : Double.metrics) : Prop :=
  Forall (fun metric => nonneg (Double.totalTime metric) /\
                        nonneg (Double.selfTime metric)) m.

(** C7 as it is worded: in every successful result each hotspot has a
    score no greater than that of the hotspots listed before it. *)
Definition sorted_by_score_spec : Prop :=
  forall (Number_toString : spec_float -> string) (payload : value)
         (summary : Double.ParsedProfileSummary),
    Double.parseSpeedscopeProfile Number_toString payload = Ok summary ->
    forall i j a b,
      i < j ->
      Double.hotspots summary !! i = Some a ->
      Double.hotspots summary !! j = Some b ->
      Double.le (Double.score b) (Double.score a).

(** A stand-in for [Number::toString] on doubles: the digits of the
    integer part. *)
Definition decimal64 (x : spec_float) : string :=
  pretty (Qfloor (Double.exact x)).

(** Two samples of the stack [a, b], each with the weight
    1.7976931348623157e308, the largest double: their sum is beyond the
    doubles. *)
Definition overflow_document : value :=
  document [a_frame "a" "a.ts"; a_frame "b" "b.ts"]
    [Obj [("type", Str "sampled");
          ("samples", Arr [ints [0; 1]; ints [0; 1]]%Z);
          ("weights",
           Arr [Num (inject_Z (17976931348623157 * 10 ^ 292));
                Num (inject_Z (17976931348623157 * 10 ^ 292))])]].

(** An evented profile with the timestamps 0, 1.3, 5.6 and 9.4. *)
Definition uneven_profile : list (string * value) :=
  let event (type : string) (at_ : Q) :=
    Obj [("type", Str type); ("frame", Num 0); ("at", Num at_)] in
  [("type", Str "evented");
   ("events", Arr [event "O" 0; event "O" (13 # 10); event "C" (56 # 10);
                   event "C" (94 # 10)]%Q)].

(** The table of one frame nothing was observed for. *)
Definition untouched64 (name file : string) : Double.FrameMetrics :=
  {| Double.name := name; Double.file := file;
     Double.selfTime := Double.zero; Double.totalTime := Double.zero;
     Double.sampleCount := 0; Double.hotspotScore := Double.zero |}.

(** * Properties *)

(** ** Loops *)

Lemma bind_Ok {X Y} (r : result X) (k : X -> result Y) (y : Y) :
  bind r k = Ok y -> exists x, r = Ok x /\ k x = Ok y.
Proof. destruct r as [x|e]; simpl; [eauto | discriminate]. Qed.

Section Loops.
Context {A St : Type}.
Implicit Types (body : nat -> A -> St -> result St) (a : list A).

Lemma for_loop_app body i a b s :
  for_loop body i (a ++ b)%list s =
  bind (for_loop body i a s) (for_loop body (i + length a) b).
Proof.
  revert i s; induction a as [|x a IH]; intros i s; simpl.
  - by rewrite Nat.add_0_r.
  - destruct (body i x s) as [s'|e]; simpl; [|done].
    rewrite IH. do 2 f_equal. lia.
Qed.

(** A property every iteration keeps holds after any number of them. *)
Lemma for_loop_invariant (P : St -> Prop) body i a s s' :
  (forall j x s1 s2, P s1 -> body j x s1 = Ok s2 -> P s2) ->
  P s -> for_loop body i a s = Ok s' -> P s'.
Proof.
  intros Hbody; revert i s; induction a as [|x a IH]; intros i s Hs; simpl.
  - by intros [= <-].
  - intros (s1 & H1 & H2)%bind_Ok. eauto.
Qed.

(** The loop throws what the first failing iteration throws. *)
Lemma for_loop_throw body i a x b s s1 e :
  for_loop body i a s = Ok s1 ->
  body (i + length a) x s1 = Throw e ->
  for_loop body i (a ++ x :: b)%list s = Throw e.
Proof. intros H1 H2. rewrite for_loop_app, H1. simpl. by rewrite H2. Qed.

(** An iteration that changes nothing can be left out. *)
Lemma for_loop_skip body i a x b s s1 :
  for_loop body i a s = Ok s1 ->
  body (i + length a) x s1 = Ok s1 ->
  for_loop body i (a ++ x :: b)%list s =
  for_loop body (S (i + length a)) b s1.
Proof. intros H1 H2. rewrite for_loop_app, H1. simpl. by rewrite H2. Qed.

End Loops.

(** ** Numbers *)

Lemma Qle_bool_false (a b : Q) : Qle_bool a b = false <-> (b < a)%Q.
Proof.
  split.
  - intros H. apply Qnot_le_lt. intros Hle%Qle_bool_iff. congruence.
  - intros H. destruct (Qle_bool a b) eqn:E; [|done].
    apply Qle_bool_iff in E. by apply Qlt_not_le in H.
Qed.

Lemma Qltb_true (a b : Q) : Qltb a b = true <-> (a < b)%Q.
Proof. unfold Qltb. rewrite negb_true_iff. apply Qle_bool_false. Qed.

Lemma Qltb_false (a b : Q) : Qltb a b = false <-> (b <= a)%Q.
Proof. unfold Qltb. rewrite negb_false_iff. apply Qle_bool_iff. Qed.

(** ** The frame index a value denotes *)

Lemma asIndex_index_of v max msg :
  asIndex v max msg =
  match index_of v max with Some k => Ok k | None => throw msg end.
Proof.
  unfold asIndex, index_of, asNumber. destruct v; simpl; try done.
  by destruct (_ || _).
Qed.

Lemma index_of_lt v max k : index_of v max = Some k -> k < max.
Proof.
  unfold index_of. destruct v as [| | |q| | | | |]; try done.
  destruct (negb _ || _ || _) eqn:E; [done|]. intros [= <-].
  apply orb_false_iff in E as [E1 E3]. apply orb_false_iff in E1 as [_ E2].
  apply Qltb_false in E2. apply Qle_bool_false in E3.
  assert (Qfloor q < Z.of_nat max)%Z.
  { apply Z.lt_nge. intros Hle.
    apply (Qlt_irrefl q). eapply Qlt_le_trans; [exact E3|].
    eapply Qle_trans; [|apply Qfloor_le]. 
    rewrite <- Zle_Qle. exact Hle. }
  assert (0 <= Qfloor q)%Z.
  { change 0%Z with (Qfloor 0). by apply Qfloor_resp_le. }
  lia.
Qed.

(** ** What the loops over a stack do to the metrics *)

Lemma evented_frames_Ok delta i stack m m' :
  for_loop (evented_frame delta) i stack m = Ok m' ->
  m' = observe_all delta stack m.
Proof.
  revert i m; induction stack as [|f stack IH]; intros i m; simpl.
  - by intros [= <-].
  - unfold evented_frame at 1. destruct (m !! f); [simpl; eauto | done].
Qed.

Lemma sampled_frames_Ok frameCount profileIndex sampleIndex w i stack m m' :
  for_loop (sampled_frame frameCount profileIndex sampleIndex w) i stack m
    = Ok m' ->
  exists indices,
    Forall2 (fun v k => index_of v frameCount = Some k) stack indices /\
    m' = observe_all w indices m.
Proof.
  revert i m; induction stack as [|v stack IH]; intros i m; simpl.
  - intros [= <-]. by exists [].
  - unfold sampled_frame at 1. rewrite asIndex_index_of.
    destruct (index_of v frameCount) as [k|] eqn:Ek; [simpl | done].
    destruct (m !! k); [simpl | done].
    intros (indices & H1 & H2)%IH. exists (k :: indices). split; [|done].
    by constructor.
Qed.

Lemma observe_all_lookup w indices m f :
  observe_all w indices m !! f =
  Nat.iter (occurrences f indices) (observe w) <$> m !! f.
Proof.
  unfold observe_all, occurrences.
  revert m; induction indices as [|k indices IH]; intros m; simpl.
  - by destruct (m !! f).
  - rewrite IH, filter_cons. destruct (decide (k = f)) as [->|Hne].
    + rewrite list_lookup_alter_eq. destruct (m !! f); simpl; [|done].
      f_equal. exact (eq_sym (Nat.iter_succ_r _ (observe w) f0)).
    + by rewrite list_lookup_alter_ne.
Qed.

Lemma observe_all_length w indices m :
  length (observe_all w indices m) = length m.
Proof.
  unfold observe_all. revert m; induction indices as [|k indices IH];
    intros m; simpl; [done|]. by rewrite IH, length_alter.
Qed.

Lemma iter_observe_selfTime w n metric :
  selfTime (Nat.iter n (observe w) metric) = selfTime metric.
Proof. induction n as [|n IH]; simpl; [done | exact IH]. Qed.

(** One increment by [w] per occurrence. *)
Lemma iter_observe_totalTime w n metric :
  (totalTime (Nat.iter n (observe w) metric)
   == totalTime metric + inject_Z (Z.of_nat n) * w)%Q.
Proof.
  induction n as [|n IH].
  - simpl. ring.
  - rewrite Nat2Z.inj_succ. unfold Z.succ. rewrite inject_Z_plus.
    simpl. rewrite IH. ring.
Qed.

(** ** Inclusive time bounds exclusive time *)

Lemma occurrences_pos f indices : f ∈ indices -> 0 < occurrences f indices.
Proof.
  intros Hin. unfold occurrences.
  assert (f ∈ filter (fun k => k = f) indices) as H
    by (by apply list_elem_of_filter).
  destruct (filter _ indices); [by apply not_elem_of_nil in H | simpl; lia].
Qed.

Lemma observe_all_total_ge_self w indices m :
  (0 <= w)%Q -> total_ge_self m -> total_ge_self (observe_all w indices m).
Proof.
  unfold total_ge_self. rewrite !Forall_lookup. intros Hw Hm f metric.
  rewrite observe_all_lookup. destruct (m !! f) as [metric0|] eqn:E; [|done].
  intros [= <-]. rewrite iter_observe_selfTime, iter_observe_totalTime.
  specialize (Hm f metric0 E).
  assert (0 <= inject_Z (Z.of_nat (occurrences f indices)) * w)%Q.
  { apply Qmult_le_0_compat; [|done].
    change 0%Q with (inject_Z 0). rewrite <- Zle_Qle. lia. }
  lra.
Qed.

(** The step both aggregators make for one window of time [w]: [w] goes to
    the total of every frame listed, then to the self time of one of them. *)
Lemma observe_self_total_ge_self w indices top m :
  (0 <= w)%Q -> top ∈ indices -> total_ge_self m ->
  total_ge_self (alter (observe_self w) top (observe_all w indices m)).
Proof.
  intros Hw Hin Hm. apply Forall_alter.
  { by apply observe_all_total_ge_self. }
  intros metric. rewrite observe_all_lookup.
  destruct (m !! top) as [metric0|] eqn:E; [|done]. intros [= <-] _.
  unfold total_ge_self in Hm. rewrite Forall_lookup in Hm.
  specialize (Hm top metric0 E). simpl.
  rewrite iter_observe_selfTime, iter_observe_totalTime.
  pose proof (occurrences_pos _ _ Hin) as Hpos.
  assert (1 <= inject_Z (Z.of_nat (occurrences top indices)))%Q.
  { change 1%Q with (inject_Z 1). rewrite <- Zle_Qle. lia. }
  nra.
Qed.

Lemma index_elem_of frameCount stack indices j top :
  Forall2 (fun v k => index_of v frameCount = Some k) stack indices ->
  index_of (at_index stack j) frameCount = Some top ->
  top ∈ indices.
Proof.
  intros HF. unfold at_index. destruct (stack !! j) as [v|] eqn:E; [|done].
  simpl. intros Hv.
  destruct (Forall2_lookup_l _ _ _ _ _ HF E) as (k & Hk & Hvk).
  assert (k = top) as -> by congruence.
  by eapply list_elem_of_lookup_2.
Qed.

(** What an iteration of the loop over [samples] that returns has done:
    nothing, or the common step with the sample's weight. *)
Lemma sampled_sample_Ok frameCount profileIndex weights sampleIndex
    sampleStack m observed m' observed' :
  sampled_sample frameCount profileIndex weights sampleIndex sampleStack
    (m, observed) = Ok (m', observed') ->
  (m' = m /\ observed' = observed) \/
  exists stack w indices top,
    sampleStack = Arr stack /\
    sample_weight weights profileIndex sampleIndex = Ok w /\ (0 < w)%Q /\
    Forall2 (fun v k => index_of v frameCount = Some k) stack indices /\
    top ∈ indices /\
    m' = alter (observe_self w) top (observe_all w indices m) /\
    observed' = (observed + w)%Q.
Proof.
  unfold sampled_sample.
  destruct sampleStack as [| | | | | | |stack|]; try (intros [= <- <-]; by left).
  destruct stack as [|v0 stack0]; [intros [= <- <-]; by left|].
  set (stack := v0 :: stack0).
  intros (w & Hw & H)%bind_Ok.
  destruct (Qle_bool w 0) eqn:Hpos; [injection H as <- <-; by left|].
  apply Qle_bool_false in Hpos.
  apply bind_Ok in H as (m1 & Hloop & H).
  apply sampled_frames_Ok in Hloop as (indices & HF & ->).
  rewrite asIndex_index_of in H.
  destruct (index_of _ frameCount) as [top|] eqn:Etop; [simpl in H | done].
  destruct (_ !! top); [|done]. injection H as <- <-.
  right. exists stack, w, indices, top. repeat split; try done.
  by eapply index_elem_of.
Qed.

Lemma last_elem_of {X} (l : list X) (x : X) : last l = Some x -> x ∈ l.
Proof.
  intros H. apply last_Some in H as [l' ->]. apply elem_of_app. right.
  by apply elem_of_cons; left.
Qed.

(** The same for the window between two events. *)
Lemma evented_window_Ok profileIndex events i at_ stack m observed
    m' observed' :
  evented_window profileIndex events i at_ stack m observed
    = Ok (m', observed') ->
  (m' = m /\ observed' = observed) \/
  exists delta top,
    (0 < delta)%Q /\ last stack = Some top /\
    m' = alter (observe_self delta) top (observe_all delta stack m) /\
    observed' = (observed + delta)%Q.
Proof.
  unfold evented_window.
  destruct (i <? length events - 1)%nat; [|intros [= <- <-]; by left].
  intros (next & _ & H)%bind_Ok. apply bind_Ok in H as (nextAt & _ & H).
  destruct (Qltb (nextAt - at_) 0); [done|].
  destruct (Qltb 0 (nextAt - at_)) eqn:Hpos; simpl in H;
    [|injection H as <- <-; by left].
  destruct (0 <? length stack)%nat; [|injection H as <- <-; by left].
  apply Qltb_true in Hpos.
  apply bind_Ok in H as (m1 & ->%evented_frames_Ok & H).
  destruct (last stack) as [top|] eqn:Elast; [|done].
  destruct (_ !! top); [|done]. injection H as <- <-.
  right. by exists (nextAt - at_)%Q, top.
Qed.

Lemma sampled_sample_total_ge_self frameCount profileIndex weights
    sampleIndex sampleStack s s' :
  total_ge_self s.1 ->
  sampled_sample frameCount profileIndex weights sampleIndex sampleStack s
    = Ok s' ->
  total_ge_self s'.1.
Proof.
  destruct s as [m o], s' as [m' o']. simpl. intros Hm H.
  apply sampled_sample_Ok in H
    as [[-> ->]|(stack & w & indices & top & _ & _ & Hw & _ & Hin & -> & _)];
    [done|].
  apply observe_self_total_ge_self; [lra | done | done].
Qed.

Lemma evented_event_total_ge_self Number_toString frameCount profileIndex
    events i entry s s' :
  total_ge_self s.1.2 ->
  evented_event Number_toString frameCount profileIndex events i entry s
    = Ok s' ->
  total_ge_self s'.1.2.
Proof.
  destruct s as [[stack m] o], s' as [[stack' m'] o']. simpl. intros Hm.
  unfold evented_event.
  intros (event & _ & H)%bind_Ok. apply bind_Ok in H as (eventType & _ & H).
  apply bind_Ok in H as (frame & _ & H). apply bind_Ok in H as (at_ & _ & H).
  apply bind_Ok in H as ([m1 o1] & Hwin & H).
  assert (m' = m1) as ->.
  { destruct (String.eqb eventType "O"); [congruence|].
    destruct (String.eqb eventType "C"); [|done].
    destruct (decide _); [congruence | done]. }
  apply evented_window_Ok in Hwin
    as [[-> ->]|(delta & top & Hd & Hlast & -> & _)]; [done|].
  apply observe_self_total_ge_self; [lra | by apply last_elem_of | done].
Qed.

Lemma keeps_intro {A St} (P : St -> Prop)
    (body : nat -> A -> St -> result St) :
  (forall j x s1 s2, P s1 -> body j x s1 = Ok s2 -> P s2) -> keeps P body.
Proof. intros H a k i s s'. by apply for_loop_invariant. Qed.

Lemma keeps_all {A St} (P : St -> Prop)
    (body : nat -> A -> St -> result St) a i s s' :
  keeps P body -> P s -> for_loop body i a s = Ok s' -> P s'.
Proof. intros H. rewrite <- (firstn_all a) at 1. apply H. Qed.

Section Invariant.
Variable Number_toString : Q -> string.

Lemma sampled_frame_keeps frameCount profileIndex sampleIndex w :
  (0 < w)%Q ->
  keeps total_ge_self (sampled_frame frameCount profileIndex sampleIndex w).
Proof.
  intros Hw a k i m m' Hm (indices & _ & ->)%sampled_frames_Ok.
  apply observe_all_total_ge_self; [lra | done].
Qed.

Lemma evented_frame_keeps delta :
  (0 < delta)%Q -> keeps total_ge_self (evented_frame delta).
Proof.
  intros Hw a k i m m' Hm ->%evented_frames_Ok.
  apply observe_all_total_ge_self; [lra | done].
Qed.

Lemma sampled_sample_keeps frameCount profileIndex weights :
  keeps (fun s => total_ge_self s.1)
    (sampled_sample frameCount profileIndex weights).
Proof.
  apply keeps_intro. intros j x s1 s2. apply sampled_sample_total_ge_self.
Qed.

Lemma evented_event_keeps frameCount profileIndex events :
  keeps (fun s => total_ge_self s.1.2)
    (evented_event Number_toString frameCount profileIndex events).
Proof.
  apply keeps_intro. intros j x s1 s2. apply evented_event_total_ge_self.
Qed.

Lemma parseSampledProfile_total_ge_self profile frameCount m profileIndex
    m' observed :
  total_ge_self m ->
  parseSampledProfile profile frameCount m profileIndex = Ok (m', observed) ->
  total_ge_self m'.
Proof.
  intros Hm. unfold parseSampledProfile.
  destruct (get profile "samples"); try done.
  intros H. by apply (keeps_all _ _ _ _ _ _ (sampled_sample_keeps _ _ _)) in H.
Qed.

Lemma parseEventedProfile_total_ge_self profile frameCount m profileIndex
    m' observed :
  total_ge_self m ->
  parseEventedProfile Number_toString profile frameCount m profileIndex
    = Ok (m', observed) ->
  total_ge_self m'.
Proof.
  intros Hm. unfold parseEventedProfile.
  destruct (get profile "events") as [| | | | | | |events|]; try done.
  destruct events as [|e0 [|e1 events]]; try done.
  intros ([[stack m1] o1] & H & Hend)%bind_Ok.
  apply (keeps_all _ _ _ _ _ _ (evented_event_keeps _ _ _)) in H; [|done].
  destruct (0 <? length stack)%nat; [done|]. by injection Hend as <- <-.
Qed.

Lemma profile_entry_keeps frameCount :
  keeps (fun s => total_ge_self s.1)
    (profile_entry Number_toString frameCount).
Proof.
  apply keeps_intro. intros profileIndex entry [m t] [m' t']. simpl.
  intros Hm. unfold profile_entry.
  intros (profile & _ & H)%bind_Ok. apply bind_Ok in H as (type & _ & H).
  destruct (String.eqb type "sampled").
  { apply bind_Ok in H as ([m1 o1] & H & [= <- <-]).
    by eapply parseSampledProfile_total_ge_self. }
  destruct (String.eqb type "evented"); [|done].
  apply bind_Ok in H as ([m1 o1] & H & [= <- <-]).
  by eapply parseEventedProfile_total_ge_self.
Qed.

Lemma frame_entry_total_ge_self frames i m0 m :
  total_ge_self m0 ->
  for_loop (frame_entry Number_toString) i frames m0 = Ok m ->
  total_ge_self m.
Proof.
  apply for_loop_invariant. intros idx entry m1 m2 Hm1. unfold frame_entry.
  intros (frame & _ & H)%bind_Ok. apply bind_Ok in H as (n & _ & H).
  apply bind_Ok in H as (f & _ & [= <-]).
  apply Forall_app. split; [done|]. by repeat constructor.
Qed.

(** What [accumulate] returns when it returns. *)
Lemma accumulate_Ok payload count m totalObserved :
  accumulate Number_toString payload = Ok (count, m, totalObserved) ->
  exists root shared frames profileEntries m0,
    payload = Obj root /\ get root "shared" = Obj shared /\
    get shared "frames" = Arr frames /\ frames <> [] /\
    get root "profiles" = Arr profileEntries /\ profileEntries <> [] /\
    for_loop (frame_entry Number_toString) 0 frames [] = Ok m0 /\
    for_loop (profile_entry Number_toString (length frames)) 0
      profileEntries (m0, 0%Q) = Ok (m, totalObserved) /\
    count = length profileEntries.
Proof.
  unfold accumulate.
  intros (root & Hroot & H)%bind_Ok. apply bind_Ok in H as (shared & Hsh & H).
  destruct payload; try done. injection Hroot as ->.
  destruct (get root "shared") eqn:Eshared; try done. injection Hsh as ->.
  destruct (get shared "frames") as [| | | | | | |frames|] eqn:Eframes;
    try done.
  destruct frames as [|f0 frames]; [done|].
  destruct (get root "profiles") as [| | | | | | |entries|] eqn:Eentries;
    try done.
  destruct entries as [|p0 entries]; [done|].
  apply bind_Ok in H as (m0 & Hm0 & H).
  apply bind_Ok in H as ([m1 t1] & H1 & [= <- <- <-]).
  by exists root, shared, (f0 :: frames), (p0 :: entries), m0.
Qed.

Lemma accumulate_total_ge_self payload count m totalObserved :
  accumulate Number_toString payload = Ok (count, m, totalObserved) ->
  total_ge_self m.
Proof.
  intros (root & shared & frames & entries & m0 & _ & _ & _ & _ & _ & _
          & Hm0 & H & _)%accumulate_Ok.
  apply frame_entry_total_ge_self in Hm0; [|constructor].
  by apply (keeps_all _ _ _ _ _ _ (profile_entry_keeps _)) in H.
Qed.

End Invariant.

(** C4.  For every frame the accumulated [totalTime] is at least the
    accumulated [selfTime]: in the table [parseSpeedscopeProfile] ranks
    (the one [accumulate] returns), in the table the loop over [frames]
    builds, and, from a table where it holds, after any number of
    iterations of each loop of the sampled aggregator and of the evented
    reconstructor, the loops over a stack (whose weight or delta the code
    has found positive) included. *)
Theorem totalTime_ge_selfTime (Number_toString : Q -> string) :
  (forall payload count m totalObserved,
     accumulate Number_toString payload = Ok (count, m, totalObserved) ->
     total_ge_self m) /\
  (forall payload summary,
     parseSpeedscopeProfile Number_toString payload = Ok summary ->
     exists count m totalObserved,
       accumulate Number_toString payload = Ok (count, m, totalObserved) /\
       total_ge_self m) /\
  (forall frames m,
     for_loop (frame_entry Number_toString) 0 frames [] = Ok m ->
     total_ge_self m) /\
  (forall frameCount,
     keeps (fun s => total_ge_self s.1)
       (profile_entry Number_toString frameCount)) /\
  (forall frameCount profileIndex weights,
     keeps (fun s => total_ge_self s.1)
       (sampled_sample frameCount profileIndex weights)) /\
  (forall frameCount profileIndex sampleIndex weightValue,
     Qle_bool weightValue 0 = false ->
     keeps total_ge_self
       (sampled_frame frameCount profileIndex sampleIndex weightValue)) /\
  (forall frameCount profileIndex events,
     keeps (fun s => total_ge_self s.1.2)
       (evented_event Number_toString frameCount profileIndex events)) /\
  (forall delta,
     Qltb 0 delta = true -> keeps total_ge_self (evented_frame delta)).
Proof.
  split; [apply accumulate_total_ge_self|].
  split.
  { intros payload summary H. unfold parseSpeedscopeProfile in H.
    apply bind_Ok in H as ([[count m] t] & Hacc & _).
    exists count, m, t. split; [done|].
    by eapply accumulate_total_ge_self. }
  split.
  { intros frames m. apply frame_entry_total_ge_self. constructor. }
  split; [apply profile_entry_keeps|].
  split; [apply sampled_sample_keeps|].
  split.
  { intros fc pi si w Hw%Qle_bool_false. by apply sampled_frame_keeps. }
  split; [apply evented_event_keeps|].
  intros delta Hd%Qltb_true. by apply evented_frame_keeps.
Qed.

(** ** Which errors the accumulation can raise *)

Lemma bind_Throw {X Y} (r : result X) (k : X -> result Y) (e : exn) :
  bind r k = Throw e -> r = Throw e \/ exists x, r = Ok x /\ k x = Throw e.
Proof. destruct r as [x|e']; simpl; [eauto | intros [= ->]; by left]. Qed.

Lemma for_loop_Throw {A St} (body : nat -> A -> St -> result St) i a s e :
  for_loop body i a s = Throw e -> exists j x s1, body j x s1 = Throw e.
Proof.
  revert i s; induction a as [|x a IH]; intros i s; simpl; [done|].
  intros [H|(s1 & _ & H)]%bind_Throw; eauto.
Qed.

(** Induction on values, through the arrays and objects they hold. *)
Lemma value_ind_deep (P : value -> Prop) :
  P Undefined -> P Null -> (forall b, P (Bool b)) -> (forall q, P (Num q)) ->
  P NaN -> (forall n, P (Infinity n)) -> (forall s, P (Str s)) ->
  (forall elements, Forall P elements -> P (Arr elements)) ->
  (forall properties, Forall (fun p => P p.2) properties ->
                      P (Obj properties)) ->
  forall v, P v.
Proof.
  intros HU HN HB HQ HNaN HI HS HA HO.
  fix IH 1. intros [| |b|q| |n|s|elements|properties].
  - exact HU.
  - exact HN.
  - apply HB.
  - apply HQ.
  - exact HNaN.
  - apply HI.
  - apply HS.
  - apply HA. induction elements as [|e l IHl]; constructor;
      [apply IH | exact IHl].
  - apply HO. induction properties as [|[k e] l IHl]; constructor;
      [apply IH | exact IHl].
Qed.

Lemma String_Throw Number_toString v e :
  String_ Number_toString v = Throw e -> e = TypeError.
Proof.
  revert e. induction v as [| |[]| | |[]| |elements IH|properties _]
    using value_ind_deep; intros e; simpl; try done;
    [|destruct (existsb _ _); [by intros [= <-] | done]].
  induction IH as [|x l Hx _ IHl]; [done|].
  assert (forall e,
    match x with
    | Undefined | Null => Ok ""
    | _ => String_ Number_toString x
    end = Throw e -> e = TypeError) as Hx'.
  { intros e'. destruct x; try done; apply Hx. }
  destruct l as [|y l]; [apply Hx'|].
  intros [H|(s & _ & H)]%bind_Throw; [by apply Hx'|].
  apply bind_Throw in H as [H|(r & _ & H)]; [by apply IHl | done].
Qed.

(** Splits a hypothesis [_ = Throw e] into the places of the code that
    can have thrown [e]. *)
Ltac raised :=
  repeat match goal with
    | H : bind _ _ = Throw _ |- _ =>
        apply bind_Throw in H as [H|(? & _ & H)]
    | H : String_ _ _ = Throw _ |- _ => apply String_Throw in H as ->
    | H : asRecord ?v _ = Throw _ |- _ => destruct v; simpl in H
    | H : asNumber ?v _ = Throw _ |- _ => destruct v; simpl in H
    | H : asIndex _ _ _ = Throw _ |- _ =>
        rewrite asIndex_index_of in H; destruct (index_of _ _)
    | H : for_loop _ _ _ _ = Throw _ |- _ =>
        apply for_loop_Throw in H as (? & ? & ? & H)
    | H : match ?x with _ => _ end = Throw _ |- _ => destruct x
    | H : (let (_, _) := ?x in _) = Throw _ |- _ => destruct x
    | H : throw _ = Throw _ |- _ => injection H as <-
    | H : Throw _ = Throw _ |- _ => injection H as <-
    | H : Ok _ = Throw _ |- _ => discriminate H
    end;
  try done.

Section Raised.
Variable Number_toString : Q -> string.

Lemma sampled_frame_raised frameCount profileIndex sampleIndex w i entry m e :
  sampled_frame frameCount profileIndex sampleIndex w i entry m = Throw e ->
  accumulated e = true.
Proof. unfold sampled_frame. intros H. raised. Qed.

Lemma sampled_sample_raised frameCount profileIndex weights i sampleStack s e :
  sampled_sample frameCount profileIndex weights i sampleStack s = Throw e ->
  accumulated e = true.
Proof.
  unfold sampled_sample, sample_weight. intros H. raised.
  by eapply sampled_frame_raised.
Qed.

Lemma parseSampledProfile_raised profile frameCount m profileIndex e :
  parseSampledProfile profile frameCount m profileIndex = Throw e ->
  accumulated e = true.
Proof.
  unfold parseSampledProfile. intros H. raised.
  by eapply sampled_sample_raised.
Qed.

Lemma evented_window_raised profileIndex events i at_ stack m observed e :
  evented_window profileIndex events i at_ stack m observed = Throw e ->
  accumulated e = true.
Proof. unfold evented_window, evented_frame. intros H. raised. Qed.

Lemma evented_event_raised frameCount profileIndex events i entry s e :
  evented_event Number_toString frameCount profileIndex events i entry s
    = Throw e ->
  accumulated e = true.
Proof.
  unfold evented_event. intros H. raised.
  by eapply evented_window_raised.
Qed.

Lemma parseEventedProfile_raised profile frameCount m profileIndex e :
  parseEventedProfile Number_toString profile frameCount m profileIndex
    = Throw e ->
  accumulated e = true.
Proof.
  unfold parseEventedProfile. intros H. raised.
  by eapply evented_event_raised.
Qed.

Lemma profile_entry_raised frameCount profileIndex entry s e :
  profile_entry Number_toString frameCount profileIndex entry s = Throw e ->
  accumulated e = true.
Proof.
  unfold profile_entry. intros H. raised.
  - by eapply parseSampledProfile_raised.
  - by eapply parseEventedProfile_raised.
Qed.

Lemma accumulate_raised payload e :
  accumulate Number_toString payload = Throw e -> accumulated e = true.
Proof.
  unfold accumulate, frame_entry. intros H. raised.
  by eapply profile_entry_raised.
Qed.

End Raised.

(** ** No measurable activity *)

Section NoActivity.
Variable Number_toString : Q -> string.

Lemma sampled_sample_nonpositive frameCount profileIndex weights i
    sampleStack q s :
  weights !! i = Some (Num q) -> (q <= 0)%Q ->
  sampled_sample frameCount profileIndex weights i sampleStack s = Ok s.
Proof.
  intros Hw Hq. destruct s as [m o]. unfold sampled_sample.
  destruct sampleStack as [| | | | | | |[|v stack]|]; try done.
  unfold sample_weight, at_index. rewrite Hw.
  destruct weights as [|w0 weights]; [done|]. simpl.
  apply Qle_bool_iff in Hq. by rewrite Hq.
Qed.

Lemma sampled_loop_nonpositive frameCount profileIndex weights samples i s :
  (forall j, j < length samples ->
     exists q, weights !! (i + j) = Some (Num q) /\ (q <= 0)%Q) ->
  for_loop (sampled_sample frameCount profileIndex weights) i samples s
    = Ok s.
Proof.
  revert i; induction samples as [|x samples IH]; intros i Hall; [done|].
  simpl. destruct (Hall 0) as (q & Hq & Hle); [simpl; lia|].
  rewrite Nat.add_0_r in Hq.
  rewrite (sampled_sample_nonpositive _ _ _ _ _ _ _ Hq Hle). simpl.
  apply IH. intros j Hj. replace (S i + j) with (i + S j) by lia.
  apply Hall. simpl; lia.
Qed.

Lemma profile_entry_nonpositive frameCount profileIndex entry m t :
  nonpositive_sampled Number_toString entry ->
  profile_entry Number_toString frameCount profileIndex entry (m, t)
    = Ok (m, (t + 0)%Q).
Proof.
  intros (profile & samples & weights & -> & Htype & Hs & Hw & Hall).
  unfold profile_entry. simpl. rewrite Htype. simpl.
  unfold parseSampledProfile. rewrite Hs, Hw.
  by rewrite sampled_loop_nonpositive.
Qed.

Lemma profiles_nonpositive frameCount entries i m t :
  Forall (nonpositive_sampled Number_toString) entries -> (t <= 0)%Q ->
  exists t', for_loop (profile_entry Number_toString frameCount) i entries
               (m, t) = Ok (m, t') /\ (t' <= 0)%Q.
Proof.
  intros Hall; revert i t; induction Hall as [|entry entries H _ IH];
    intros i t Ht; cbn [for_loop]; [eauto|].
  rewrite (profile_entry_nonpositive _ _ _ _ _ H). cbn [bind].
  apply IH. lra.
Qed.

End NoActivity.

(** C5.  [parseSpeedscopeProfile] throws the error of line 107 exactly when
    validation and every profile entry went through without an error and the
    total observed is not positive; a document whose frames are valid and
    whose profile entries are all sampled, with a weight that is not
    positive for every sample, fails this way. *)
Theorem NoMeasurableActivity_exactly_when (Number_toString : Q -> string) :
  (forall payload,
     parseSpeedscopeProfile Number_toString payload
       = Throw (SpeedscopeParseError NoMeasurableActivity) <->
     exists count m totalObserved,
       accumulate Number_toString payload = Ok (count, m, totalObserved) /\
       (totalObserved <= 0)%Q) /\
  (forall root shared frames m0 profileEntries,
     get root "shared" = Obj shared ->
     get shared "frames" = Arr frames -> frames <> [] ->
     for_loop (frame_entry Number_toString) 0 frames [] = Ok m0 ->
     get root "profiles" = Arr profileEntries -> profileEntries <> [] ->
     Forall (nonpositive_sampled Number_toString) profileEntries ->
     parseSpeedscopeProfile Number_toString (Obj root)
       = Throw (SpeedscopeParseError NoMeasurableActivity)).
Proof.
  split.
  - intros payload. unfold parseSpeedscopeProfile. split.
    + intros [H|([[count m] t] & Hacc & H)]%bind_Throw.
      { by apply accumulate_raised in H. }
      exists count, m, t. split; [done|].
      destruct (Qle_bool t 0) eqn:E; [by apply Qle_bool_iff | done].
    + intros (count & m & t & -> & Ht%Qle_bool_iff). simpl. by rewrite Ht.
  - intros root shared frames m0 entries Hshared Hframes Hne Hm0 Hentries
      Hne' Hall.
    destruct (profiles_nonpositive Number_toString (length frames) entries
                0 m0 0%Q Hall) as (t' & Hloop & Ht'); [lra|].
    unfold parseSpeedscopeProfile, accumulate. cbn [asRecord bind].
    rewrite Hshared. cbn [asRecord bind]. rewrite Hframes.
    destruct frames as [|f0 frames]; [done|]. rewrite Hentries.
    destruct entries as [|p0 entries]; [done|].
    rewrite Hm0. cbn [bind]. rewrite Hloop. cbn [bind].
    apply Qle_bool_iff in Ht'. by rewrite Ht'.
Qed.

(** ** The sort *)

Lemma sort_insert_perm {A} (compare : A -> A -> Q) x l :
  sort_insert compare x l ≡ₚ x :: l.
Proof.
  induction l as [|y l IH]; simpl; [done|].
  destruct (Qle_bool _ _); [done|]. rewrite IH. apply Permutation_swap.
Qed.

Lemma Array_sort_perm {A} (compare : A -> A -> Q) l :
  Array_sort compare l ≡ₚ l.
Proof.
  unfold Array_sort. induction l as [|x l IH]; simpl; [done|].
  by rewrite sort_insert_perm, IH.
Qed.

Lemma StronglySorted_lookup {A} (R : A -> A -> Prop) l i j a b :
  StronglySorted R l -> i < j -> l !! i = Some a -> l !! j = Some b -> R a b.
Proof.
  intros Hl; revert i j; induction Hl as [|x l Hl IH Hx]; intros i j Hij;
    [done|].
  destruct j as [|j]; [lia|]. destruct i as [|i]; simpl.
  - intros [= <-] Hb. rewrite Forall_forall in Hx. apply Hx.
    by eapply list_elem_of_lookup_2.
  - apply IH. lia.
Qed.

(** ** Samples the aggregator skips *)

Lemma sampled_sample_skipped frameCount profileIndex weights sampleIndex
    sampleStack s :
  skipped weights profileIndex sampleIndex sampleStack ->
  sampled_sample frameCount profileIndex weights sampleIndex sampleStack s
    = Ok s.
Proof.
  destruct s as [m o]. unfold sampled_sample.
  intros [Hno|(w & Hw & Hle)].
  - by destruct sampleStack as [| | | | | | |[|v stack]|].
  - destruct sampleStack as [| | | | | | |[|v stack]|]; try done.
    rewrite Hw. simpl. apply Qle_bool_iff in Hle. by rewrite Hle.
Qed.

(** C6.  A sample without a stack, or whose weight resolves to a number
    that is not positive, raises no error and changes neither the metrics
    nor the observed total; the loop over the samples goes on after it from
    the state it had reached before it, as if the sample were not there. *)
Theorem skipped_sample_contributes_nothing
    (frameCount profileIndex : nat) (weights : list value)
    (sampleIndex : nat) (sampleStack : value) :
  skipped weights profileIndex sampleIndex sampleStack ->
  (forall (m : metrics) (observed : Q),
     sampled_sample frameCount profileIndex weights sampleIndex sampleStack
       (m, observed) = Ok (m, observed)) /\
  (forall before after s s1,
     length before = sampleIndex ->
     for_loop (sampled_sample frameCount profileIndex weights) 0 before s
       = Ok s1 ->
     for_loop (sampled_sample frameCount profileIndex weights) 0
       (before ++ sampleStack :: after)%list s
     = for_loop (sampled_sample frameCount profileIndex weights)
         (S sampleIndex) after s1).
Proof.
  intros Hskip. split.
  - intros m observed. by apply sampled_sample_skipped.
  - intros before after s s1 <- Hbefore.
    apply (for_loop_skip _ 0); [done|]. by apply sampled_sample_skipped.
Qed.

(** ** The weights of a sampled profile *)

Lemma sample_weight_past_end weights profileIndex sampleIndex :
  weights <> [] -> length weights <= sampleIndex ->
  sample_weight weights profileIndex sampleIndex
  = Throw (SpeedscopeParseError (InvalidWeight profileIndex sampleIndex)).
Proof.
  intros Hne Hlen. unfold sample_weight, at_index.
  destruct weights as [|w0 weights]; [done|].
  by rewrite (lookup_ge_None_2 _ _ Hlen).
Qed.

Lemma sampled_sample_past_end frameCount profileIndex weights sampleIndex
    stack s :
  weights <> [] -> length weights <= sampleIndex -> stack <> [] ->
  sampled_sample frameCount profileIndex weights sampleIndex (Arr stack) s
  = Throw (SpeedscopeParseError (InvalidWeight profileIndex sampleIndex)).
Proof.
  intros Hne Hlen Hstack. destruct s as [m o]. unfold sampled_sample.
  destruct stack as [|v stack]; [done|].
  by rewrite sample_weight_past_end.
Qed.

(** A loop in which some iteration cannot but throw, throws. *)
Lemma for_loop_fails {A St} (body : nat -> A -> St -> result St) a i j x :
  a !! j = Some x ->
  (forall s, exists e, body (i + j) x s = Throw e) ->
  forall s, exists e, for_loop body i a s = Throw e.
Proof.
  revert i j; induction a as [|y a IH]; intros i j Hx Hbody s; [done|].
  simpl. destruct j as [|j].
  - injection Hx as ->. rewrite Nat.add_0_r in Hbody.
    destruct (Hbody s) as [e ->]. by exists e.
  - destruct (body i y s) as [s1|e]; simpl; [|by exists e].
    apply (IH (S i) j); [done|]. intros s'.
    replace (S i + j) with (i + S j) by lia. apply Hbody.
Qed.

Lemma for_loop_throw_at {A St} (body : nat -> A -> St -> result St)
    a i x s s1 e :
  a !! i = Some x ->
  for_loop body 0 (take i a) s = Ok s1 ->
  body i x s1 = Throw e ->
  for_loop body 0 a s = Throw e.
Proof.
  intros Hx Hpre Hbody.
  rewrite <- (take_drop_middle a i x Hx).
  apply (for_loop_throw _ 0 _ _ _ _ s1); [done|].
  rewrite length_take_le; [done|]. apply lookup_lt_Some in Hx. lia.
Qed.

(** ** Where the parse stands *)

Section Reaches.
Variable Number_toString : Q -> string.

Lemma reaches_profile_throws payload profileIndex entry frameCount m t e :
  reaches_profile Number_toString payload profileIndex entry frameCount m t ->
  profile_entry Number_toString frameCount profileIndex entry (m, t)
    = Throw e ->
  parseSpeedscopeProfile Number_toString payload = Throw e.
Proof.
  intros (root & shared & frames & entries & m0 & -> & Hshared & Hframes
          & Hne & Hentries & Hm0 & -> & Hentry & Hpre) Hthrow.
  unfold parseSpeedscopeProfile, accumulate. cbn [asRecord bind].
  rewrite Hshared. cbn [asRecord bind]. rewrite Hframes.
  destruct frames as [|f0 frames]; [done|]. rewrite Hentries.
  destruct entries as [|p0 entries]; [done|].
  rewrite Hm0. cbn [bind].
  by rewrite (for_loop_throw_at _ _ _ _ _ _ _ Hentry Hpre Hthrow).
Qed.

Lemma reaches_sample_throws payload profileIndex samples weights sampleIndex
    sampleStack frameCount s e :
  reaches_sample Number_toString payload profileIndex samples weights
    sampleIndex sampleStack frameCount s ->
  sampled_sample frameCount profileIndex weights sampleIndex sampleStack s
    = Throw e ->
  parseSpeedscopeProfile Number_toString payload = Throw e.
Proof.
  intros (profile & m1 & t1 & Hreach & Htype & Hsamples & -> & Hsample
          & Hpre) Hthrow.
  eapply reaches_profile_throws; [exact Hreach|].
  unfold profile_entry. cbn [asRecord bind]. rewrite Htype. cbn [bind].
  cbn [String.eqb Ascii.eqb Bool.eqb]. unfold parseSampledProfile.
  rewrite Hsamples.
  by rewrite (for_loop_throw_at _ _ _ _ _ _ _ Hsample Hpre Hthrow).
Qed.

Lemma reaches_event_throws payload profileIndex events i entry frameCount
    s e :
  reaches_event Number_toString payload profileIndex events i entry
    frameCount s ->
  evented_event Number_toString frameCount profileIndex events i entry s
    = Throw e ->
  parseSpeedscopeProfile Number_toString payload = Throw e.
Proof.
  intros (profile & m1 & t1 & Hreach & Htype & Hevents & Hlen & Hentry
          & Hpre) Hthrow.
  eapply reaches_profile_throws; [exact Hreach|].
  unfold profile_entry. cbn [asRecord bind]. rewrite Htype. cbn [bind].
  cbn [String.eqb Ascii.eqb Bool.eqb]. unfold parseEventedProfile.
  rewrite Hevents.
  destruct events as [|e0 [|e1 events]]; [simpl in Hlen; lia.. |].
  by rewrite (for_loop_throw_at _ _ _ _ _ _ _ Hentry Hpre Hthrow).
Qed.

End Reaches.

(** C9.  In a sampled profile entry the parse has got to, with a non-empty
    array of weights, a sample with a stack whose index is past the end of
    the weights has no weight: resolving it throws the invalid-weight error
    instead of giving 1.  The whole parse fails then, and with this error
    once the samples before it have gone through. *)
Theorem short_weights_fail (Number_toString : Q -> string) (payload : value)
    (profileIndex : nat) (profile : list (string * value))
    (frameCount : nat) (m : metrics) (totalObserved : Q)
    (samples weights : list value) (sampleIndex : nat) (stack : list value) :
  reaches_profile Number_toString payload profileIndex (Obj profile)
    frameCount m totalObserved ->
  String_ Number_toString (nullish (get profile "type") (Str ""))
    = Ok "sampled" ->
  get profile "samples" = Arr samples ->
  get profile "weights" = Arr weights ->
  weights <> [] -> length weights <= sampleIndex ->
  samples !! sampleIndex = Some (Arr stack) -> stack <> [] ->
  sample_weight weights profileIndex sampleIndex
    = Throw (SpeedscopeParseError (InvalidWeight profileIndex sampleIndex)) /\
  (exists e, parseSpeedscopeProfile Number_toString payload = Throw e) /\
  (forall s,
     for_loop (sampled_sample frameCount profileIndex weights) 0
       (take sampleIndex samples) (m, 0%Q) = Ok s ->
     parseSpeedscopeProfile Number_toString payload
     = Throw (SpeedscopeParseError (InvalidWeight profileIndex sampleIndex))).
Proof.
  intros Hreach Htype Hsamples Hweights Hne Hlen Hsample Hstack.
  split; [by apply sample_weight_past_end|]. split.
  - destruct (for_loop_fails
                (sampled_sample frameCount profileIndex weights) samples 0
                sampleIndex (Arr stack) Hsample) with (s := (m, 0%Q))
      as [e He].
    { intros s. eexists. by apply sampled_sample_past_end. }
    exists e. eapply reaches_profile_throws; [exact Hreach|].
    unfold profile_entry. cbn [asRecord bind]. rewrite Htype. cbn [bind].
    cbn [String.eqb Ascii.eqb Bool.eqb]. unfold parseSampledProfile.
    by rewrite Hsamples, Hweights, He.
  - intros s Hpre.
    eapply (reaches_sample_throws _ _ _ samples weights sampleIndex).
    + exists profile, m, totalObserved. by rewrite Hweights.
    + by apply sampled_sample_past_end.
Qed.

Lemma sampled_sample_no_weights frameCount profileIndex i sampleStack s e :
  sampled_sample frameCount profileIndex [] i sampleStack s = Throw e ->
  weight_error e = false.
Proof.
  unfold sampled_sample, sample_weight. cbn [length Nat.ltb Nat.leb bind].
  intros H. raised. unfold sampled_frame in H. raised.
Qed.

(** C10.  A [weights] field that is not an array is read as no weights at
    all: the entry is aggregated as the same entry without the field is,
    every sample weighs 1, and no invalid-weight error comes of it. *)
Theorem weights_not_array_ignored (profile : list (string * value))
    (frameCount : nat) (m : metrics) (profileIndex : nat) :
  (forall weights, get profile "weights" <> Arr weights) ->
  (forall profile',
     get profile' "samples" = get profile "samples" ->
     get profile' "weights" = Undefined ->
     parseSampledProfile profile frameCount m profileIndex
     = parseSampledProfile profile' frameCount m profileIndex) /\
  (forall samples,
     get profile "samples" = Arr samples ->
     parseSampledProfile profile frameCount m profileIndex
     = for_loop (sampled_sample frameCount profileIndex []) 0 samples
         (m, 0%Q)) /\
  (forall sampleIndex, sample_weight [] profileIndex sampleIndex = Ok 1%Q) /\
  (forall e,
     parseSampledProfile profile frameCount m profileIndex = Throw e ->
     weight_error e = false).
Proof.
  intros Hnot.
  assert (match get profile "weights" with
          | Arr weights => weights
          | _ => []
          end = []) as Hw.
  { destruct (get profile "weights") as [| | | | | | |weights|] eqn:E;
      try done. by destruct (Hnot weights). }
  repeat split.
  - intros profile' Hs Hw'. unfold parseSampledProfile.
    by rewrite Hs, Hw', Hw.
  - intros samples Hs. unfold parseSampledProfile. by rewrite Hs, Hw.
  - unfold parseSampledProfile. rewrite Hw. intros e H. raised.
    by eapply sampled_sample_no_weights.
Qed.

(** ** The table keeps its size, the stack holds keys of the table *)

Lemma sampled_sample_length frameCount profileIndex weights i sampleStack
    s s' :
  sampled_sample frameCount profileIndex weights i sampleStack s = Ok s' ->
  length s'.1 = length s.1.
Proof.
  destruct s as [m o], s' as [m' o']. simpl.
  intros [[-> _]|(stack & w & indices & top & _ & _ & _ & _ & _ & -> & _)]
    %sampled_sample_Ok; [done|].
  by rewrite length_alter, observe_all_length.
Qed.

Section Sizes.
Variable Number_toString : Q -> string.

Lemma evented_event_length frameCount profileIndex events i entry s s' :
  evented_event Number_toString frameCount profileIndex events i entry s
    = Ok s' ->
  length s'.1.2 = length s.1.2 /\
  (frameCount = length s.1.2 -> stack_in_table s -> stack_in_table s').
Proof.
  destruct s as [[stack m] o], s' as [[stack' m'] o'].
  unfold stack_in_table. simpl. unfold evented_event.
  intros (event & _ & H)%bind_Ok. apply bind_Ok in H as (eventType & _ & H).
  apply bind_Ok in H as (frame & Hframe & H).
  apply bind_Ok in H as (at_ & _ & H).
  apply bind_Ok in H as ([m1 o1] & Hwin & H).
  assert (length m1 = length m) as Hlen.
  { apply evented_window_Ok in Hwin
      as [[-> _]|(delta & top & _ & _ & -> & _)]; [done|].
    by rewrite length_alter, observe_all_length. }
  rewrite asIndex_index_of in Hframe.
  destruct (index_of _ frameCount) as [k|] eqn:Ek; [|done].
  injection Hframe as ->. apply index_of_lt in Ek.
  destruct (String.eqb eventType "O").
  { injection H as <- <- <-. split; [done|]. intros -> Hstack.
    rewrite Hlen. apply Forall_app. split; [done|]. by repeat constructor. }
  destruct (String.eqb eventType "C"); [|done].
  destruct (decide _) as [Hlast|]; [|done].
  injection H as <- <- <-. split; [done|]. intros _ Hstack. rewrite Hlen.
  apply last_Some in Hlast as [stack0 ->].
  rewrite removelast_last. by apply Forall_app in Hstack as [? _].
Qed.

Lemma parseEventedProfile_length profile frameCount m profileIndex s' :
  parseEventedProfile Number_toString profile frameCount m profileIndex
    = Ok s' ->
  length s'.1 = length m.
Proof.
  unfold parseEventedProfile.
  destruct (get profile "events") as [| | | | | | |events|]; try done.
  destruct events as [|e0 [|e1 events]]; try done.
  intros ([[stack m1] o1] & H & Hend)%bind_Ok.
  destruct (0 <? length stack)%nat; [done|]. injection Hend as <-. simpl.
  revert H. apply (for_loop_invariant (fun s => length s.1.2 = length m));
    [|done].
  intros j x s1 s2 Hs1 [Hlen _]%evented_event_length. congruence.
Qed.

Lemma profile_entry_length frameCount profileIndex entry s s' :
  profile_entry Number_toString frameCount profileIndex entry s = Ok s' ->
  length s'.1 = length s.1.
Proof.
  destruct s as [m t], s' as [m' t']. simpl. unfold profile_entry.
  intros (profile & _ & H)%bind_Ok. apply bind_Ok in H as (type & _ & H).
  destruct (String.eqb type "sampled").
  { apply bind_Ok in H as ([m1 o1] & H & [= <- <-]).
    unfold parseSampledProfile in H.
    destruct (get profile "samples"); try done. revert H.
    apply (for_loop_invariant (fun s => length s.1 = length m)); [|done].
    intros j x s1 s2 Hs1 Hlen%sampled_sample_length. congruence. }
  destruct (String.eqb type "evented"); [|done].
  apply bind_Ok in H as ([m1 o1] & H & [= <- <-]).
  by apply parseEventedProfile_length in H.
Qed.

Lemma frame_entry_length frames i m0 m :
  for_loop (frame_entry Number_toString) i frames m0 = Ok m ->
  length m = length m0 + length frames.
Proof.
  revert i m0; induction frames as [|f frames IH]; intros i m0; simpl.
  - intros [= <-]. lia.
  - intros (m1 & H1 & H2)%bind_Ok. apply IH in H2. rewrite H2.
    unfold frame_entry in H1. apply bind_Ok in H1 as (frame & _ & H1).
    apply bind_Ok in H1 as (n & _ & H1).
    apply bind_Ok in H1 as (f' & _ & [= <-]). rewrite length_app. simpl. lia.
Qed.

Lemma reaches_profile_length payload profileIndex entry frameCount m t :
  reaches_profile Number_toString payload profileIndex entry frameCount m t ->
  length m = frameCount.
Proof.
  intros (root & shared & frames & entries & m0 & _ & _ & _ & _ & _ & Hm0
          & -> & _ & Hpre).
  apply frame_entry_length in Hm0. simpl in Hm0. rewrite <- Hm0.
  revert Hpre.
  apply (for_loop_invariant (fun s => length s.1 = length m0)); [|done].
  intros j x s1 s2 Hs1 Hlen%profile_entry_length. congruence.
Qed.

Lemma reaches_event_stack payload profileIndex events i entry frameCount s :
  reaches_event Number_toString payload profileIndex events i entry
    frameCount s ->
  frameCount = length s.1.2 /\ stack_in_table s.
Proof.
  intros (profile & m1 & t1 & Hreach%reaches_profile_length & _ & _ & _ & _
          & Hpre).
  revert Hpre.
  apply (for_loop_invariant
           (fun s => frameCount = length s.1.2 /\ stack_in_table s)).
  - intros j x s1 s2 [Hfc Hstack] [Hlen Hkeep]%evented_event_length.
    split; [congruence | by apply Hkeep].
  - split; [done | constructor].
Qed.

End Sizes.

(** ** Unbalanced close *)

Lemma evented_frames_in_table delta i stack m :
  Forall (fun frame => frame < length m) stack ->
  for_loop (evented_frame delta) i stack m = Ok (observe_all delta stack m).
Proof.
  revert i m; induction stack as [|f stack IH]; intros i m Hstack; [done|].
  apply Forall_cons in Hstack as [Hf Hstack]. simpl.
  unfold evented_frame at 1.
  destruct (lookup_lt_is_Some_2 m f Hf) as [metric ->]. simpl.
  apply IH. by rewrite length_alter.
Qed.

Lemma evented_window_passes profileIndex events i at_ stack m observed :
  stack_in_table (stack, m, observed) ->
  look_ahead_passes events i at_ ->
  exists r,
    evented_window profileIndex events i at_ stack m observed = Ok r.
Proof.
  unfold stack_in_table. simpl. intros Hstack Hpass. unfold evented_window.
  destruct (i <? length events - 1)%nat eqn:Ei; [|eauto].
  apply Nat.ltb_lt in Ei.
  destruct Hpass as [?|(next & nextAt & Hnext & Hat & Hle)]; [lia|].
  unfold at_index. rewrite Hnext. simpl. rewrite Hat. simpl.
  assert (Qltb (nextAt - at_) 0 = false) as -> by (apply Qltb_false; lra).
  destruct (Qltb 0 (nextAt - at_)); [|simpl; eauto].
  destruct (0 <? length stack)%nat eqn:Es; simpl; [|eauto].
  rewrite evented_frames_in_table by done. simpl.
  destruct (last stack) as [top|] eqn:Elast.
  - assert (top < length m) as Htop.
    { rewrite Forall_forall in Hstack. apply Hstack.
      by apply last_elem_of. }
    rewrite <- (observe_all_length (nextAt - at_) stack m) in Htop.
    destruct (lookup_lt_is_Some_2 _ _ Htop) as [metric ->]. eauto.
  - apply last_None in Elast. subst stack. done.
Qed.

Lemma evented_window_fails profileIndex events i at_ stack m observed :
  ~ look_ahead_passes events i at_ ->
  exists e,
    evented_window profileIndex events i at_ stack m observed = Throw e /\
    look_ahead_error profileIndex i e.
Proof.
  unfold look_ahead_passes, look_ahead_error. intros Hnot.
  unfold evented_window.
  destruct (i <? length events - 1)%nat eqn:Ei.
  2: { apply Nat.ltb_ge in Ei. destruct Hnot. by left. }
  unfold at_index.
  destruct (events !! (i + 1)) as [[| | | | | | | |next]|] eqn:Enext;
    simpl; eauto.
  destruct (get next "at") as [| | |nextAt| | | | |] eqn:Eat; simpl; eauto.
  destruct (Qltb (nextAt - at_) 0) eqn:Ed; [eauto 6|].
  apply Qltb_false in Ed. destruct Hnot. right.
  exists next, nextAt. repeat split; try done. lra.
Qed.

Section Unbalanced.
Variable Number_toString : Q -> string.

(** The iteration for a [Close] event whose frame is not the one on top of
    the stack. *)
Lemma evented_event_unbalanced frameCount profileIndex events i event frame
    at_ stack m observed :
  String_ Number_toString (nullish (get event "type") (Str "")) = Ok "C" ->
  index_of (get event "frame") frameCount = Some frame ->
  get event "at" = Num at_ ->
  last stack <> Some frame ->
  evented_event Number_toString frameCount profileIndex events i (Obj event)
    (stack, m, observed)
  = match evented_window profileIndex events i at_ stack m observed with
    | Ok _ => Throw (SpeedscopeParseError
                       (UnbalancedStack profileIndex i (last stack) frame))
    | Throw e => Throw e
    end.
Proof.
  intros Htype Hframe Hat Hlast. unfold evented_event.
  cbn [asRecord bind]. rewrite Htype. cbn [bind].
  rewrite asIndex_index_of, Hframe. cbn [bind]. rewrite Hat.
  cbn [asNumber bind].
  destruct (evented_window _ _ _ _ _ _ _) as [[m1 o1]|e]; [|done].
  cbn [bind String.eqb Ascii.eqb Bool.eqb].
  by destruct (decide (last stack = Some frame)).
Qed.

End Unbalanced.

(** ** The documents of the repository's tests *)

(** C1.  On the evented document of the test the parser returns
    [totalSamples] 8, "main" with [totalTimeMs] 8 and [selfTimeMs] 4, and
    "work" with [totalTimeMs] 4 and [exclusivePct] 50: the window from 0 to
    2 goes to no frame, the stack being empty until the first event is
    applied. *)
Theorem evented_document_result (Number_toString : Q -> string) :
  exists summary main work,
    parseSpeedscopeProfile Number_toString evented_document = Ok summary /\
    hotspots summary = [main; work] /\
    h_name main = "main" /\ h_name work = "work" /\
    totalSamples summary = 8%Z /\
    (totalTimeMs main == 8)%Q /\ (selfTimeMs main == 4)%Q /\
    (totalTimeMs work == 4)%Q /\ (exclusivePct work == 50)%Q.
Proof.
  eexists _, _, _. split; [vm_compute; reflexivity|].
  split; [reflexivity|]. by repeat split.
Qed.

(** C3.  On the sampled document of the test the parser returns
    [totalSamples] 14 and lists "render" first, with both percentages
    85.71 and the score 85.71; "root", with [inclusivePct] 100 and the
    score 60, has rank 2. *)
Theorem sampled_document_result (Number_toString : Q -> string) :
  exists summary render root diff,
    parseSpeedscopeProfile Number_toString sampled_document = Ok summary /\
    hotspots summary = [render; root; diff] /\
    totalSamples summary = 14%Z /\
    h_name render = "render" /\ rank render = 1 /\
    (inclusivePct render == 8571 # 100)%Q /\
    (exclusivePct render == 8571 # 100)%Q /\
    h_name root = "root" /\ rank root = 2 /\
    (inclusivePct root == 100)%Q /\ (exclusivePct root == 0)%Q /\
    (score render == 8571 # 100)%Q /\ (score root == 60)%Q.
Proof.
  eexists _, _, _, _. split; [vm_compute; reflexivity|].
  split; [reflexivity|]. by repeat split.
Qed.

(** ** Recursion *)

Lemma occurrences_of_entries frameCount f stack indices :
  Forall2 (fun v k => index_of v frameCount = Some k) stack indices ->
  occurrences f indices
  = length (filter (fun v => index_of v frameCount = Some f) stack).
Proof.
  unfold occurrences.
  induction 1 as [|v k stack indices Hv _ IH]; [done|].
  rewrite !filter_cons, Hv.
  destruct (decide (k = f)) as [->|Hne].
  - rewrite decide_True by done. simpl. by rewrite IH.
  - rewrite decide_False by congruence. exact IH.
Qed.

(** C8.  On the document with the stack [[0, 0]] the parse succeeds and the
    one hotspot reports an [inclusivePct] above 100.  In general the loop
    over a sample's stack adds the weight to a frame's [totalTime] once for
    each entry of the stack that denotes the frame. *)
Theorem inclusivePct_above_100 (Number_toString : Q -> string) :
  (exists summary h,
     parseSpeedscopeProfile Number_toString recursive_document = Ok summary /\
     hotspots summary = [h] /\ totalSamples summary = 1%Z /\
     (totalTimeMs h == 2)%Q /\ (inclusivePct h == 200)%Q /\
     (100 < inclusivePct h)%Q) /\
  (forall frameCount profileIndex sampleIndex weightValue stack m m' f metric,
     for_loop (sampled_frame frameCount profileIndex sampleIndex weightValue)
       0 stack m = Ok m' ->
     m !! f = Some metric ->
     exists metric',
       m' !! f = Some metric' /\
       (totalTime metric' ==
        totalTime metric
        + inject_Z (Z.of_nat
            (length (filter (fun v => index_of v frameCount = Some f) stack)))
          * weightValue)%Q).
Proof.
  split.
  - eexists _, _. split; [vm_compute; reflexivity|].
    split; [reflexivity|]. by repeat split.
  - intros fc pi si w stack m m' f metric
      (indices & HF & ->)%sampled_frames_Ok Hf.
    rewrite observe_all_lookup, Hf. simpl. eexists. split; [done|].
    rewrite iter_observe_totalTime.
    by rewrite (occurrences_of_entries _ _ _ _ HF).
Qed.

(** ** Unbalanced close, in the whole parse *)

Lemma close_first_reached :
  reaches_event decimal close_first_document 0 close_first_events 0
    (an_event "C" 0 5) 1 ([], [untouched "main" "main.ts"], 0%Q).
Proof.
  exists [("type", Str "evented"); ("events", Arr close_first_events)],
    [untouched "main" "main.ts"], 0%Q.
  split.
  { eexists _, _, _, _, _. by repeat split. }
  repeat split; simpl; lia.
Qed.

Lemma close_first_result :
  parseSpeedscopeProfile decimal close_first_document
  = Throw (SpeedscopeParseError (NonDecreasingTimestamps 0)).
Proof. by vm_compute. Qed.

(** C2, as worded, fails: the first event of [close_first_document] is a
    [Close] that finds the stack empty, and the parse fails with the error
    about timestamps, raised by the look-ahead before the stack is
    touched. *)
Lemma unbalanced_close_counterexample :
  reaches_event decimal close_first_document 0 close_first_events 0
    (an_event "C" 0 5) 1 ([], [untouched "main" "main.ts"], 0%Q) /\
  @last nat [] <> Some 0 /\
  parseSpeedscopeProfile decimal close_first_document
  = Throw (SpeedscopeParseError (NonDecreasingTimestamps 0)) /\
  ~ unbalanced_close_spec decimal.
Proof.
  split; [exact close_first_reached|]. split; [done|].
  split; [exact close_first_result|].
  intros Hspec.
  destruct (Hspec _ _ _ _ _ _ _ _ _ 0 5%Q close_first_reached)
    as (p & j & closing & f & H); [done..|].
  by rewrite close_first_result in H.
Qed.

(** C2, amended.  When the parse gets to a [Close] event whose frame is not
    on top of the stack, or finds the stack empty, it fails: with the
    unbalanced-stack error, naming the frame popped and the frame of the
    event, if the look-ahead passes, and with one of the three errors of the
    look-ahead otherwise. *)
Theorem unbalanced_close_fails (Number_toString : Q -> string)
    (payload : value) (profileIndex : nat) (events : list value) (i : nat)
    (event : list (string * value)) (frameCount : nat) (stack : list nat)
    (m : metrics) (observed : Q) (frame : nat) (at_ : Q) :
  reaches_event Number_toString payload profileIndex events i (Obj event)
    frameCount (stack, m, observed) ->
  String_ Number_toString (nullish (get event "type") (Str "")) = Ok "C" ->
  index_of (get event "frame") frameCount = Some frame ->
  get event "at" = Num at_ ->
  last stack <> Some frame ->
  (exists e, parseSpeedscopeProfile Number_toString payload = Throw e) /\
  (look_ahead_passes events i at_ ->
   parseSpeedscopeProfile Number_toString payload
   = Throw (SpeedscopeParseError
              (UnbalancedStack profileIndex i (last stack) frame))) /\
  (~ look_ahead_passes events i at_ ->
   exists e, parseSpeedscopeProfile Number_toString payload = Throw e /\
             look_ahead_error profileIndex i e).
Proof.
  intros Hreach Htype Hframe Hat Hlast.
  pose proof (evented_event_unbalanced Number_toString frameCount
                profileIndex events i event frame at_ stack m observed
                Htype Hframe Hat Hlast) as Hevent.
  destruct (reaches_event_stack _ _ _ _ _ _ _ _ Hreach) as [_ Hstack].
  split; [|split].
  - destruct (evented_window _ _ _ _ _ _ _) as [r|e]; eexists;
      eapply reaches_event_throws; eauto.
  - intros Hpass.
    destruct (evented_window_passes profileIndex events i at_ stack m
                observed Hstack Hpass) as [r Hr].
    rewrite Hr in Hevent. eapply reaches_event_throws; eauto.
  - intros Hnot.
    destruct (evented_window_fails profileIndex events i at_ stack m
                observed Hnot) as (e & He & Herr).
    rewrite He in Hevent. exists e. split; [|done].
    eapply reaches_event_throws; eauto.
Qed.

(** [unbalanced_close_fails] at [crossed_document]: the look-ahead passes,
    the [Close] of frame 1 finds frame 0 on top. *)
Lemma unbalanced_close_fails_witness :
  reaches_event decimal crossed_document 0 crossed_events 1
    (an_event "C" 1 1) 2
    ([0], [untouched "main" "main.ts"; untouched "work" "work.ts"], 0%Q) /\
  look_ahead_passes crossed_events 1 1 /\
  parseSpeedscopeProfile decimal crossed_document
  = Throw (SpeedscopeParseError (UnbalancedStack 0 1 (Some 0) 1)).
Proof.
  assert (reaches_event decimal crossed_document 0 crossed_events 1
    (an_event "C" 1 1) 2
    ([0], [untouched "main" "main.ts"; untouched "work" "work.ts"], 0%Q))
    as Hreach.
  { exists [("type", Str "evented"); ("events", Arr crossed_events)],
      [untouched "main" "main.ts"; untouched "work" "work.ts"], 0%Q.
    split.
    { eexists _, _, _, _, _. repeat split; done. }
    repeat split; simpl; lia. }
  assert (look_ahead_passes crossed_events 1 1) as Hpass.
  { left. simpl. lia. }
  split; [exact Hreach|]. split; [exact Hpass|].
  refine (proj1 (proj2 (unbalanced_close_fails decimal crossed_document 0
            crossed_events 1 _ 2 [0] _ 0%Q 1 1%Q Hreach _ _ _ _)) Hpass);
    done.
Defined.

(** ** The theorems at concrete documents *)

(** [totalTime_ge_selfTime] at the evented document of the tests. *)
Lemma totalTime_ge_selfTime_witness :
  exists count m totalObserved,
    accumulate decimal evented_document = Ok (count, m, totalObserved) /\
    total_ge_self m.
Proof.
  eexists _, _, _. split; [vm_compute; reflexivity|].
  eapply (proj1 (totalTime_ge_selfTime decimal) evented_document).
  vm_compute. reflexivity.
Defined.

(** [NoMeasurableActivity_exactly_when] at [idle_document]. *)
Lemma NoMeasurableActivity_exactly_when_witness :
  Forall (nonpositive_sampled decimal) [Obj idle_profile] /\
  parseSpeedscopeProfile decimal idle_document
  = Throw (SpeedscopeParseError NoMeasurableActivity).
Proof.
  assert (Forall (nonpositive_sampled decimal) [Obj idle_profile]) as Hall.
  { constructor; [|constructor].
    exists idle_profile, [ints [0]%Z], [Num 0].
    repeat split. intros [|i] Hi; [|simpl in Hi; lia].
    exists 0%Q. split; [reflexivity | discriminate]. }
  split; [exact Hall|].
  apply (proj2 (NoMeasurableActivity_exactly_when decimal)
           [("shared", Obj [("frames", Arr [a_frame "main" "main.ts"])]);
            ("profiles", Arr [Obj idle_profile])]
           [("frames", Arr [a_frame "main" "main.ts"])]
           [a_frame "main" "main.ts"] [untouched "main" "main.ts"]
           [Obj idle_profile]);
    try reflexivity; try discriminate; exact Hall.
Defined.

(** [skipped_sample_contributes_nothing] at a sample of weight 0. *)
Lemma skipped_sample_contributes_nothing_witness :
  skipped [Num 0] 0 0 (ints [0]%Z) /\
  sampled_sample 1 0 [Num 0] 0 (ints [0]%Z) ([untouched "main" "main.ts"], 0%Q)
  = Ok ([untouched "main" "main.ts"], 0%Q).
Proof.
  assert (skipped [Num 0] 0 0 (ints [0]%Z)) as Hskip.
  { right. exists 0%Q. split; [reflexivity | discriminate]. }
  split; [exact Hskip|].
  apply (proj1 (skipped_sample_contributes_nothing 1 0 [Num 0] 0
                  (ints [0]%Z) Hskip)).
Defined.

(** [short_weights_fail] at [short_document]: the second sample has no
    weight. *)
Lemma short_weights_fail_witness :
  reaches_profile decimal short_document 0 (Obj short_profile) 1
    [untouched "main" "main.ts"] 0%Q /\
  parseSpeedscopeProfile decimal short_document
  = Throw (SpeedscopeParseError (InvalidWeight 0 1)).
Proof.
  assert (reaches_profile decimal short_document 0 (Obj short_profile) 1
            [untouched "main" "main.ts"] 0%Q) as Hreach.
  { eexists _, _, _, _, _. repeat split; done. }
  split; [exact Hreach|].
  assert ([Num 1] <> @nil value) as Hne by discriminate.
  assert ([Num 0] <> @nil value) as Hstack by discriminate.
  eapply (proj2 (proj2 (short_weights_fail decimal short_document 0
            short_profile 1 [untouched "main" "main.ts"] 0%Q
            [ints [0]%Z; ints [0]%Z] [Num 1] 1 [Num 0]
            Hreach eq_refl eq_refl eq_refl Hne (le_n 1) eq_refl Hstack))).
  vm_compute. reflexivity.
Defined.

(** [weights_not_array_ignored] at [odd_profile]. *)
Lemma weights_not_array_ignored_witness :
  (forall weights, get odd_profile "weights" <> Arr weights) /\
  parseSampledProfile odd_profile 1 [untouched "main" "main.ts"] 0
  = for_loop (sampled_sample 1 0 []) 0 [ints [0]%Z]
      ([untouched "main" "main.ts"], 0%Q).
Proof.
  assert (forall weights, get odd_profile "weights" <> Arr weights) as Hnot.
  { intros weights. discriminate. }
  split; [exact Hnot|].
  apply (proj1 (proj2 (weights_not_array_ignored odd_profile 1
                         [untouched "main" "main.ts"] 0 Hnot))).
  reflexivity.
Defined.

(** ** Further properties *)

Lemma sampled_frames_invalid frameCount profileIndex sampleIndex w i stack m :
  length m = frameCount ->
  Exists (fun v => index_of v frameCount = None) stack ->
  for_loop (sampled_frame frameCount profileIndex sampleIndex w) i stack m
  = Throw (SpeedscopeParseError
             (InvalidFrameReference profileIndex sampleIndex)).
Proof.
  intros Hlen Hex; revert i m Hlen.
  induction stack as [|v stack IH]; intros i m Hlen; [by inversion Hex|].
  simpl. unfold sampled_frame at 1. rewrite asIndex_index_of.
  destruct (index_of v frameCount) as [k|] eqn:Ek; [|done]. simpl.
  apply index_of_lt in Ek as Hk. rewrite <- Hlen in Hk.
  destruct (lookup_lt_is_Some_2 m k Hk) as [metric ->]. simpl.
  apply IH.
  - inversion Hex as [? ? Hv|]; subst; [congruence | done].
  - by rewrite length_alter.
Qed.

(** X2.  In a sample that is not skipped, an entry of the stack that is not
    an integer within [[0, frameCount)] is fatal: the iteration throws the
    invalid-frame-reference error for this sample. *)
Theorem invalid_frame_reference_is_fatal (frameCount profileIndex : nat)
    (weights : list value) (sampleIndex : nat) (stack : list value)
    (weightValue : Q) (m : metrics) (observed : Q) :
  length m = frameCount ->
  sample_weight weights profileIndex sampleIndex = Ok weightValue ->
  (0 < weightValue)%Q ->
  Exists (fun v => index_of v frameCount = None) stack ->
  sampled_sample frameCount profileIndex weights sampleIndex (Arr stack)
    (m, observed)
  = Throw (SpeedscopeParseError
             (InvalidFrameReference profileIndex sampleIndex)).
Proof.
  intros Hlen Hw Hpos Hex. unfold sampled_sample.
  destruct stack as [|v stack]; [by inversion Hex|].
  rewrite Hw. cbn [bind]. apply Qle_bool_false in Hpos. rewrite Hpos.
  by rewrite sampled_frames_invalid.
Qed.

Lemma invalid_frame_reference_is_fatal_witness :
  sampled_sample 1 0 [] 0 (ints [0; 1]%Z) ([untouched "main" "main.ts"], 0%Q)
  = Throw (SpeedscopeParseError (InvalidFrameReference 0 0)).
Proof.
  apply (invalid_frame_reference_is_fatal 1 0 [] 0 [Num 0; Num 1] 1%Q
           [untouched "main" "main.ts"] 0%Q eq_refl eq_refl eq_refl).
  apply Exists_cons_tl, Exists_cons_hd. reflexivity.
Defined.

Section Observed.
Variable Number_toString : Q -> string.

Lemma sampled_sample_observed frameCount profileIndex weights :
  keeps (fun s => (0 <= s.2)%Q)
    (sampled_sample frameCount profileIndex weights).
Proof.
  apply keeps_intro. intros j x [m o] [m' o']. simpl.
  intros Ho [[_ ->]|(stack & w & indices & top & _ & _ & Hw & _ & _ & _
                     & ->)]%sampled_sample_Ok; lra.
Qed.

Lemma evented_event_observed frameCount profileIndex events :
  keeps (fun s => (0 <= s.2)%Q)
    (evented_event Number_toString frameCount profileIndex events).
Proof.
  apply keeps_intro. intros j x [[stack m] o] [[stack' m'] o']. simpl.
  intros Ho. unfold evented_event.
  intros (event & _ & H)%bind_Ok. apply bind_Ok in H as (eventType & _ & H).
  apply bind_Ok in H as (frame & _ & H). apply bind_Ok in H as (at_ & _ & H).
  apply bind_Ok in H as ([m1 o1] & Hwin & H).
  assert (o' = o1) as ->.
  { destruct (String.eqb eventType "O"); [congruence|].
    destruct (String.eqb eventType "C"); [|done].
    destruct (decide _); [congruence | done]. }
  apply evented_window_Ok in Hwin
    as [[_ ->]|(delta & top & Hd & _ & _ & ->)]; lra.
Qed.

Lemma profile_entry_observed frameCount :
  keeps (fun s => (0 <= s.2)%Q) (profile_entry Number_toString frameCount).
Proof.
  apply keeps_intro. intros profileIndex entry [m t] [m' t']. simpl.
  intros Ht. unfold profile_entry.
  intros (profile & _ & H)%bind_Ok. apply bind_Ok in H as (type & _ & H).
  destruct (String.eqb type "sampled").
  { apply bind_Ok in H as ([m1 o1] & H & [= <- <-]).
    unfold parseSampledProfile in H.
    destruct (get profile "samples"); try done.
    apply (keeps_all _ _ _ _ _ _ (sampled_sample_observed _ _ _)) in H;
      simpl in *; lra. }
  destruct (String.eqb type "evented"); [|done].
  apply bind_Ok in H as ([m1 o1] & H & [= <- <-]).
  unfold parseEventedProfile in H.
  destruct (get profile "events") as [| | | | | | |events|]; try done.
  destruct events as [|e0 [|e1 events]]; try done.
  apply bind_Ok in H as ([[stack m2] o2] & H & Hend).
  apply (keeps_all _ _ _ _ _ _ (evented_event_observed _ _ _)) in H;
    [|simpl; lra].
  destruct (0 <? length stack)%nat; [done|]. injection Hend as <- <-.
  simpl in *; lra.
Qed.

End Observed.

(** X3.  The total observed is never negative, and it is positive in every
    successful parse: it is the denominator of the percentages. *)
Theorem totalObserved_positive (Number_toString : Q -> string)
    (payload : value) (count : nat) (m : metrics) (totalObserved : Q) :
  accumulate Number_toString payload = Ok (count, m, totalObserved) ->
  (0 <= totalObserved)%Q /\
  (forall summary,
     parseSpeedscopeProfile Number_toString payload = Ok summary ->
     (0 < totalObserved)%Q).
Proof.
  intros Hacc. split.
  - apply accumulate_Ok in Hacc
      as (root & shared & frames & entries & m0 & _ & _ & _ & _ & _ & _
          & _ & H & _).
    apply (keeps_all _ _ _ _ _ _ (profile_entry_observed _ _)) in H;
      simpl in *; lra.
  - intros summary. unfold parseSpeedscopeProfile. rewrite Hacc. simpl.
    destruct (Qle_bool totalObserved 0) eqn:E; [done|].
    intros _. by apply Qle_bool_false.
Qed.

Lemma totalObserved_positive_witness :
  exists count m totalObserved,
    accumulate decimal evented_document = Ok (count, m, totalObserved) /\
    (0 <= totalObserved)%Q.
Proof.
  destruct (accumulate decimal evented_document) as [[[count m] t]|e] eqn:E;
    [|vm_compute in E; discriminate].
  exists count, m, t. split; [reflexivity|].
  exact (proj1 (totalObserved_positive decimal evented_document count m t E)).
Defined.

(** ** Rounding *)

Lemma scale_pos (digits : nat) : (0 < inject_Z (10 ^ Z.of_nat digits))%Q.
Proof.
  change 0%Q with (inject_Z 0). rewrite <- Zlt_Qlt.
  apply Z.pow_pos_nonneg; lia.
Qed.

Lemma toFixed_below (x : Q) (digits : nat) :
  (0 <= x)%Q -> (x < inject_Z (10 ^ 21))%Q ->
  toFixed x digits
  = (inject_Z (Qfloor (x * inject_Z (10 ^ Z.of_nat digits) + (1 # 2)))
     / inject_Z (10 ^ Z.of_nat digits))%Q.
Proof.
  intros Hx Hlt. unfold toFixed.
  assert (Qle_bool (inject_Z (10 ^ 21)) (Qabs x) = false) as ->.
  { apply Qle_bool_false. by rewrite Qabs_pos. }
  assert (Qltb x 0 = false) as -> by (by apply Qltb_false).
  done.
Qed.

Lemma toFixed_above (x : Q) (digits : nat) :
  (inject_Z (10 ^ 21) <= Qabs x)%Q -> toFixed x digits = x.
Proof. intros H%Qle_bool_iff. unfold toFixed. by rewrite H. Qed.

(** Rounding keeps the order of numbers that are not negative. *)
Lemma toFixed_mono (x y : Q) (digits : nat) :
  (0 <= x)%Q -> (x <= y)%Q -> (toFixed x digits <= toFixed y digits)%Q.
Proof.
  intros Hx Hxy. pose proof (scale_pos digits) as Hs.
  assert (0 <= y)%Q as Hy by lra.
  destruct (Qlt_le_dec x (inject_Z (10 ^ 21))) as [Hxlt|Hxge];
    destruct (Qlt_le_dec y (inject_Z (10 ^ 21))) as [Hylt|Hyge].
  - rewrite !toFixed_below by done.
    remember (10 ^ Z.of_nat digits)%Z as sZ eqn:EsZ.
    apply Qmult_le_compat_r; [|apply Qlt_le_weak, Qinv_lt_0_compat; done].
    rewrite <- Zle_Qle. apply Qfloor_resp_le.
    assert (x * inject_Z sZ <= y * inject_Z sZ)%Q
      by (apply Qmult_le_compat_r; lra).
    lra.
  - rewrite toFixed_below by done.
    rewrite (toFixed_above y) by (by rewrite Qabs_pos).
    apply Qle_trans with (inject_Z (10 ^ 21)); [|done].
    remember (10 ^ Z.of_nat digits)%Z as sZ eqn:EsZ.
    remember (10 ^ 21)%Z as K eqn:EK.
    apply Qle_shift_div_r; [done|].
    rewrite <- inject_Z_mult, <- Zle_Qle.
    apply Z.lt_succ_r. rewrite Zlt_Qlt.
    eapply Qle_lt_trans; [apply Qfloor_le|].
    unfold Z.succ. rewrite inject_Z_plus, inject_Z_mult.
    assert (x * inject_Z sZ < inject_Z K * inject_Z sZ)%Q
      by (apply Qmult_lt_compat_r; done).
    change (inject_Z 1) with 1%Q.
    revert H. generalize (x * inject_Z sZ)%Q (inject_Z K * inject_Z sZ)%Q.
    intros a b Hab. lra.
  - lra.
  - rewrite !toFixed_above by (by rewrite Qabs_pos). done.
Qed.

(** ** confidenceFromPct *)

Lemma Math_min_spec (a b : Q) :
  (Math_min a b <= a /\ Math_min a b <= b /\
   (Math_min a b == a \/ Math_min a b == b))%Q.
Proof.
  unfold Math_min. destruct (Qle_bool a b) eqn:E.
  - apply Qle_bool_iff in E. repeat split; lra.
  - apply Qle_bool_false in E. repeat split; lra.
Qed.

Lemma Math_max_spec (a b : Q) :
  (a <= Math_max a b /\ b <= Math_max a b /\
   (Math_max a b == a \/ Math_max a b == b))%Q.
Proof.
  unfold Math_max. destruct (Qle_bool a b) eqn:E.
  - apply Qle_bool_iff in E. repeat split; lra.
  - apply Qle_bool_false in E. repeat split; lra.
Qed.

(** The range and the growth of the confidence. *)
Lemma confidenceFromPct_facts (value max : Q) :
  (0 < max)%Q ->
  ((4 # 10) <= confidenceFromPct value max <= 1)%Q /\
  ((value <= 0)%Q -> (confidenceFromPct value max == 4 # 10)%Q) /\
  ((max <= value)%Q -> (confidenceFromPct value max == 1)%Q) /\
  (forall value', (value <= value')%Q ->
     (confidenceFromPct value max <= confidenceFromPct value' max)%Q).
Proof.
  intros Hmax.
  assert (forall v,
    (0 <= Math_max 0 (Math_min (v / max) 1) <= 1)%Q) as Hb.
  { intros v. destruct (Math_max_spec 0 (Math_min (v / max) 1))
      as (H1 & H2 & [H3|H3]); destruct (Math_min_spec (v / max) 1)
      as (H4 & H5 & _); split; lra. }
  assert (toFixed (4 # 10) 2 == 4 # 10)%Q as Hlo by done.
  assert (toFixed 1 2 == 1)%Q as Hhi by done.
  assert (forall b, (0 <= b <= 1)%Q ->
    ((4 # 10) <= toFixed ((4 # 10) + b * (6 # 10)) 2 <= 1)%Q) as Hround.
  { intros b [Hb0 Hb1]. split.
    - rewrite <- Hlo at 1. apply toFixed_mono; lra.
    - rewrite <- Hhi. apply toFixed_mono; lra. }
  unfold confidenceFromPct. split; [apply Hround, Hb|]. split; [|split].
  - intros Hv.
    assert (value / max <= 0)%Q as Hq.
    { apply Qle_shift_div_r; [done|]. lra. }
    destruct (Math_max_spec 0 (Math_min (value / max) 1))
      as (H1 & H2 & [H3|H3]); destruct (Math_min_spec (value / max) 1)
      as (H4 & H5 & _).
    + apply Qle_antisym; [|apply Hround, Hb].
      rewrite <- Hlo at 2. apply toFixed_mono; lra.
    + apply Qle_antisym; [|apply Hround, Hb].
      rewrite <- Hlo at 2. apply toFixed_mono; lra.
  - intros Hv.
    assert (1 <= value / max)%Q as Hq.
    { apply Qle_shift_div_l; [done|]. lra. }
    destruct (Math_max_spec 0 (Math_min (value / max) 1))
      as (H1 & H2 & _); destruct (Math_min_spec (value / max) 1)
      as (H4 & H5 & [H6|H6]); apply Qle_antisym;
      try (apply Hround, Hb); rewrite <- Hhi at 1; apply toFixed_mono; lra.
  - intros value' Hvv. apply toFixed_mono.
    { destruct (Hb value). lra. }
    assert (value / max <= value' / max)%Q as Hq.
    { apply Qmult_le_compat_r; [done|].
      apply Qlt_le_weak, Qinv_lt_0_compat; done. }
    destruct (Math_max_spec 0 (Math_min (value / max) 1))
      as (H1 & H2 & [H3|H3]); destruct (Math_min_spec (value / max) 1)
      as (H4 & H5 & [H6|H6]);
    destruct (Math_max_spec 0 (Math_min (value' / max) 1))
      as (H1' & H2' & _); destruct (Math_min_spec (value' / max) 1)
      as (H4' & H5' & [H6'|H6']); lra.
Qed.

(** X5.  For a positive [max] the confidence lies between 0.4 and 1; it is
    0.4 for a value that is not positive and 1 for a value of at least
    [max], and it does not decrease when the value grows. *)
Theorem confidenceFromPct_range (value max : Q) :
  (0 < max)%Q ->
  ((4 # 10) <= confidenceFromPct value max <= 1)%Q /\
  ((value <= 0)%Q -> (confidenceFromPct value max == 4 # 10)%Q) /\
  ((max <= value)%Q -> (confidenceFromPct value max == 1)%Q) /\
  (forall value', (value <= value')%Q ->
     (confidenceFromPct value max <= confidenceFromPct value' max)%Q).
Proof. apply confidenceFromPct_facts. Qed.

Lemma confidenceFromPct_range_witness :
  ((4 # 10) <= confidenceFromPct 10 30 <= 1)%Q.
Proof.
  apply (proj1 (confidenceFromPct_range 10 30 eq_refl)).
Defined.

(** ** Recommendations *)

Lemma filter_all {A} (P : A -> Prop) `{!forall x, Decision (P x)} (l : list A) :
  Forall P l -> filter P l = l.
Proof.
  induction 1 as [|x l Hx _ IH]; [done|].
  by rewrite filter_cons, decide_True, IH.
Qed.

Lemma filter_none {A} (P : A -> Prop) `{!forall x, Decision (P x)} (l : list A) :
  Forall (fun x => ~ P x) l -> filter P l = [].
Proof.
  induction 1 as [|x l Hx _ IH]; [done|].
  by rewrite filter_cons, decide_False, IH.
Qed.

(** X6.  [splitRecommendations] puts in each list the items of its tier,
    in their order, and nothing else: an item of any other tier is in
    neither list.  A list of quick wins followed by deep refactors is
    split back into the two. *)
Theorem splitRecommendations_partition (items : list Recommendation) :
  (forall item,
     item ∈ quickWins (splitRecommendations items) <->
     item ∈ items /\ tier item = "quick_win") /\
  (forall item,
     item ∈ deepRefactors (splitRecommendations items) <->
     item ∈ items /\ tier item = "deep_refactor") /\
  quickWins (splitRecommendations items) `sublist_of` items /\
  deepRefactors (splitRecommendations items) `sublist_of` items /\
  (forall quick deep,
     items = (quick ++ deep)%list ->
     Forall (fun item => tier item = "quick_win") quick ->
     Forall (fun item => tier item = "deep_refactor") deep ->
     splitRecommendations items
     = {| quickWins := quick; deepRefactors := deep |}).
Proof.
  unfold splitRecommendations. simpl.
  split; [|split; [|split; [|split]]].
  - intros item. rewrite list_elem_of_filter. tauto.
  - intros item. rewrite list_elem_of_filter. tauto.
  - apply sublist_filter.
  - apply sublist_filter.
  - intros quick deep -> Hq Hd. rewrite !filter_app. f_equal.
    + rewrite (filter_all _ quick Hq), filter_none; [by rewrite app_nil_r|].
      eapply Forall_impl; [exact Hd|]. intros item ->. done.
    + rewrite (filter_all _ deep Hd), filter_none; [done|].
      eapply Forall_impl; [exact Hq|]. intros item ->. done.
Qed.

Section Recommend.
Variable Number_toString : Q -> string.


End Recommend.

(** ** Exclusive time adds up to the observed time *)

Lemma sum_self_alter_observe w k m :
  sum_self (alter (observe w) k m) = sum_self m.
Proof.
  revert k; induction m as [|x m IH]; intros [|k]; simpl; try done.
  f_equal. apply IH.
Qed.

Lemma sum_self_observe_all w indices m :
  sum_self (observe_all w indices m) = sum_self m.
Proof.
  unfold observe_all. revert m; induction indices as [|k indices IH];
    intros m; simpl; [done|]. by rewrite IH, sum_self_alter_observe.
Qed.

Lemma sum_self_alter_self w k m :
  is_Some (m !! k) ->
  (sum_self (alter (observe_self w) k m) == sum_self m + w)%Q.
Proof.
  revert k; induction m as [|x m IH]; intros [|k] [y Hy]; simpl in *;
    try done.
  - ring.
  - pose proof (IH k (ex_intro _ y Hy)) as H. unfold alter in H.
    rewrite H. ring.
Qed.

Lemma self_nonneg_observe_all w indices m :
  self_nonneg m -> self_nonneg (observe_all w indices m).
Proof.
  unfold observe_all. revert m; induction indices as [|k indices IH];
    intros m Hm; simpl; [done|]. apply IH. by apply Forall_alter.
Qed.

(** What one iteration of the loop over the samples does to the sum and
    to the signs. *)
Lemma sampled_sample_account frameCount profileIndex weights sampleIndex
    sampleStack m observed m' observed' :
  sampled_sample frameCount profileIndex weights sampleIndex sampleStack
    (m, observed) = Ok (m', observed') ->
  (sum_self m' - observed' == sum_self m - observed)%Q /\
  (self_nonneg m -> self_nonneg m').
Proof.
  unfold sampled_sample.
  destruct sampleStack as [| | | | | | |stack|];
    try (intros [= <- <-]; by split).
  destruct stack as [|v0 stack0]; [intros [= <- <-]; by split|].
  intros (w & Hw & H)%bind_Ok.
  destruct (Qle_bool w 0) eqn:Hpos; [injection H as <- <-; by split|].
  apply Qle_bool_false in Hpos.
  apply bind_Ok in H as (m1 & Hloop & H).
  apply sampled_frames_Ok in Hloop as (indices & _ & ->).
  apply bind_Ok in H as (top & _ & H).
  destruct (_ !! top) as [metric|] eqn:Etop; [|done]. injection H as <- <-.
  split.
  - rewrite sum_self_alter_self by eauto. rewrite sum_self_observe_all. ring.
  - intros Hm. apply Forall_alter; [by apply self_nonneg_observe_all|].
    intros x _ Hx. simpl. lra.
Qed.

Lemma evented_window_account profileIndex events i at_ stack m observed
    m' observed' :
  evented_window profileIndex events i at_ stack m observed
    = Ok (m', observed') ->
  (sum_self m' - observed' == sum_self m - observed)%Q /\
  (self_nonneg m -> self_nonneg m').
Proof.
  unfold evented_window.
  destruct (i <? length events - 1)%nat; [|intros [= <- <-]; by split].
  intros (next & _ & H)%bind_Ok. apply bind_Ok in H as (nextAt & _ & H).
  destruct (Qltb (nextAt - at_) 0); [done|].
  destruct (Qltb 0 (nextAt - at_)) eqn:Hpos; simpl in H;
    [|injection H as <- <-; by split].
  destruct (0 <? length stack)%nat; [|injection H as <- <-; by split].
  apply Qltb_true in Hpos.
  apply bind_Ok in H as (m1 & ->%evented_frames_Ok & H).
  destruct (last stack) as [top|]; [|done].
  destruct (_ !! top) as [metric|] eqn:Etop; [|done]. injection H as <- <-.
  split.
  - rewrite sum_self_alter_self by eauto. rewrite sum_self_observe_all. ring.
  - intros Hm. apply Forall_alter; [by apply self_nonneg_observe_all|].
    intros x _ Hx. simpl. lra.
Qed.

Section Account.
Variable Number_toString : Q -> string.

Lemma evented_event_account frameCount profileIndex events i entry
    stack m observed stack' m' observed' :
  evented_event Number_toString frameCount profileIndex events i entry
    (stack, m, observed) = Ok (stack', m', observed') ->
  (sum_self m' - observed' == sum_self m - observed)%Q /\
  (self_nonneg m -> self_nonneg m').
Proof.
  unfold evented_event.
  intros (event & _ & H)%bind_Ok. apply bind_Ok in H as (eventType & _ & H).
  apply bind_Ok in H as (frame & _ & H). apply bind_Ok in H as (at_ & _ & H).
  apply bind_Ok in H as ([m1 o1] & Hwin & H).
  assert (m' = m1 /\ observed' = o1) as [-> ->].
  { destruct (String.eqb eventType "O"); [by injection H as _ <- <-|].
    destruct (String.eqb eventType "C"); [|done].
    destruct (decide _); [by injection H as _ <- <-| done]. }
  by apply evented_window_account in Hwin.
Qed.

(** The two aggregators, from a table [m]: the sum grows by what they
    report as observed. *)
Lemma parseSampledProfile_account profile frameCount m profileIndex
    m' observed :
  parseSampledProfile profile frameCount m profileIndex = Ok (m', observed) ->
  (sum_self m' == sum_self m + observed)%Q /\
  (self_nonneg m -> self_nonneg m').
Proof.
  unfold parseSampledProfile. destruct (get profile "samples"); try done.
  intros H.
  apply (for_loop_invariant
           (fun s => (sum_self s.1 - s.2 == sum_self m - 0)%Q /\
                     (self_nonneg m -> self_nonneg s.1))) in H.
  - simpl in H. destruct H as [H1 H2]. split; [lra | done].
  - intros j x [m1 o1] [m2 o2] [H1 H2] [H3 H4]%sampled_sample_account.
    simpl in *. split; [lra | auto].
  - simpl. split; [lra | done].
Qed.

Lemma parseEventedProfile_account profile frameCount m profileIndex
    m' observed :
  parseEventedProfile Number_toString profile frameCount m profileIndex
    = Ok (m', observed) ->
  (sum_self m' == sum_self m + observed)%Q /\
  (self_nonneg m -> self_nonneg m').
Proof.
  unfold parseEventedProfile.
  destruct (get profile "events") as [| | | | | | |events|]; try done.
  destruct events as [|e0 [|e1 events]]; try done.
  intros ([[stack m1] o1] & H & Hend)%bind_Ok.
  destruct (0 <? length stack)%nat; [done|]. injection Hend as <- <-.
  apply (for_loop_invariant
           (fun s => (sum_self s.1.2 - s.2 == sum_self m - 0)%Q /\
                     (self_nonneg m -> self_nonneg s.1.2))) in H.
  - simpl in H. destruct H as [H1 H2]. split; [lra | done].
  - intros j x [[st1 m2] o2] [[st2 m3] o3] [H1 H2]
      [H3 H4]%evented_event_account.
    simpl in *. split; [lra | auto].
  - simpl. split; [lra | done].
Qed.

Lemma profile_entry_account frameCount :
  keeps (fun s => (sum_self s.1 == s.2)%Q /\ self_nonneg s.1)
    (profile_entry Number_toString frameCount).
Proof.
  apply keeps_intro. intros profileIndex entry [m t] [m' t']. simpl.
  intros [Hsum Hm]. unfold profile_entry.
  intros (profile & _ & H)%bind_Ok. apply bind_Ok in H as (type & _ & H).
  destruct (String.eqb type "sampled").
  { apply bind_Ok in H as ([m1 o1] & [H1 H2]%parseSampledProfile_account
                           & [= <- <-]).
    split; [lra | auto]. }
  destruct (String.eqb type "evented"); [|done].
  apply bind_Ok in H as ([m1 o1] & [H1 H2]%parseEventedProfile_account
                         & [= <- <-]).
  split; [lra | auto].
Qed.

Lemma frame_entry_account frames i m0 m :
  (sum_self m0 == 0)%Q /\ self_nonneg m0 ->
  for_loop (frame_entry Number_toString) i frames m0 = Ok m ->
  (sum_self m == 0)%Q /\ self_nonneg m.
Proof.
  apply (for_loop_invariant
           (fun m => (sum_self m == 0)%Q /\ self_nonneg m)).
  intros idx entry m1 m2 [Hsum Hm1]. unfold frame_entry.
  intros (frame & _ & H)%bind_Ok. apply bind_Ok in H as (n & _ & H).
  apply bind_Ok in H as (f & _ & [= <-]). split.
  - clear Hm1. induction m1 as [|x m1 IH]; simpl in *; [done|].
    assert (sum_self (m1 ++ [{| name := n; file := f; selfTime := 0;
                                totalTime := 0; sampleCount := 0;
                                hotspotScore := 0 |}])%list
            == sum_self m1 + 0)%Q as ->; [|lra].
    clear. induction m1 as [|y m1 IH]; simpl; [done|]. rewrite IH. ring.
  - apply Forall_app. split; [done|]. by repeat constructor.
Qed.

Lemma accumulate_account payload count m totalObserved :
  accumulate Number_toString payload = Ok (count, m, totalObserved) ->
  (sum_self m == totalObserved)%Q /\ self_nonneg m.
Proof.
  intros (root & shared & frames & entries & m0 & _ & _ & _ & _ & _ & _
          & Hm0 & H & _)%accumulate_Ok.
  apply frame_entry_account in Hm0; [|by split; [|constructor]].
  by apply (keeps_all _ _ _ _ _ _ (profile_entry_account _)) in H.
Qed.

End Account.

Lemma sum_self_positive m :
  (0 < sum_self m)%Q -> Exists (fun metric => (0 < selfTime metric)%Q) m.
Proof.
  induction m as [|x m IH]; simpl; [by intros ?%Qlt_irrefl|].
  intros Hsum. destruct (Qlt_le_dec 0 (selfTime x)) as [Hx|Hx].
  - by left.
  - right. apply IH. lra.
Qed.

(** The hotspots that are listed, and the frames they come from. *)
Lemma rank_hotspots_elem m totalObserved h :
  h ∈ rank_hotspots m totalObserved ->
  exists i metric,
    metric ∈ m /\ observed_frame metric = true /\
    h = with_rank i (to_hotspot totalObserved metric).
Proof.
  unfold rank_hotspots. intros (i & Hi)%list_elem_of_lookup_1.
  rewrite list_lookup_imap in Hi.
  destruct (_ !! i) as [h0|] eqn:E; [|done]. injection Hi as <-.
  apply list_elem_of_lookup_2 in E. rewrite Array_sort_perm in E.
  apply list_elem_of_fmap in E as (metric & -> & Hin).
  apply list_elem_of_filter in Hin as [Hobs Hin].
  exists i, metric. repeat split; [done|]. by apply Is_true_true.
Qed.

(** X9.  A successful result lists at least one hotspot and at most one
    per frame of the table, and counts the profile entries of the
    document. *)
Theorem hotspots_nonempty (Number_toString : Q -> string) (payload : value)
    (summary : ParsedProfileSummary) :
  parseSpeedscopeProfile Number_toString payload = Ok summary ->
  hotspots summary <> [] /\
  exists root shared frames profileEntries,
    payload = Obj root /\ get root "shared" = Obj shared /\
    get shared "frames" = Arr frames /\
    get root "profiles" = Arr profileEntries /\
    length (hotspots summary) <= length frames /\
    profileCount summary = length profileEntries.
Proof.
  unfold parseSpeedscopeProfile.
  intros ([[count m] t] & Hacc & H)%bind_Ok.
  destruct (Qle_bool t 0) eqn:Et; [done|]. injection H as <-. simpl.
  apply Qle_bool_false in Et.
  assert (length (rank_hotspots m t) = length (filter observed_frame m))
    as Hlen.
  { unfold rank_hotspots. by rewrite length_imap, Array_sort_perm, length_map. }
  split.
  - destruct (accumulate_account _ _ _ _ _ Hacc) as [Hsum _].
    rewrite <- Hsum in Et.
    apply sum_self_positive, Exists_exists in Et as (metric & Hin & Hpos).
    assert (metric ∈ filter observed_frame m) as Hkept.
    { apply list_elem_of_filter. split; [|done]. apply Is_true_true.
      unfold observed_frame. apply orb_true_iff. right.
      by apply Qltb_true. }
    intros Hnil. rewrite Hnil in Hlen. simpl in Hlen.
    destruct (filter observed_frame m); [|done].
    by apply not_elem_of_nil in Hkept.
  - apply accumulate_Ok in Hacc
      as (root & shared & frames & entries & m0 & -> & Hshared & Hframes
          & _ & Hentries & _ & Hm0 & Hloop & ->).
    exists root, shared, frames, entries. repeat split; try done.
    rewrite Hlen. etrans; [apply length_filter|].
    apply frame_entry_length in Hm0. simpl in Hm0. rewrite <- Hm0.
    apply Nat.eq_le_incl. revert Hloop.
    apply (for_loop_invariant (fun s => length s.1 = length m0)); [|done].
    intros j x s1 s2 Hs1 Hl%profile_entry_length. congruence.
Qed.

Lemma hotspots_nonempty_witness :
  exists summary,
    parseSpeedscopeProfile decimal recursive_document = Ok summary /\
    hotspots summary <> [].
Proof.
  destruct (parseSpeedscopeProfile decimal recursive_document)
    as [summary|e] eqn:E; [|vm_compute in E; discriminate].
  exists summary. split; [reflexivity|].
  exact (proj1 (hotspots_nonempty decimal recursive_document summary E)).
Defined.

(** ** asIndex *)

(** X11.  [asIndex] returns [k] exactly for a finite number whose value
    is the integer [k] with [k < max]; for every other value it throws
    the error with the message it was given. *)
Theorem asIndex_spec (v : value) (max : nat) (msg : message) :
  (forall k,
     asIndex v max msg = Ok k <->
     exists q, v = Num q /\ (q == inject_Z (Z.of_nat k))%Q /\ k < max) /\
  (forall e, asIndex v max msg = Throw e -> e = SpeedscopeParseError msg).
Proof.
  split.
  - intros k. rewrite asIndex_index_of. split.
    + destruct (index_of v max) as [k'|] eqn:E; [|done]. intros [= ->].
      pose proof (index_of_lt _ _ _ E) as Hlt.
      unfold index_of in E. destruct v as [| | |q| | | | |]; try done.
      destruct (negb _ || _ || _) eqn:Eb; [done|]. injection E as <-.
      apply orb_false_iff in Eb as [Eb _].
      apply orb_false_iff in Eb as [Eint Eneg].
      apply negb_false_iff, Qeq_bool_iff in Eint. apply Qltb_false in Eneg.
      exists q. split; [done|]. split; [|done].
      rewrite Z2Nat.id; [done|].
      change 0%Z with (Qfloor 0). by apply Qfloor_resp_le.
    + intros (q & -> & Hq & Hlt). unfold index_of.
      assert (Qfloor q = Z.of_nat k) as Hfloor.
      { rewrite (Qfloor_comp _ _ Hq). apply Qfloor_Z. }
      assert (Number_isInteger q = true) as ->.
      { unfold Number_isInteger. apply Qeq_bool_iff. by rewrite Hfloor. }
      assert (Qltb q 0 = false) as ->.
      { apply Qltb_false. rewrite Hq. change 0%Q with (inject_Z 0).
        rewrite <- Zle_Qle. lia. }
      assert (Qle_bool (inject_Z (Z.of_nat max)) q = false) as ->.
      { apply Qle_bool_false. rewrite Hq, <- Zlt_Qlt. lia. }
      simpl. by rewrite Hfloor, Nat2Z.id.
  - intros e. rewrite asIndex_index_of.
    destruct (index_of v max); [done | by intros [= <-]].
Qed.

(** ** Validation of the document *)

Section Validation.
Variable Number_toString : Q -> string.

(** X12.  The checks on the document, in the order the parser makes them:
    the payload must be an object, [shared] an object, [shared.frames] a
    non-empty array, [profiles] a non-empty array, and only then each
    frame entry an object. *)
Theorem document_validation (payload : value) :
  ((forall root, payload <> Obj root) ->
   parseSpeedscopeProfile Number_toString payload
   = Throw (SpeedscopeParseError ProfileMustBeObject)) /\
  (forall root,
     payload = Obj root ->
     ((forall shared, get root "shared" <> Obj shared) ->
      parseSpeedscopeProfile Number_toString payload
      = Throw (SpeedscopeParseError MissingSharedFrames)) /\
     (forall shared,
        get root "shared" = Obj shared ->
        ((forall f frames, get shared "frames" <> Arr (f :: frames)) ->
         parseSpeedscopeProfile Number_toString payload
         = Throw (SpeedscopeParseError FramesMustBeNonEmpty)) /\
        (forall f frames,
           get shared "frames" = Arr (f :: frames) ->
           ((forall p profiles,
               get root "profiles" <> Arr (p :: profiles)) ->
            parseSpeedscopeProfile Number_toString payload
            = Throw (SpeedscopeParseError NoProfileEntry)) /\
           (forall p profiles idx entry m,
              get root "profiles" = Arr (p :: profiles) ->
              (f :: frames) !! idx = Some entry ->
              (forall frame, entry <> Obj frame) ->
              for_loop (frame_entry Number_toString) 0
                (take idx (f :: frames)) [] = Ok m ->
              parseSpeedscopeProfile Number_toString payload
              = Throw (SpeedscopeParseError (InvalidFrameEntry idx)))))).
Proof.
  unfold parseSpeedscopeProfile, accumulate. split.
  { intros Hnot. destruct payload; try done. by destruct (Hnot properties). }
  intros root ->. cbn [asRecord bind]. split.
  { intros Hnot. destruct (get root "shared"); try done.
    by destruct (Hnot properties). }
  intros shared ->. cbn [asRecord bind]. split.
  { intros Hnot.
    destruct (get shared "frames") as [| | | | | | |[|f frames]|]; try done.
    by destruct (Hnot f frames). }
  intros f frames ->. split.
  { intros Hnot.
    destruct (get root "profiles") as [| | | | | | |[|p ps]|]; try done.
    by destruct (Hnot p ps). }
  intros p profiles idx entry m -> Hentry Hnot Hpre.
  rewrite (for_loop_throw_at _ _ _ _ _ _
             (SpeedscopeParseError (InvalidFrameEntry idx)) Hentry Hpre);
    [done|].
  unfold frame_entry. destruct entry; try done. by destruct (Hnot properties).
Qed.

End Validation.

Lemma document_validation_witness :
  parseSpeedscopeProfile decimal (Obj [("shared", Obj [])])
  = Throw (SpeedscopeParseError FramesMustBeNonEmpty).
Proof.
  apply (proj1 (proj2 (proj2 (document_validation decimal
           (Obj [("shared", Obj [])])) [("shared", Obj [])] eq_refl) []
           eq_refl)).
  intros f frames. discriminate.
Defined.

(** ** Which failures are the parser's own *)

Lemma for_loop_Throw_elem {A St} (body : nat -> A -> St -> result St)
    i a s e :
  for_loop body i a s = Throw e ->
  exists j x s1, x ∈ a /\ body j x s1 = Throw e.
Proof.
  revert i s; induction a as [|x a IH]; intros i s; simpl; [done|].
  intros [H|(s1 & _ & H)]%bind_Throw.
  - exists i, x, s. split; [by apply elem_of_cons; left | done].
  - apply IH in H as (j & y & s2 & Hin & H).
    exists j, y, s2. split; [by apply elem_of_cons; right | done].
Qed.

Lemma hides_get properties k :
  hides_toString (Obj properties) = false ->
  hides_toString (get properties k) = false.
Proof.
  simpl. intros [_ H]%orb_false_iff.
  induction properties as [|[k' v] properties IH]; simpl in *; [done|].
  apply orb_false_iff in H as [Hv H].
  destruct (String.eqb k' k); [done | by apply IH].
Qed.

Lemma hides_elem elements x :
  hides_toString (Arr elements) = false -> x ∈ elements ->
  hides_toString x = false.
Proof.
  simpl. intros H Hin.
  induction elements as [|y elements IH]; [by apply not_elem_of_nil in Hin|].
  simpl in H. apply orb_false_iff in H as [Hy H].
  apply elem_of_cons in Hin as [->|Hin]; [done | by apply IH].
Qed.

Lemma hides_nullish v d :
  hides_toString v = false -> hides_toString d = false ->
  hides_toString (nullish v d) = false.
Proof. by destruct v. Qed.

Section Failures.
Variable Number_toString : Q -> string.

(** [String(v)] returns when no object in [v] hides [toString]. *)
Lemma String_plain v :
  hides_toString v = false -> exists s, String_ Number_toString v = Ok s.
Proof.
  induction v as [| |[]| | |[]| |elements IH|properties _]
    using value_ind_deep; simpl; eauto.
  - intros H. induction IH as [|x l Hx _ IHl]; [eauto|].
    simpl in H. apply orb_false_iff in H as [Hhx Hl].
    assert (exists s,
      match x with
      | Undefined | Null => Ok ""
      | _ => String_ Number_toString x
      end = Ok s) as [s Hs].
    { destruct x; eauto. }
    destruct l as [|y l]; [eauto|].
    rewrite Hs. simpl. destruct (IHl Hl) as [r ->]. simpl. eauto.
  - intros [-> _]%orb_false_iff. eauto.
Qed.

Lemma String_property properties k d :
  hides_toString (Obj properties) = false ->
  exists s, String_ Number_toString (nullish (get properties k) (Str d))
            = Ok s.
Proof.
  intros H. apply String_plain, hides_nullish; [by apply hides_get | done].
Qed.

Lemma sampled_parse_error profile frameCount m profileIndex e :
  parseSampledProfile profile frameCount m profileIndex = Throw e ->
  isSpeedscopeParseError e = true.
Proof.
  unfold parseSampledProfile, sampled_sample, sample_weight. intros H.
  raised. unfold sampled_frame in H. raised.
Qed.

Lemma evented_event_parse_error frameCount profileIndex events i entry s e :
  hides_toString entry = false ->
  evented_event Number_toString frameCount profileIndex events i entry s
    = Throw e ->
  isSpeedscopeParseError e = true.
Proof.
  intros Hplain. destruct s as [[stack m] o]. unfold evented_event.
  destruct entry as [| | | | | | | |event]; try by intros [= <-].
  cbn [asRecord bind].
  destruct (String_property event "type" "" Hplain) as [type ->].
  cbn [bind]. unfold evented_window, evented_frame. intros H. raised.
Qed.

Lemma profile_entry_parse_error frameCount profileIndex entry s e :
  hides_toString entry = false ->
  profile_entry Number_toString frameCount profileIndex entry s = Throw e ->
  isSpeedscopeParseError e = true.
Proof.
  intros Hplain. destruct s as [m t]. unfold profile_entry.
  destruct entry as [| | | | | | | |profile]; try by intros [= <-].
  cbn [asRecord bind].
  destruct (String_property profile "type" "" Hplain) as [type ->].
  cbn [bind]. destruct (String.eqb type "sampled").
  { intros [H|(? & _ & H)]%bind_Throw; [by eapply sampled_parse_error|].
    by destruct x. }
  destruct (String.eqb type "evented"); [|by intros [= <-]].
  intros [H|(? & _ & H)]%bind_Throw; [|by destruct x].
  unfold parseEventedProfile in H.
  destruct (get profile "events") as [| | | | | | |events|] eqn:Eevents;
    try by injection H as <-.
  destruct events as [|e0 [|e1 events]]; try by injection H as <-.
  apply bind_Throw in H as [H|([[stack m1] o1] & _ & H)].
  - apply for_loop_Throw_elem in H as (j & x & s1 & Hin & H).
    eapply evented_event_parse_error; [|exact H].
    eapply hides_elem; [|exact Hin]. rewrite <- Eevents.
    by apply hides_get.
  - destruct (0 <? length stack)%nat; [by injection H as <- | done].
Qed.

Lemma frame_entry_parse_error idx entry m e :
  hides_toString entry = false ->
  frame_entry Number_toString idx entry m = Throw e ->
  isSpeedscopeParseError e = true.
Proof.
  intros Hplain. unfold frame_entry.
  destruct entry as [| | | | | | | |frame]; try by intros [= <-].
  cbn [asRecord bind].
  destruct (String_property frame "name" ("frame_" ++ pretty idx) Hplain)
    as [n ->].
  destruct (String_property frame "file" "unknown" Hplain) as [f ->].
  done.
Qed.

End Failures.

(** X13.  A failure of the parser is an error of its own class, which the
    handler answers with status 400, unless some object of the document
    has an own property [toString]; a frame whose [name] is such an object
    makes [String] throw a [TypeError], which the handler answers with
    status 500. *)
Theorem failures_are_parse_errors (Number_toString : Q -> string) :
  (forall payload e,
     hides_toString payload = false ->
     parseSpeedscopeProfile Number_toString payload = Throw e ->
     isSpeedscopeParseError e = true /\ analyze_error_status e = 400) /\
  (forall root shared frame frames p profiles properties,
     get root "shared" = Obj shared ->
     get shared "frames" = Arr (Obj frame :: frames) ->
     get root "profiles" = Arr (p :: profiles) ->
     get frame "name" = Obj properties ->
     existsb (fun p => String.eqb (fst p) "toString") properties = true ->
     parseSpeedscopeProfile Number_toString (Obj root) = Throw TypeError /\
     analyze_error_status TypeError = 500).
Proof.
  split.
  - intros payload e Hplain H.
    assert (isSpeedscopeParseError e = true) as He.
    2: { split; [done|]. unfold analyze_error_status. by rewrite He. }
    unfold parseSpeedscopeProfile in H.
    apply bind_Throw in H as [H|([[count m] t] & _ & H)].
    2: { destruct (Qle_bool t 0); [by injection H as <- | done]. }
    unfold accumulate in H.
    destruct payload as [| | | | | | | |root]; try by injection H as <-.
    cbn [asRecord bind] in H.
    pose proof (hides_get root "shared" Hplain) as Hshared.
    destruct (get root "shared") as [| | | | | | | |shared];
      try by injection H as <-.
    cbn [asRecord bind] in H.
    pose proof (hides_get shared "frames" Hshared) as Hframes.
    destruct (get shared "frames") as [| | | | | | |[|f frames]|];
      try by injection H as <-.
    pose proof (hides_get root "profiles" Hplain) as Hprofiles.
    destruct (get root "profiles") as [| | | | | | |[|p profiles]|];
      try by injection H as <-.
    apply bind_Throw in H as [H|(m0 & _ & H)].
    + apply for_loop_Throw_elem in H as (j & x & s1 & Hin & H).
      eapply frame_entry_parse_error; [|exact H].
      exact (hides_elem _ _ Hframes Hin).
    + apply bind_Throw in H as [H|([m1 t1] & _ & H)]; [|done].
      apply for_loop_Throw_elem in H as (j & x & s1 & Hin & H).
      eapply profile_entry_parse_error; [|exact H].
      exact (hides_elem _ _ Hprofiles Hin).
  - intros root shared frame frames p profiles properties Hshared Hframes
      Hprofiles Hname Hhides. split; [|done].
    unfold parseSpeedscopeProfile, accumulate. cbn [asRecord bind].
    rewrite Hshared. cbn [asRecord bind]. rewrite Hframes, Hprofiles.
    cbn [for_loop]. unfold frame_entry at 1. cbn [asRecord bind].
    rewrite Hname. cbn [nullish String_]. by rewrite Hhides.
Qed.

Lemma failures_are_parse_errors_witness :
  hides_toString close_first_document = false /\
  analyze_error_status (SpeedscopeParseError (NonDecreasingTimestamps 0))
  = 400.
Proof.
  split; [reflexivity|].
  exact (proj2 (proj1 (failures_are_parse_errors decimal)
                  close_first_document _ eq_refl close_first_result)).
Defined.

(** ** Loops, iteration by iteration *)

(** A property of the loop's variables that depends on how many
    iterations have run. *)
Lemma for_loop_indexed {A St} (P : nat -> St -> Prop)
    (body : nat -> A -> St -> result St) a i s s' :
  (forall j x s1 s2,
     a !! j = Some x -> P j s1 -> body (i + j) x s1 = Ok s2 -> P (S j) s2) ->
  P 0 s -> for_loop body i a s = Ok s' -> P (length a) s'.
Proof.
  revert P i s; induction a as [|x a IH]; intros P i s Hbody Hs; simpl.
  - by intros [= <-].
  - intros (s1 & H1 & H2)%bind_Ok.
    apply (IH (fun j => P (S j)) (S i) s1); [| |done].
    + intros j y s2 s3 Hy Hs2 Hs3. apply (Hbody (S j) y s2 s3); [done..|].
      by replace (i + S j) with (S i + j) by lia.
    + apply (Hbody 0 x s s1); [done..|]. by rewrite Nat.add_0_r.
Qed.

(** ** Opens and closes *)

Section Balance.
Variable Number_toString : Q -> string.

Lemma evented_event_depth frameCount profileIndex events i entry
    stack m observed stack' m' observed' :
  evented_event Number_toString frameCount profileIndex events i entry
    (stack, m, observed) = Ok (stack', m', observed') ->
  (event_type_is Number_toString "O" entry = true /\
   event_type_is Number_toString "C" entry = false /\
   length stack' = S (length stack)) \/
  (event_type_is Number_toString "C" entry = true /\
   event_type_is Number_toString "O" entry = false /\
   S (length stack') = length stack).
Proof.
  unfold evented_event, event_type_is.
  intros (event & Hevent & H)%bind_Ok.
  destruct entry; try done. injection Hevent as ->.
  apply bind_Ok in H as (eventType & -> & H).
  apply bind_Ok in H as (frame & _ & H).
  apply bind_Ok in H as (at_ & _ & H).
  apply bind_Ok in H as ([m1 o1] & _ & H).
  destruct (String.eqb eventType "O") eqn:EO.
  { injection H as <- _ _. left. apply String.eqb_eq in EO as ->.
    split; [done|]. split; [done|]. rewrite length_app. simpl. lia. }
  destruct (String.eqb eventType "C") eqn:EC; [|done].
  destruct (decide _) as [Hlast|]; [|done]. injection H as <- _ _.
  right. split; [done|]. split; [done|].
  apply last_Some in Hlast as [stack0 ->].
  rewrite removelast_last, length_app. simpl. lia.
Qed.

Lemma evented_loop_depth frameCount profileIndex events a i
    stack m observed stack' m' observed' :
  for_loop (evented_event Number_toString frameCount profileIndex events)
    i a (stack, m, observed) = Ok (stack', m', observed') ->
  length stack' + count_events Number_toString "C" a
  = length stack + count_events Number_toString "O" a /\
  length a = count_events Number_toString "O" a
             + count_events Number_toString "C" a.
Proof.
  unfold count_events.
  revert i stack m observed; induction a as [|x a IH];
    intros i stack m observed; simpl.
  - intros [= <- _ _]. split; lia.
  - intros ([[stack1 m1] o1] & Hx & H)%bind_Ok.
    apply IH in H as [H1 H2]. rewrite !filter_cons.
    apply evented_event_depth in Hx as [(-> & -> & Hx)|(-> & -> & Hx)];
      repeat case_decide; try done; simpl; split; lia.
Qed.

(** X15.  An evented profile entry that goes through has as many events
    that open a frame as events that close one, and no other event; while
    it is read, the depth of the stack is the number of opens so far less
    the number of closes. *)
Theorem evented_balanced (profile : list (string * value))
    (frameCount : nat) (m : metrics) (profileIndex : nat)
    (events : list value) (m' : metrics) (observed : Q) :
  get profile "events" = Arr events ->
  parseEventedProfile Number_toString profile frameCount m profileIndex
    = Ok (m', observed) ->
  count_events Number_toString "O" events
  = count_events Number_toString "C" events /\
  length events = 2 * count_events Number_toString "O" events /\
  (forall k stack m1 o1,
     for_loop (evented_event Number_toString frameCount profileIndex events)
       0 (take k events) ([], m, 0%Q) = Ok (stack, m1, o1) ->
     length stack + count_events Number_toString "C" (take k events)
     = count_events Number_toString "O" (take k events)).
Proof.
  intros Hevents. unfold parseEventedProfile. rewrite Hevents.
  destruct events as [|e0 [|e1 rest]]; try done.
  set (events := e0 :: e1 :: rest). clearbody events.
  intros ([[stack m1] o1] & H & Hend)%bind_Ok.
  destruct (0 <? length stack)%nat eqn:Estack; [done|].
  apply Nat.ltb_ge in Estack.
  apply evented_loop_depth in H as [H1 H2]. simpl in H1.
  split; [lia|]. split; [lia|].
  intros k stack2 m2 o2 Hk. by apply evented_loop_depth in Hk as [Hk _].
Qed.

End Balance.

Lemma evented_balanced_witness :
  count_events decimal "O" nested_events
  = count_events decimal "C" nested_events.
Proof.
  destruct (parseEventedProfile decimal nested_profile 2
              [untouched "main" "main.ts"; untouched "work" "work.ts"] 0)
    as [[m' observed]|e] eqn:E; [|vm_compute in E; discriminate].
  exact (proj1 (evented_balanced decimal nested_profile 2
                  [untouched "main" "main.ts"; untouched "work" "work.ts"] 0
                  nested_events m' observed eq_refl E)).
Defined.

(** ** The table of frames *)

(** The table the loop over the frames builds. *)
Lemma frame_entry_table (Number_toString : Q -> string) (frames : list value)
    (m : metrics) :
  for_loop (frame_entry Number_toString) 0 frames [] = Ok m ->
  length m = length frames /\
  forall idx metric,
    m !! idx = Some metric ->
    selfTime metric = 0%Q /\ totalTime metric = 0%Q /\
    sampleCount metric = 0 /\
    exists frame,
      frames !! idx = Some (Obj frame) /\
      String_ Number_toString
        (nullish (get frame "name") (Str ("frame_" ++ pretty idx)))
        = Ok (name metric) /\
      String_ Number_toString (nullish (get frame "file") (Str "unknown"))
        = Ok (file metric) /\
      (nullish (get frame "name") Null = Null ->
       name metric = "frame_" ++ pretty idx) /\
      (nullish (get frame "file") Null = Null -> file metric = "unknown").
Proof.
  intros H.
  apply (for_loop_indexed
    (fun j (m : metrics) =>
       length m = j /\
       forall idx metric,
         m !! idx = Some metric ->
         selfTime metric = 0%Q /\ totalTime metric = 0%Q /\
         sampleCount metric = 0 /\
         exists frame,
           frames !! idx = Some (Obj frame) /\
           String_ Number_toString
             (nullish (get frame "name") (Str ("frame_" ++ pretty idx)))
             = Ok (name metric) /\
           String_ Number_toString
             (nullish (get frame "file") (Str "unknown"))
             = Ok (file metric) /\
           (nullish (get frame "name") Null = Null ->
            name metric = "frame_" ++ pretty idx) /\
           (nullish (get frame "file") Null = Null ->
            file metric = "unknown"))) in H; [done| |done].
  intros j x m1 m2 Hx [Hlen Hm1]. unfold frame_entry. simpl.
  intros (frame & Hframe & H')%bind_Ok.
  destruct x; try done. injection Hframe as ->.
  apply bind_Ok in H' as (n & Hn & H'). apply bind_Ok in H' as (f & Hf & H').
  injection H' as <-. split; [rewrite length_app; simpl; lia|].
  intros idx metric Hidx.
  apply lookup_app_Some in Hidx as [Hidx|[Hge Hidx]]; [by apply Hm1|].
  rewrite Hlen in Hge, Hidx. destruct (idx - j) as [|d] eqn:Ed; [|done].
  assert (idx = j) as -> by lia. injection Hidx as <-. simpl.
  repeat split. exists frame. split; [done|]. split; [done|].
  split; [done|]. split.
  - intros Hnull. destruct (get frame "name"); try done;
      simpl in Hn; by injection Hn as <-.
  - intros Hnull. destruct (get frame "file"); try done;
      simpl in Hf; by injection Hf as <-.
Qed.

(** X4.  The loop over the frames builds a table with one entry per
    frame, at the frame's index, with all counters 0; the entry's name and
    file are the strings of the frame's [name] and [file], ["frame_<index>"]
    and ["unknown"] standing in for a missing or [null] one. *)
Theorem initial_table (Number_toString : Q -> string) (frames : list value)
    (m : metrics) :
  for_loop (frame_entry Number_toString) 0 frames [] = Ok m ->
  length m = length frames /\
  forall idx metric,
    m !! idx = Some metric ->
    selfTime metric = 0%Q /\ totalTime metric = 0%Q /\
    sampleCount metric = 0 /\
    exists frame,
      frames !! idx = Some (Obj frame) /\
      String_ Number_toString
        (nullish (get frame "name") (Str ("frame_" ++ pretty idx)))
        = Ok (name metric) /\
      String_ Number_toString (nullish (get frame "file") (Str "unknown"))
        = Ok (file metric) /\
      (nullish (get frame "name") Null = Null ->
       name metric = "frame_" ++ pretty idx) /\
      (nullish (get frame "file") Null = Null -> file metric = "unknown").
Proof. apply frame_entry_table. Qed.

Lemma initial_table_witness :
  exists m,
    for_loop (frame_entry decimal) 0 [Obj []; a_frame "work" "work.ts"] []
    = Ok m /\ length m = 2.
Proof.
  destruct (for_loop (frame_entry decimal) 0
              [Obj []; a_frame "work" "work.ts"] [])
    as [m|e] eqn:E; [|vm_compute in E; discriminate].
  exists m. split; [reflexivity|].
  exact (proj1 (initial_table decimal [Obj []; a_frame "work" "work.ts"]
                  m E)).
Defined.

(** ** Profile entries that are rejected *)

(** X1.  When the parse gets to a profile entry that is not an object, or
    whose type reads neither as "sampled" nor as "evented", or that is
    sampled without an array of samples, or evented without an array of
    at least two events, it fails with the error for that case, naming the
    entry's index. *)
Theorem profile_entry_failures (Number_toString : Q -> string)
    (payload : value) (profileIndex : nat) (entry : value)
    (frameCount : nat) (m : metrics) (totalObserved : Q) :
  reaches_profile Number_toString payload profileIndex entry frameCount m
    totalObserved ->
  ((forall profile, entry <> Obj profile) ->
   parseSpeedscopeProfile Number_toString payload
   = Throw (SpeedscopeParseError (InvalidProfile profileIndex))) /\
  (forall profile profileType,
     entry = Obj profile ->
     String_ Number_toString (nullish (get profile "type") (Str ""))
       = Ok profileType ->
     (profileType <> "sampled" -> profileType <> "evented" ->
      parseSpeedscopeProfile Number_toString payload
      = Throw (SpeedscopeParseError
                 (UnsupportedProfileType profileIndex profileType))) /\
     (profileType = "sampled" ->
      (forall samples, get profile "samples" <> Arr samples) ->
      parseSpeedscopeProfile Number_toString payload
      = Throw (SpeedscopeParseError (MissingSamplesArray profileIndex))) /\
     (profileType = "evented" ->
      (forall e0 e1 events,
         get profile "events" <> Arr (e0 :: e1 :: events)) ->
      parseSpeedscopeProfile Number_toString payload
      = Throw (SpeedscopeParseError (TooFewEvents profileIndex)))).
Proof.
  intros Hreach. split.
  { intros Hnot. eapply reaches_profile_throws; [exact Hreach|].
    unfold profile_entry. destruct entry; try done.
    by destruct (Hnot properties). }
  intros profile profileType -> Htype. split; [|split].
  - intros Hs He. eapply reaches_profile_throws; [exact Hreach|].
    unfold profile_entry. cbn [asRecord bind]. rewrite Htype. cbn [bind].
    apply String.eqb_neq in Hs, He. by rewrite Hs, He.
  - intros -> Hnot. eapply reaches_profile_throws; [exact Hreach|].
    unfold profile_entry. cbn [asRecord bind]. rewrite Htype. cbn [bind].
    cbn [String.eqb Ascii.eqb Bool.eqb]. unfold parseSampledProfile.
    destruct (get profile "samples"); try done. by destruct (Hnot elements).
  - intros -> Hnot. eapply reaches_profile_throws; [exact Hreach|].
    unfold profile_entry. cbn [asRecord bind]. rewrite Htype. cbn [bind].
    cbn [String.eqb Ascii.eqb Bool.eqb]. unfold parseEventedProfile.
    destruct (get profile "events") as [| | | | | | |[|e0 [|e1 events]]|];
      try done.
    by destruct (Hnot e0 e1 events).
Qed.

Lemma profile_entry_failures_witness :
  reaches_profile decimal single_event_document 0 single_event_profile 1
    [untouched "x" "unknown"] 0%Q /\
  parseSpeedscopeProfile decimal single_event_document
  = Throw (SpeedscopeParseError (TooFewEvents 0)).
Proof.
  assert (reaches_profile decimal single_event_document 0
            single_event_profile 1 [untouched "x" "unknown"] 0%Q) as Hreach.
  { eexists _, _, _, _, _. repeat split; done. }
  split; [exact Hreach|].
  apply (proj2 (proj2 (proj2 (profile_entry_failures decimal
           single_event_document 0 single_event_profile 1 _ _ Hreach)
           _ "evented" eq_refl eq_refl)) eq_refl).
  intros e0 e1 events. discriminate.
Defined.

(** ** Where the hotspots come from *)

Lemma labels_alter (f : FrameMetrics -> FrameMetrics) k m :
  (forall metric, name (f metric) = name metric /\
                  file (f metric) = file metric) ->
  labels (alter f k m) = labels m.
Proof.
  intros Hf. revert k; induction m as [|x m IH]; intros [|k]; simpl;
    try done.
  - destruct (Hf x) as [-> ->]. done.
  - f_equal. apply IH.
Qed.

Lemma labels_observe_all w indices m :
  labels (observe_all w indices m) = labels m.
Proof.
  unfold observe_all. revert m; induction indices as [|k indices IH];
    intros m; simpl; [done|]. by rewrite IH, labels_alter.
Qed.

Lemma sampled_sample_labels frameCount profileIndex weights sampleIndex
    sampleStack m observed m' observed' :
  sampled_sample frameCount profileIndex weights sampleIndex sampleStack
    (m, observed) = Ok (m', observed') ->
  labels m' = labels m.
Proof.
  unfold sampled_sample.
  destruct sampleStack as [| | | | | | |stack|];
    try (by intros [= <- <-]).
  destruct stack as [|v0 stack0]; [by intros [= <- <-]|].
  intros (w & Hw & H)%bind_Ok.
  destruct (Qle_bool w 0) eqn:Hpos; [by injection H as <- <-|].
  apply bind_Ok in H as (m1 & Hloop & H).
  apply sampled_frames_Ok in Hloop as (indices & _ & ->).
  apply bind_Ok in H as (top & _ & H).
  destruct (_ !! top) as [metric|] eqn:Etop; [|done]. injection H as <- <-.
  by rewrite labels_alter, labels_observe_all.
Qed.

Lemma evented_window_labels profileIndex events i at_ stack m observed
    m' observed' :
  evented_window profileIndex events i at_ stack m observed
    = Ok (m', observed') ->
  labels m' = labels m.
Proof.
  unfold evented_window.
  destruct (i <? length events - 1)%nat; [|by intros [= <- <-]].
  intros (next & _ & H)%bind_Ok. apply bind_Ok in H as (nextAt & _ & H).
  destruct (Qltb (nextAt - at_) 0); [done|].
  destruct (Qltb 0 (nextAt - at_)) eqn:Hpos; simpl in H;
    [|by injection H as <- <-].
  destruct (0 <? length stack)%nat; [|by injection H as <- <-].
  apply bind_Ok in H as (m1 & ->%evented_frames_Ok & H).
  destruct (last stack) as [top|]; [|done].
  destruct (_ !! top) as [metric|] eqn:Etop; [|done]. injection H as <- <-.
  by rewrite labels_alter, labels_observe_all.
Qed.

Section Labels.
Variable Number_toString : Q -> string.

Lemma profile_entry_labels frameCount (l : list (string * string)) :
  keeps (fun s => labels s.1 = l) (profile_entry Number_toString frameCount).
Proof.
  apply keeps_intro. intros profileIndex entry [m t] [m' t']. simpl.
  intros <-. unfold profile_entry.
  intros (profile & _ & H)%bind_Ok. apply bind_Ok in H as (type & _ & H).
  destruct (String.eqb type "sampled").
  { apply bind_Ok in H as ([m1 o1] & H & [= <- <-]).
    unfold parseSampledProfile in H.
    destruct (get profile "samples"); try done. revert H.
    apply (for_loop_invariant (fun s => labels s.1 = labels m)); [|done].
    intros j x [m2 o2] [m3 o3] Hm2 Hm3%sampled_sample_labels. simpl in *.
    congruence. }
  destruct (String.eqb type "evented"); [|done].
  apply bind_Ok in H as ([m1 o1] & H & [= <- <-]).
  unfold parseEventedProfile in H.
  destruct (get profile "events") as [| | | | | | |events|]; try done.
  destruct events as [|e0 [|e1 events]]; try done.
  apply bind_Ok in H as ([[stack m2] o2] & H & Hend).
  destruct (0 <? length stack)%nat; [done|]. injection Hend as <- <-.
  revert H.
  apply (for_loop_invariant (fun s => labels s.1.2 = labels m)); [|done].
  intros j x [[st2 m3] o3] [[st3 m4] o4] Hm3. simpl in *.
  unfold evented_event.
  intros (event & _ & H)%bind_Ok. apply bind_Ok in H as (eventType & _ & H).
  apply bind_Ok in H as (frame & _ & H). apply bind_Ok in H as (at_ & _ & H).
  apply bind_Ok in H as ([m5 o5] & Hwin%evented_window_labels & H).
  assert (m4 = m5) as ->; [|congruence].
  destruct (String.eqb eventType "O"); [by injection H as _ <- _|].
  destruct (String.eqb eventType "C"); [|done].
  destruct (decide _); [by injection H as _ <- _| done].
Qed.

End Labels.

(** X16.  Every hotspot of a successful result carries the name and the
    file of one of the document's frames: the strings of the frame's
    [name] and [file], with ["frame_<index>"] and ["unknown"] for a missing
    or [null] one. *)
Theorem hotspot_labels (Number_toString : Q -> string) (payload : value)
    (summary : ParsedProfileSummary) (h : Hotspot) :
  parseSpeedscopeProfile Number_toString payload = Ok summary ->
  h ∈ hotspots summary ->
  exists root shared frames idx frame,
    payload = Obj root /\ get root "shared" = Obj shared /\
    get shared "frames" = Arr frames /\
    frames !! idx = Some (Obj frame) /\
    String_ Number_toString
      (nullish (get frame "name") (Str ("frame_" ++ pretty idx)))
      = Ok (h_name h) /\
    String_ Number_toString (nullish (get frame "file") (Str "unknown"))
      = Ok (h_file h).
Proof.
  unfold parseSpeedscopeProfile.
  intros ([[count m] t] & Hacc & H)%bind_Ok.
  destruct (Qle_bool t 0) eqn:Et; [done|]. injection H as <-. simpl.
  intros (i & metric & Hin & _ & ->)%rank_hotspots_elem. simpl.
  apply accumulate_Ok in Hacc
    as (root & shared & frames & entries & m0 & -> & Hshared & Hframes
        & _ & Hentries & _ & Hm0 & Hloop & ->).
  apply (keeps_all _ _ _ _ _ _
           (profile_entry_labels Number_toString _ (labels m0))) in Hloop;
    [|done].
  simpl in Hloop.
  apply list_elem_of_lookup_1 in Hin as [idx Hidx].
  assert (exists metric0, m0 !! idx = Some metric0 /\
            name metric0 = name metric /\ file metric0 = file metric)
    as (metric0 & Hidx0 & Hname & Hfile).
  { assert (labels m !! idx = Some (name metric, file metric)) as Hl
      by (unfold labels; by rewrite list_lookup_fmap, Hidx).
    rewrite Hloop in Hl. unfold labels in Hl.
    rewrite list_lookup_fmap in Hl.
    destruct (m0 !! idx) as [metric0|]; [|done].
    injection Hl as Hn Hf. by exists metric0. }
  destruct (frame_entry_table Number_toString frames m0 Hm0) as [_ Htable].
  destruct (Htable idx metric0 Hidx0)
    as (_ & _ & _ & frame & Hframe & Hn & Hf & _).
  exists root, shared, frames, idx, frame.
  rewrite <- Hname, <- Hfile. done.
Qed.

Lemma hotspot_labels_witness :
  exists summary h,
    parseSpeedscopeProfile decimal recursive_document = Ok summary /\
    h ∈ hotspots summary /\
    exists root shared frames idx frame,
      recursive_document = Obj root /\ get root "shared" = Obj shared /\
      get shared "frames" = Arr frames /\
      frames !! idx = Some (Obj frame) /\
      String_ decimal
        (nullish (get frame "name") (Str ("frame_" ++ pretty idx)))
        = Ok (h_name h) /\
      String_ decimal (nullish (get frame "file") (Str "unknown"))
        = Ok (h_file h).
Proof.
  destruct (parseSpeedscopeProfile decimal recursive_document)
    as [summary|e] eqn:E; [|vm_compute in E; discriminate].
  destruct (hotspots summary) as [|h l] eqn:Eh.
  { vm_compute in E. injection E as <-. discriminate Eh. }
  exists summary, h. split; [reflexivity|].
  assert (h ∈ hotspots summary) as Hin
    by (rewrite Eh; apply elem_of_cons; by left).
  split; [exact Hin|].
  exact (hotspot_labels decimal recursive_document summary h E Hin).
Defined.

(** ** Sampled profiles without weights *)

Lemma sampled_unweighted_loop frameCount profileIndex samples i m observed
    m' observed' :
  for_loop (sampled_sample frameCount profileIndex []) i samples
    (m, observed) = Ok (m', observed') ->
  (observed' == observed + inject_Z (Z.of_nat (count_stacks samples)))%Q.
Proof.
  unfold count_stacks.
  revert i m observed; induction samples as [|x samples IH];
    intros i m observed; simpl.
  - intros [= <- <-]. simpl. ring.
  - intros ([m1 o1] & Hx & H)%bind_Ok. apply IH in H. rewrite H.
    rewrite filter_cons. unfold sampled_sample in Hx.
    destruct x as [| | | | | | |stack|];
      try (injection Hx as <- <-; by rewrite decide_False by done).
    destruct stack as [|v0 stack0];
      [injection Hx as <- <-; by rewrite decide_False by done|].
    rewrite decide_True by done.
    unfold sample_weight in Hx. cbn [length Nat.ltb Nat.leb bind] in Hx.
    change (Qle_bool 1 0) with false in Hx. cbv iota in Hx.
    apply bind_Ok in Hx as (m2 & _ & Hx).
    apply bind_Ok in Hx as (top & _ & Hx).
    destruct (_ !! top); [|done]. injection Hx as _ <-.
    cbn [length]. rewrite Nat2Z.inj_succ, <- Z.add_1_r, inject_Z_plus.
    change (inject_Z 1) with 1%Q. ring.
Qed.

(** X18.  A sampled profile that has no [weights] array, or an empty
    one, observes one unit per sample that is a non-empty array. *)
Theorem sampled_unweighted_observed (profile : list (string * value))
    (frameCount : nat) (metricsByFrame : metrics) (profileIndex : nat)
    (samples : list value) (m : metrics) (observed : Q) :
  get profile "samples" = Arr samples ->
  (forall w weights, get profile "weights" <> Arr (w :: weights)) ->
  parseSampledProfile profile frameCount metricsByFrame profileIndex
  = Ok (m, observed) ->
  (observed == inject_Z (Z.of_nat (count_stacks samples)))%Q.
Proof.
  intros Hsamples Hweights. unfold parseSampledProfile. rewrite Hsamples.
  assert (match get profile "weights" with
          | Arr weights => weights
          | _ => []
          end = []) as ->.
  { destruct (get profile "weights") as [| | | | | | |[|w weights]|];
      try done. by destruct (Hweights w weights). }
  intros H%sampled_unweighted_loop. rewrite H. ring.
Qed.

Lemma sampled_unweighted_observed_witness :
  exists m observed,
    parseSampledProfile unweighted_profile 1 [untouched "main" "main.ts"] 0
    = Ok (m, observed) /\
    (observed == 2)%Q.
Proof.
  destruct (parseSampledProfile unweighted_profile 1
              [untouched "main" "main.ts"] 0)
    as [[m observed]|e] eqn:E; [|vm_compute in E; discriminate].
  exists m, observed. split; [reflexivity|].
  apply (sampled_unweighted_observed unweighted_profile 1
           [untouched "main" "main.ts"] 0
           [ints [0; 0]%Z; Arr []; Null; ints [0]%Z] m observed eq_refl);
    [|exact E].
  intros w weights. discriminate.
Defined.

(** ** Rounding keeps the sign *)

Section Rounding.

Variables prec emax : Z.
Hypothesis prec_pos : (0 < prec)%Z.

Lemma digits2_pos_le (p : positive) :
  (2 ^ (Z.pos (digits2_pos p) - 1) <= Z.pos p)%Z.
Proof.
  induction p as [p IH|p IH|]; simpl; [| |done].
  - rewrite Pos2Z.inj_succ.
    replace (Z.succ (Z.pos (digits2_pos p)) - 1)%Z
      with (Z.succ (Z.pos (digits2_pos p) - 1))%Z by lia.
    rewrite Z.pow_succ_r by lia. lia.
  - rewrite Pos2Z.inj_succ.
    replace (Z.succ (Z.pos (digits2_pos p)) - 1)%Z
      with (Z.succ (Z.pos (digits2_pos p) - 1))%Z by lia.
    rewrite Z.pow_succ_r by lia. lia.
Qed.

Lemma shr_1_m (mrs : shr_record) :
  (0 <= shr_m mrs)%Z -> shr_m (shr_1 mrs) = (shr_m mrs / 2)%Z.
Proof.
  destruct mrs as [m r s]. simpl. intros Hm.
  destruct m as [|[p|p|]|p]; simpl; try done.
  - rewrite Pos2Z.inj_xI. apply Z.div_unique with 1%Z; lia.
  - rewrite Pos2Z.inj_xO. apply Z.div_unique with 0%Z; lia.
Qed.

Lemma pow2_xI (p : positive) :
  (2 ^ Z.pos p~1 = 2 * (2 ^ Z.pos p * 2 ^ Z.pos p))%Z.
Proof.
  rewrite Pos2Z.inj_xI.
  replace (2 * Z.pos p + 1)%Z with (1 + Z.pos p + Z.pos p)%Z by lia.
  rewrite Z.pow_add_r by lia. rewrite Z.pow_add_r by lia.
  rewrite Z.pow_1_r. ring.
Qed.

Lemma pow2_xO (p : positive) :
  (2 ^ Z.pos p~0 = 2 ^ Z.pos p * 2 ^ Z.pos p)%Z.
Proof.
  rewrite <- Z.pow_add_r by lia. f_equal. lia.
Qed.

Lemma iter_shr_1_m (p : positive) (mrs : shr_record) :
  (0 <= shr_m mrs)%Z ->
  shr_m (SpecFloat.iter_pos shr_1 p mrs) = (shr_m mrs / 2 ^ Z.pos p)%Z.
Proof.
  revert mrs. induction p as [p IH|p IH|]; intros mrs Hm; simpl.
  - assert (0 < 2 ^ Z.pos p)%Z as Hp by (apply Z.pow_pos_nonneg; lia).
    assert (0 <= shr_m (shr_1 mrs))%Z as H1
      by (rewrite shr_1_m by done; apply Z.div_pos; lia).
    assert (0 <= shr_m (SpecFloat.iter_pos shr_1 p (shr_1 mrs)))%Z as H2
      by (rewrite IH by done; apply Z.div_pos; lia).
    rewrite IH, IH, shr_1_m by done.
    rewrite !Z.div_div by lia. by rewrite pow2_xI, Z.mul_assoc.
  - assert (0 < 2 ^ Z.pos p)%Z as Hp by (apply Z.pow_pos_nonneg; lia).
    assert (0 <= shr_m (SpecFloat.iter_pos shr_1 p mrs))%Z as H2
      by (rewrite IH by done; apply Z.div_pos; lia).
    rewrite IH, IH by done. rewrite Z.div_div by lia. by rewrite pow2_xO.
  - by rewrite shr_1_m.
Qed.

Lemma shr_record_of_loc_m (m : Z) (l : location) :
  shr_m (shr_record_of_loc m l) = m.
Proof. by destruct l as [|[]]. Qed.

(** What a shift to the exponent of the format leaves: a mantissa that is
    not negative and an exponent of at least [emin]; a positive mantissa
    stays positive when the exponent was at least [emin] already. *)
Lemma shr_fexp_facts (m e : Z) (l : location) :
  (0 <= m)%Z ->
  (0 <= shr_m (shr_fexp prec emax m e l).1)%Z /\
  (emin prec emax <= (shr_fexp prec emax m e l).2)%Z /\
  ((0 < m)%Z -> (emin prec emax <= e)%Z ->
   (0 < shr_m (shr_fexp prec emax m e l).1)%Z).
Proof.
  intros Hm. unfold shr_fexp, shr.
  destruct (fexp prec emax (Zdigits2 m + e) - e)%Z as [|n|n] eqn:En; simpl;
    rewrite ?shr_record_of_loc_m.
  - split; [done|]. split; [|done]. unfold fexp in En. lia.
  - rewrite iter_shr_1_m by (by rewrite shr_record_of_loc_m).
    rewrite shr_record_of_loc_m.
    split; [apply Z.div_pos; lia|]. split; [unfold fexp in En; lia|].
    intros Hpos He. apply Z.div_str_pos. split; [lia|].
    destruct m as [|p|p]; try done. simpl in En.
    etrans; [|apply digits2_pos_le]. apply Z.pow_le_mono_r; [lia|].
    unfold fexp in En. lia.
  - split; [done|]. split; [|done]. unfold fexp in En. lia.
Qed.

Lemma round_nearest_even_le (m : Z) (l : location) :
  (m <= round_nearest_even m l)%Z.
Proof.
  destruct l as [|[]]; simpl; try lia. destruct (Z.even m); lia.
Qed.

Lemma binary_round_aux_rounded (s : bool) (m e : Z) (l : location) :
  (0 <= m)%Z ->
  rounded prec emax s (binary_round_aux prec emax s m e l) /\
  ((0 < m)%Z -> (emin prec emax <= e)%Z ->
   nonzero (binary_round_aux prec emax s m e l)).
Proof.
  intros Hm. unfold binary_round_aux.
  destruct (shr_fexp_facts m e l Hm) as (H1 & H2 & H3).
  destruct (shr_fexp prec emax m e l) as [mrs' e'] eqn:E1. simpl in *.
  pose proof (round_nearest_even_le (shr_m mrs') (loc_of_shr_record mrs'))
    as Hr.
  set (m1 := round_nearest_even (shr_m mrs') (loc_of_shr_record mrs')) in *.
  assert (0 <= m1)%Z as Hm1 by lia.
  destruct (shr_fexp_facts m1 e' loc_Exact Hm1) as (H4 & H5 & H6).
  destruct (shr_fexp prec emax m1 e' loc_Exact) as [mrs'' e''] eqn:E2.
  simpl in *. split.
  - destruct (shr_m mrs'') as [|p|p]; simpl; [done| |lia].
    by destruct (e'' <=? emax - prec)%Z.
  - intros Hpos He. specialize (H3 Hpos He).
    assert (0 < shr_m mrs'')%Z as H7 by (apply H6; lia).
    destruct (shr_m mrs'') as [|p|p]; simpl; [lia| |lia].
    by destruct (e'' <=? emax - prec)%Z.
Qed.

Lemma binary_round_rounded (s : bool) (m : positive) (e : Z) :
  (emin prec emax <= e)%Z ->
  rounded prec emax s (binary_round prec emax s m e) /\
  nonzero (binary_round prec emax s m e).
Proof.
  intros He. unfold binary_round, shl_align.
  set (ex' := fexp prec emax (Z.pos (digits2_pos m) + e)).
  assert (emin prec emax <= ex')%Z by (unfold ex', fexp; lia).
  destruct (ex' - e)%Z as [|d|d] eqn:Ed.
  - destruct (binary_round_aux_rounded s (Z.pos m) e loc_Exact) as [? H'];
      [done|]. split; [done|]. by apply H'.
  - destruct (binary_round_aux_rounded s (Z.pos m) e loc_Exact) as [? H'];
      [done|]. split; [done|]. by apply H'.
  - destruct (binary_round_aux_rounded s (Z.pos (Pos.iter xO m d)) ex'
                loc_Exact) as [? H']; [done|]. split; [done|]. by apply H'.
Qed.

End Rounding.

(** ** The sign of a difference *)

Lemma iter_xO (m d : positive) :
  Z.pos (Pos.iter xO m d) = (Z.pos m * 2 ^ Z.pos d)%Z.
Proof.
  induction d as [|d IH] using Pos.peano_ind.
  - simpl. lia.
  - rewrite Pos.iter_succ, Pos2Z.inj_xO, IH, Pos2Z.inj_succ.
    rewrite Z.pow_succ_r by lia. ring.
Qed.

Lemma shl_align_exact (m : positive) (e ez : Z) :
  (ez <= e)%Z ->
  (inject_Z (Z.pos (shl_align m e ez).1) * 2 ^ ez
   == inject_Z (Z.pos m) * 2 ^ e)%Q.
Proof.
  intros He. unfold shl_align.
  destruct (ez - e)%Z as [|d|d] eqn:Ed; simpl.
  - by replace ez with e by lia.
  - lia.
  - assert (2 ^ e == 2 ^ Z.pos d * 2 ^ ez)%Q as ->.
    { replace e with (Z.pos d + ez)%Z by lia. by apply Qpower_plus. }
    rewrite iter_xO, inject_Z_mult, (Zpower_Qpower 2 (Z.pos d)) by lia.
    change (inject_Z 2) with 2%Q. ring.
Qed.

Lemma ltb_zero_rounded (s : bool) (x : spec_float) :
  rounded Double.prec Double.emax s x -> nonzero x ->
  Double.ltb Double.zero x = negb s.
Proof.
  destruct x as [s'|s'| |s' m e]; simpl; try done.
  - intros -> _. by destruct s.
  - intros [-> _] _. by destruct s.
Qed.

Lemma exact_aligned (s : bool) (m : positive) (e ez : Z) :
  (ez <= e)%Z ->
  (Double.exact (S754_finite s m e)
   == inject_Z (cond_Zopp s (Z.pos (shl_align m e ez).1)) * 2 ^ ez)%Q.
Proof.
  intros He. pose proof (shl_align_exact m e ez He) as H. simpl.
  destruct s; simpl; [|by rewrite H].
  change (Z.neg m) with (- Z.pos m)%Z.
  change (Z.neg (shl_align m e ez).1) with (- Z.pos (shl_align m e ez).1)%Z.
  rewrite !inject_Z_opp. lra.
Qed.

Lemma exact_le_aligned (sy : bool) (my : positive) (ey : Z) (sx : bool)
    (mx : positive) (ex ez : Z) :
  (ez <= ey)%Z -> (ez <= ex)%Z ->
  Double.le (S754_finite sy my ey) (S754_finite sx mx ex) <->
  (cond_Zopp sy (Z.pos (shl_align my ey ez).1)
   - cond_Zopp sx (Z.pos (shl_align mx ex ez).1) <= 0)%Z.
Proof.
  intros Hy Hx. unfold Double.le.
  rewrite (exact_aligned sy my ey ez Hy), (exact_aligned sx mx ex ez Hx).
  assert (0 < 2 ^ ez)%Q as He by (by apply Qpower_0_lt).
  set (Y := cond_Zopp sy _). set (X := cond_Zopp sx _).
  rewrite Qmult_le_r by done. rewrite <- Zle_Qle. lia.
Qed.


Lemma exact_sign (s : bool) (m : positive) (e : Z) :
  if s then (Double.exact (S754_finite s m e) < 0)%Q
  else (0 < Double.exact (S754_finite s m e))%Q.
Proof.
  assert (0 < 2 ^ e)%Q as He by (by apply Qpower_0_lt).
  assert (0 < inject_Z (Z.pos m))%Q as Hm by (unfold Qlt; simpl; lia).
  pose proof (Qmult_lt_0_compat _ _ Hm He) as H.
  destruct s; simpl; [|done].
  change (Z.neg m) with (- Z.pos m)%Z. rewrite inject_Z_opp.
  set (a := inject_Z (Z.pos m)) in *. set (b := (2 ^ e)%Q) in *. lra.
Qed.

(** The comparator's result is positive exactly when the first score is
    the smaller one. *)
Lemma sub_not_positive (x y : spec_float) :
  grounded x -> grounded y -> x <> S754_nan -> y <> S754_nan ->
  Double.ltb Double.zero (Double.sub y x) = false <-> Double.le y x.
Proof.
  intros Hx Hy Hnx Hny.
  destruct y as [sy|sy| |sy my ey]; [| |done|];
    (destruct x as [sx|sx| |sx mx ex]; [| |done|]).
  - by destruct sx, sy.
  - by destruct sx, sy.
  - pose proof (exact_sign sx mx ex) as H.
    destruct sx, sy; cbn in *; split; try done; try lra;
      intros; apply Qlt_le_weak; done.
  - by destruct sx, sy.
  - by destruct sx, sy.
  - by destruct sx, sy.
  - pose proof (exact_sign sy my ey) as H.
    destruct sy; cbn in *; split; try done; try lra;
      intros; apply Qlt_le_weak; done.
  - by destruct sx, sy.
  - (* two finite numbers *)
    unfold Double.sub, SFsub. simpl in Hx, Hy.
    set (ez := Z.min ey ex).
    rewrite (exact_le_aligned sy my ey sx mx ex ez) by lia.
    set (Y := cond_Zopp sy (Z.pos (shl_align my ey ez).1)).
    set (X := cond_Zopp sx (Z.pos (shl_align mx ex ez).1)).
    unfold binary_normalize.
    destruct (Y - X)%Z as [|p|p] eqn:ED.
    + split; [lia | done].
    + destruct (binary_round_rounded Double.prec Double.emax eq_refl false
                  p ez) as [H1 H2]; [lia|].
      rewrite (ltb_zero_rounded false) by done. simpl. split; [done | lia].
    + destruct (binary_round_rounded Double.prec Double.emax eq_refl true
                  p ez) as [H1 H2]; [lia|].
      rewrite (ltb_zero_rounded true) by done. simpl. split; [lia | done].
Qed.

(** ** The ranking in binary64 *)

Lemma rounded_grounded (s : bool) (x : spec_float) :
  rounded Double.prec Double.emax s x -> grounded x.
Proof. destruct x; simpl; try done. by intros [_ ?]. Qed.

Lemma mul_grounded (x y : spec_float) : grounded (Double.mul x y).
Proof.
  destruct x as [sx|sx| |sx mx ex], y as [sy|sy| |sy my ey]; try done.
  unfold Double.mul, SFmul.
  eapply rounded_grounded, binary_round_aux_rounded; done.
Qed.

Lemma add_grounded (x y : spec_float) :
  grounded x -> grounded y -> grounded (Double.add x y).
Proof.
  destruct x as [sx|sx| |sx mx ex], y as [sy|sy| |sy my ey]; try done;
    try (by destruct sx, sy).
  intros Hx Hy. simpl in Hx, Hy. unfold Double.add, SFadd, binary_normalize.
  destruct (cond_Zopp _ _ + cond_Zopp _ _)%Z as [|p|p]; [done| |];
    eapply rounded_grounded, binary_round_rounded; done || lia.
Qed.

Lemma score_grounded (h : Double.Hotspot) : grounded (Double.score h).
Proof. apply add_grounded; apply mul_grounded. Qed.

Lemma le_refl (x : spec_float) : x <> S754_nan -> Double.le x x.
Proof. destruct x as [s|[]| |s m e]; try done; intros _; simpl; lra. Qed.

Lemma le_trans (x y z : spec_float) :
  Double.le x y -> Double.le y z -> Double.le x z.
Proof.
  destruct x as [sx|[]| |sx mx ex], y as [sy|[]| |sy my ey],
    z as [sz|[]| |sz mz ez]; try done; unfold Double.le; lra.
Qed.

Lemma le_total (x y : spec_float) :
  x <> S754_nan -> y <> S754_nan -> Double.le x y \/ Double.le y x.
Proof.
  intros Hx Hy.
  destruct x as [sx|[]| |sx mx ex], y as [sy|[]| |sy my ey]; try done;
    try (by left); try (by right); unfold Double.le;
    match goal with
    | |- (?a <= ?b)%Q \/ _ =>
        destruct (Qlt_le_dec b a); [right; by apply Qlt_le_weak | by left]
    end.
Qed.

Lemma compareFn64_not_positive (a b : Double.Hotspot) :
  Double.score a <> S754_nan -> Double.score b <> S754_nan ->
  Double.ltb Double.zero (Double.compareFn a b) = false <-> by_score64 a b.
Proof.
  intros Ha Hb. unfold Double.compareFn, by_score64.
  apply sub_not_positive; try done; apply score_grounded.
Qed.

Lemma sort_insert64_perm {A} (compare : A -> A -> spec_float) x l :
  Double.sort_insert compare x l ≡ₚ x :: l.
Proof.
  induction l as [|y l IH]; simpl; [done|].
  destruct (Double.ltb _ _); [|done]. rewrite IH. apply Permutation_swap.
Qed.

Lemma Array_sort64_perm {A} (compare : A -> A -> spec_float) l :
  Double.Array_sort compare l ≡ₚ l.
Proof.
  unfold Double.Array_sort. induction l as [|x l IH]; simpl; [done|].
  by rewrite sort_insert64_perm, IH.
Qed.

Lemma sort_insert64_sorted x l :
  Double.score x <> S754_nan ->
  Forall (fun h => Double.score h <> S754_nan) l ->
  StronglySorted by_score64 l ->
  StronglySorted by_score64 (Double.sort_insert Double.compareFn x l).
Proof.
  intros Hx Hl. induction 1 as [|y l Hs IH Hy]; simpl;
    [by repeat constructor|].
  apply Forall_cons in Hl as [Hny Hl].
  destruct (Double.ltb Double.zero (Double.compareFn x y)) eqn:E.
  - constructor; [by apply IH|]. rewrite sort_insert64_perm.
    constructor; [|done].
    destruct (le_total (Double.score x) (Double.score y)) as [H|H];
      [done..|].
    apply compareFn64_not_positive in H; [congruence | done..].
  - apply compareFn64_not_positive in E; [|done..].
    constructor; [by constructor|]. constructor; [done|].
    eapply Forall_impl; [exact Hy|]. unfold by_score64 in *.
    intros z Hz. by eapply le_trans.
Qed.

Lemma Array_sort64_sorted l :
  Forall (fun h => Double.score h <> S754_nan) l ->
  StronglySorted by_score64 (Double.Array_sort Double.compareFn l).
Proof.
  unfold Double.Array_sort. induction 1 as [|x l Hx Hl IH]; simpl;
    [constructor|].
  apply sort_insert64_sorted; [done| |done].
  fold (Double.Array_sort Double.compareFn l).
  by rewrite Array_sort64_perm.
Qed.

Lemma with_rank64_score (i : nat) (h : Double.Hotspot) :
  Double.score (Double.with_rank i h) = Double.score h.
Proof. done. Qed.

Lemma rank_hotspots64_sorted m totalObserved i j a b :
  (forall h, h ∈ Double.rank_hotspots m totalObserved ->
     Double.score h <> S754_nan) ->
  i <= j ->
  Double.rank_hotspots m totalObserved !! i = Some a ->
  Double.rank_hotspots m totalObserved !! j = Some b ->
  Double.le (Double.score b) (Double.score a).
Proof.
  unfold Double.rank_hotspots.
  set (sorted := Double.Array_sort Double.compareFn _). intros Hnan.
  rewrite !list_lookup_imap.
  destruct (sorted !! i) as [a0|] eqn:Ea; [|done].
  destruct (sorted !! j) as [b0|] eqn:Eb; [|done].
  intros Hij [= <-] [= <-]. rewrite !with_rank64_score.
  assert (Forall (fun h => Double.score h <> S754_nan) sorted) as Hall.
  { apply Forall_lookup. intros k h Hk.
    rewrite <- (with_rank64_score k). apply Hnan.
    apply list_elem_of_lookup_2 with k. by rewrite list_lookup_imap, Hk. }
  destruct (decide (i = j)) as [->|Hne].
  - assert (a0 = b0) as -> by congruence. apply le_refl.
    rewrite Forall_forall in Hall. apply Hall.
    by eapply list_elem_of_lookup_2.
  - apply (StronglySorted_lookup by_score64 sorted i j a0 b0);
      [|lia|done|done].
    unfold sorted. unfold sorted in Hall.
    rewrite Array_sort64_perm in Hall. by apply Array_sort64_sorted.
Qed.

Lemma rank_hotspots64_rank m totalObserved :
  Double.rank <$> Double.rank_hotspots m totalObserved
  = seq 1 (length (filter Double.observed_frame m)).
Proof.
  unfold Double.rank_hotspots.
  set (sorted := Double.Array_sort Double.compareFn _).
  assert (length sorted = length (filter Double.observed_frame m)) as <-.
  { unfold sorted. by rewrite Array_sort64_perm, length_map. }
  generalize sorted. clear. intros l.
  apply list_eq. intros i. rewrite list_lookup_fmap, list_lookup_imap.
  destruct (l !! i) as [h|] eqn:E; simpl.
  - apply lookup_lt_Some in E. symmetry. rewrite lookup_seq. split; lia.
  - apply lookup_ge_None in E. symmetry. apply lookup_ge_None.
    by rewrite length_seq.
Qed.

(** ** No time is negative or NaN *)

Lemma add_nonneg (x y : spec_float) :
  nonneg x -> nonneg y -> nonneg (Double.add x y).
Proof.
  unfold nonneg.
  destruct x as [sx|sx| |sx mx ex], y as [sy|sy| |sy my ey]; try done;
    simpl; try (by intros -> ->); try (by intros -> [-> ?]);
    try (by intros [-> ?] ->).
  intros [-> Hx] [-> Hy]. unfold Double.add, SFadd, binary_normalize.
  cbn [cond_Zopp].
  destruct (Z.pos _ + Z.pos _)%Z as [|p|p] eqn:E; [done| |lia].
  apply binary_round_rounded; done || lia.
Qed.

Lemma div_core_nonneg (m1 : positive) (e1 : Z) (m2 : positive) (e2 : Z) :
  (0 <= (SFdiv_core_binary Double.prec Double.emax (Z.pos m1) e1
           (Z.pos m2) e2).1.1)%Z.
Proof.
  unfold SFdiv_core_binary.
  set (m' := match _ with Z.pos _ => _ | _ => _ end).
  assert (0 <= m')%Z as Hm'.
  { unfold m'. destruct (_ - _ - _)%Z; try done.
    rewrite Z.shiftl_mul_pow2 by lia.
    apply Z.mul_nonneg_nonneg; [lia|]. apply Z.pow_nonneg. lia. }
  pose proof (Z_div_mod m' (Z.pos m2) eq_refl) as H.
  pose proof (Z.div_pos m' (Z.pos m2) Hm' eq_refl) as Hq.
  unfold Z.div in Hq.
  destruct (Z.div_eucl m' (Z.pos m2)) as [q r]. done.
Qed.

Lemma of_ratio_rounded (s : bool) (n d : positive) :
  rounded Double.prec Double.emax s (Double.of_ratio s n d).
Proof.
  unfold Double.of_ratio.
  pose proof (div_core_nonneg n 0 d 0) as H.
  destruct (SFdiv_core_binary _ _ _ _ _ _) as [[mz ez] lz].
  by apply binary_round_aux_rounded.
Qed.

Lemma of_Q_grounded (q : Q) : grounded (Double.of_Q q).
Proof.
  unfold Double.of_Q. destruct (Qnum q); [done| |];
    eapply rounded_grounded, of_ratio_rounded.
Qed.

Lemma asNumber64_grounded (v : value) (msg : message) (x : spec_float) :
  Double.asNumber v msg = Ok x ->
  grounded x /\ exists s, rounded Double.prec Double.emax s x.
Proof.
  destruct v; try done. simpl.
  pose proof (of_Q_grounded q) as Hg.
  assert (exists s, rounded Double.prec Double.emax s (Double.of_Q q)
                    \/ Double.of_Q q = S754_nan) as [s Hs].
  { unfold Double.of_Q. destruct (Qnum q).
    - by exists false; left.
    - exists false. left. apply of_ratio_rounded.
    - exists true. left. apply of_ratio_rounded. }
  destruct (Double.of_Q q) eqn:E; try done; intros [= <-];
    (split; [done|]); exists s; by destruct Hs.
Qed.

(** A number that is not [<= 0] and is no [NaN] is positive. *)
Lemma positive_nonneg (x : spec_float) :
  (exists s, rounded Double.prec Double.emax s x) ->
  Double.leb x Double.zero = false -> nonneg x.
Proof.
  intros [s Hs]. unfold nonneg.
  destruct x as [sx|sx| |sx mx ex]; try done; simpl in *.
  - by destruct sx.
  - destruct Hs as [_ ?]. by destruct sx.
Qed.

Lemma sub_rounded (x y : spec_float) :
  grounded x -> grounded y -> x <> S754_nan -> y <> S754_nan ->
  Double.sub x y = S754_nan \/
  exists s, rounded Double.prec Double.emax s (Double.sub x y).
Proof.
  intros Hx Hy Hnx Hny.
  destruct x as [sx|sx| |sx mx ex], y as [sy|sy| |sy my ey]; try done;
    try (right; eexists; simpl; by eauto);
    try (destruct sx, sy; simpl; (by left) || (right; by eexists)).
  right. simpl in Hx, Hy. unfold Double.sub, SFsub, binary_normalize.
  destruct (cond_Zopp _ _ - cond_Zopp _ _)%Z as [|p|p].
  - by exists false.
  - exists false. apply binary_round_rounded; done || lia.
  - exists true. apply binary_round_rounded; done || lia.
Qed.

Lemma positive_delta (x y : spec_float) :
  grounded x -> grounded y -> x <> S754_nan -> y <> S754_nan ->
  Double.ltb Double.zero (Double.sub x y) = true -> nonneg (Double.sub x y).
Proof.
  intros Hx Hy Hnx Hny Hpos.
  destruct (sub_rounded x y Hx Hy Hnx Hny) as [H|[s H]];
    [by rewrite H in Hpos|].
  unfold nonneg. destruct (Double.sub x y) as [s'|s'| |s' m e]; try done;
    simpl in *.
  - by destruct s'.
  - destruct H as [_ ?]. by destruct s'.
Qed.

Lemma observe64_nonneg (w : spec_float) (k : nat) (m : Double.metrics) :
  nonneg w -> nonneg_metrics m ->
  nonneg_metrics (alter (Double.observe w) k m).
Proof.
  intros Hw Hm. apply Forall_alter; [done|].
  intros x _ [Ht Hs]. split; [by apply add_nonneg | done].
Qed.

Lemma observe_self64_nonneg (w : spec_float) (k : nat) (m : Double.metrics) :
  nonneg w -> nonneg_metrics m ->
  nonneg_metrics (alter (Double.observe_self w) k m).
Proof.
  intros Hw Hm. apply Forall_alter; [done|].
  intros x _ [Ht Hs]. split; [done | by apply add_nonneg].
Qed.

Lemma sampled_sample64_nonneg frameCount profileIndex weights sampleIndex
    sampleStack m observed m' observed' :
  Double.sampled_sample frameCount profileIndex weights sampleIndex
    sampleStack (m, observed) = Ok (m', observed') ->
  nonneg_metrics m /\ nonneg observed ->
  nonneg_metrics m' /\ nonneg observed'.
Proof.
  unfold Double.sampled_sample. intros H [Hm Ho].
  destruct sampleStack as [| | | | | | |stack|];
    try (by injection H as <- <-).
  destruct stack as [|v0 stack0]; [by injection H as <- <-|].
  apply bind_Ok in H as (w & Hw & H).
  destruct (Double.leb w Double.zero) eqn:Hpos; [by injection H as <- <-|].
  assert (nonneg w) as Hnw.
  { apply positive_nonneg; [|done]. unfold Double.sample_weight in Hw.
    destruct (0 <? length weights)%nat.
    - by apply asNumber64_grounded in Hw as [_ ?].
    - injection Hw as <-. by exists false. }
  apply bind_Ok in H as (m1 & Hloop & H).
  apply bind_Ok in H as (top & _ & H).
  destruct (m1 !! top) as [metric|]; [|done]. injection H as <- <-.
  split; [|by apply add_nonneg].
  apply observe_self64_nonneg; [done|]. revert Hloop.
  apply (for_loop_invariant nonneg_metrics); [|done].
  intros j x m2 m3 Hm2. unfold Double.sampled_frame.
  intros (k & _ & H)%bind_Ok. destruct (m2 !! k); [|done].
  injection H as <-. by apply observe64_nonneg.
Qed.

Lemma evented_window64_nonneg profileIndex events i at_ stack m observed
    m' observed' :
  grounded at_ -> at_ <> S754_nan ->
  Double.evented_window profileIndex events i at_ stack m observed
    = Ok (m', observed') ->
  nonneg_metrics m /\ nonneg observed ->
  nonneg_metrics m' /\ nonneg observed'.
Proof.
  intros Hg Hn. unfold Double.evented_window. intros H [Hm Ho].
  destruct (i <? length events - 1)%nat; [|by injection H as <- <-].
  apply bind_Ok in H as (next & _ & H).
  apply bind_Ok in H as (nextAt & Hnext & H).
  destruct (Double.ltb (Double.sub nextAt at_) Double.zero); [done|].
  destruct (Double.ltb Double.zero (Double.sub nextAt at_)) eqn:Hpos;
    simpl in H; [|by injection H as <- <-].
  destruct (0 <? length stack)%nat; [|by injection H as <- <-].
  assert (nonneg (Double.sub nextAt at_)) as Hd.
  { apply asNumber64_grounded in Hnext as [Hgn [s Hs]].
    apply positive_delta; try done. intros ->. by simpl in Hs. }
  apply bind_Ok in H as (m1 & Hloop & H).
  destruct (last stack) as [top|]; [|done].
  destruct (m1 !! top) as [metric|]; [|done]. injection H as <- <-.
  split; [|by apply add_nonneg].
  apply observe_self64_nonneg; [done|]. revert Hloop.
  apply (for_loop_invariant nonneg_metrics); [|done].
  intros j x m2 m3 Hm2. unfold Double.evented_frame.
  destruct (m2 !! x); [|done]. intros [= <-]. by apply observe64_nonneg.
Qed.

Section Nonneg.
Variable Number_toString : spec_float -> string.

Lemma evented_event64_nonneg frameCount profileIndex events i entry
    stack m observed stack' m' observed' :
  Double.evented_event Number_toString frameCount profileIndex events i
    entry (stack, m, observed) = Ok (stack', m', observed') ->
  nonneg_metrics m /\ nonneg observed ->
  nonneg_metrics m' /\ nonneg observed'.
Proof.
  unfold Double.evented_event.
  intros (event & _ & H)%bind_Ok. apply bind_Ok in H as (eventType & _ & H).
  apply bind_Ok in H as (frame & _ & H).
  apply bind_Ok in H as (at_ & Hat & H).
  apply bind_Ok in H as ([m1 o1] & Hwin & H).
  assert (m' = m1 /\ observed' = o1) as [-> ->].
  { destruct (String.eqb eventType "O"); [by injection H as _ <- <-|].
    destruct (String.eqb eventType "C"); [|done].
    destruct (decide _); [by injection H as _ <- <-| done]. }
  apply asNumber64_grounded in Hat as [Hg [s Hs]].
  eapply evented_window64_nonneg; [done| |done].
  intros ->. by simpl in Hs.
Qed.

Lemma profile_entry64_nonneg frameCount profileIndex entry m t m' t' :
  Double.profile_entry Number_toString frameCount profileIndex entry (m, t)
  = Ok (m', t') ->
  nonneg_metrics m /\ nonneg t -> nonneg_metrics m' /\ nonneg t'.
Proof.
  unfold Double.profile_entry. intros H [Hm Ht].
  apply bind_Ok in H as (profile & _ & H).
  apply bind_Ok in H as (type & _ & H).
  assert (nonneg Double.zero) as H0 by done.
  destruct (String.eqb type "sampled").
  { apply bind_Ok in H as ([m1 o1] & H & [= <- <-]).
    unfold Double.parseSampledProfile in H.
    destruct (get profile "samples"); try done.
    apply (for_loop_invariant
             (fun s => nonneg_metrics s.1 /\ nonneg s.2)) in H.
    - destruct H as [? ?]. split; [done | by apply add_nonneg].
    - intros j x [m2 o2] [m3 o3] Hs Hx.
      by eapply sampled_sample64_nonneg.
    - done. }
  destruct (String.eqb type "evented"); [|done].
  apply bind_Ok in H as ([m1 o1] & H & [= <- <-]).
  unfold Double.parseEventedProfile in H.
  destruct (get profile "events") as [| | | | | | |events|]; try done.
  destruct events as [|e0 [|e1 events]]; try done.
  apply bind_Ok in H as ([[stack m2] o2] & H & Hend).
  destruct (0 <? length stack)%nat; [done|]. injection Hend as <- <-.
  apply (for_loop_invariant
           (fun s => nonneg_metrics s.1.2 /\ nonneg s.2)) in H.
  - destruct H as [? ?]. split; [done | by apply add_nonneg].
  - intros j x [[st2 m3] o3] [[st3 m4] o4] Hs Hx.
    by eapply evented_event64_nonneg.
  - done.
Qed.

Lemma accumulate64_Ok payload count m totalObserved :
  Double.accumulate Number_toString payload = Ok (count, m, totalObserved) ->
  exists root shared frames profileEntries m0,
    payload = Obj root /\ get root "shared" = Obj shared /\
    get shared "frames" = Arr frames /\
    get root "profiles" = Arr profileEntries /\
    for_loop (Double.frame_entry Number_toString) 0 frames [] = Ok m0 /\
    for_loop (Double.profile_entry Number_toString (length frames)) 0
      profileEntries (m0, Double.zero) = Ok (m, totalObserved) /\
    count = length profileEntries.
Proof.
  unfold Double.accumulate.
  intros (root & Hroot & H)%bind_Ok. apply bind_Ok in H as (shared & Hsh & H).
  destruct payload; try done. injection Hroot as ->.
  destruct (get root "shared") eqn:Eshared; try done. injection Hsh as ->.
  destruct (get shared "frames") as [| | | | | | |frames|] eqn:Eframes;
    try done.
  destruct frames as [|f0 frames]; [done|].
  destruct (get root "profiles") as [| | | | | | |entries|] eqn:Eentries;
    try done.
  destruct entries as [|p0 entries]; [done|].
  apply bind_Ok in H as (m0 & Hm0 & H).
  apply bind_Ok in H as ([m1 t1] & H1 & [= <- <- <-]).
  by exists root, shared, (f0 :: frames), (p0 :: entries), m0.
Qed.

(** Whatever the document, no time of the table and no total is negative
    or [NaN]. *)
Lemma accumulate64_nonneg payload count m totalObserved :
  Double.accumulate Number_toString payload = Ok (count, m, totalObserved) ->
  nonneg_metrics m /\ nonneg totalObserved.
Proof.
  intros (root & shared & frames & entries & m0 & _ & _ & _ & _ & Hm0 & H
          & _)%accumulate64_Ok.
  apply (for_loop_invariant nonneg_metrics) in Hm0; [| |constructor].
  - apply (for_loop_invariant
             (fun s => nonneg_metrics s.1 /\ nonneg s.2)) in H; [done| |done].
    intros j x [m1 t1] [m2 t2] Hs Hx. by eapply profile_entry64_nonneg.
  - intros j x m1 m2 Hm1. unfold Double.frame_entry.
    intros (frame & _ & H')%bind_Ok. apply bind_Ok in H' as (n & _ & H').
    apply bind_Ok in H' as (f & _ & [= <-]).
    apply Forall_app. split; [done|]. by repeat constructor.
Qed.

End Nonneg.

(** ** No score is NaN while the total is finite *)

Lemma div_nonneg (x : spec_float) (m : positive) (e : Z) :
  nonneg x -> nonneg (Double.div x (S754_finite false m e)).
Proof.
  unfold nonneg. destruct x as [s|s| |s mx ex]; try done; simpl.
  - by intros ->.
  - by intros ->.
  - intros [-> _].
    pose proof (div_core_nonneg mx ex m e) as H.
    destruct (SFdiv_core_binary _ _ _ _ _ _) as [[mz ez] lz].
    by apply binary_round_aux_rounded.
Qed.

Lemma mul_nonneg (x y : spec_float) :
  nonneg x -> (exists m e, y = S754_finite false m e) ->
  nonneg (Double.mul x y).
Proof.
  unfold nonneg. intros Hx (m & e & ->).
  destruct x as [s|s| |s mx ex]; try done; simpl.
  - by rewrite Hx.
  - by rewrite Hx.
  - destruct Hx as [-> _]. by apply binary_round_aux_rounded.
Qed.

Lemma toFixed64_nonneg (x : spec_float) (digits : nat) :
  nonneg x -> nonneg (Double.toFixed x digits).
Proof.
  unfold nonneg. destruct x as [s|s| |s m e]; try done.
  intros [-> He]. unfold Double.toFixed.
  match goal with |- context [Qle_bool ?a ?b] => destruct (Qle_bool a b) end;
    [done|].
  match goal with |- context [Qfloor ?a] => destruct (Qfloor a) end;
    try done. apply of_ratio_rounded.
Qed.

Lemma score_nonneg (metric : Double.FrameMetrics) (m : positive) (e : Z) :
  nonneg (Double.totalTime metric) -> nonneg (Double.selfTime metric) ->
  nonneg (Double.score (Double.to_hotspot (S754_finite false m e) metric)).
Proof.
  intros Ht Hs. unfold Double.score, Double.to_hotspot.
  cbn [Double.inclusivePct Double.exclusivePct].
  apply add_nonneg.
  - apply mul_nonneg; [|by eexists _, _]. apply toFixed64_nonneg.
    apply mul_nonneg; [|by eexists _, _]. by apply div_nonneg.
  - apply mul_nonneg; [|by eexists _, _]. apply toFixed64_nonneg.
    apply mul_nonneg; [|by eexists _, _]. by apply div_nonneg.
Qed.

Lemma rank_hotspots64_elem m totalObserved h :
  h ∈ Double.rank_hotspots m totalObserved ->
  exists i metric,
    metric ∈ m /\ h = Double.with_rank i (Double.to_hotspot totalObserved metric).
Proof.
  unfold Double.rank_hotspots. intros (i & Hi)%list_elem_of_lookup_1.
  rewrite list_lookup_imap in Hi.
  destruct (_ !! i) as [h0|] eqn:E; [|done]. injection Hi as <-.
  apply list_elem_of_lookup_2 in E. rewrite Array_sort64_perm in E.
  apply list_elem_of_fmap in E as (metric & -> & Hin).
  apply list_elem_of_filter in Hin as [_ Hin]. by exists i, metric.
Qed.

(** The sampled document of the tests, in binary64: the order and the
    numbers are those of the exact embedding. *)
Lemma sampled_document_result64 :
  exists summary,
    Double.parseSpeedscopeProfile decimal64 sampled_document = Ok summary /\
    Double.h_name <$> Double.hotspots summary = ["render"; "root"; "diff"] /\
    Double.inclusivePct <$> Double.hotspots summary
    = Double.of_Q <$> [8571 # 100; 100; 1429 # 100]%Q /\
    Double.rank <$> Double.hotspots summary = [1; 2; 3] /\
    Double.totalSamples summary = Double.of_Z 14.
Proof. eexists. split; [by vm_compute|]. by vm_compute. Qed.

(** Rounding shows where the exact embedding differs: 23/160*100 is
    14.374999999999998 in doubles and prints as 14.37, and the durations
    4.3 and 3.8000000000000007 add up to 8.100000000000001, more than the
    8.1 between the second and the last timestamp. *)
Lemma rounded_percentage64 :
  Double.toFixed
    (Double.mul (Double.div (Double.of_Z 23) (Double.of_Z 160))
       (Double.of_Z 100)) 2
  = Double.of_Q (1437 # 100).
Proof. by vm_compute. Qed.

Lemma rounded_observed64 :
  exists m observed,
    Double.parseEventedProfile decimal64 uneven_profile 1
      [untouched64 "main" "main.ts"] 0 = Ok (m, observed) /\
    observed = Double.of_Q (8100000000000001 # 1000000000000000) /\
    Double.ltb (Double.sub (Double.of_Q (94 # 10)) (Double.of_Q (13 # 10)))
      observed = true.
Proof. eexists _, _. split; [by vm_compute|]. by vm_compute. Qed.

(** What the overflow does to the result: both percentages of both
    hotspots are [NaN], and the hotspots are in the order of the frames. *)
Lemma overflow_document_result :
  Double.parseSpeedscopeProfile decimal64 overflow_document
  = Ok {| Double.hotspots :=
            [ {| Double.h_name := "a"; Double.h_file := "a.ts";
                 Double.selfTimeMs := Double.zero;
                 Double.totalTimeMs := S754_infinity false;
                 Double.h_sampleCount := 2;
                 Double.inclusivePct := S754_nan;
                 Double.exclusivePct := Double.zero;
                 Double.rank := 1 |};
              {| Double.h_name := "b"; Double.h_file := "b.ts";
                 Double.selfTimeMs := S754_infinity false;
                 Double.totalTimeMs := S754_infinity false;
                 Double.h_sampleCount := 2;
                 Double.inclusivePct := S754_nan;
                 Double.exclusivePct := S754_nan;
                 Double.rank := 2 |} ];
          Double.totalSamples := S754_infinity false;
          Double.profileCount := 1 |}.
Proof. by vm_compute. Qed.

(** C7, as worded, fails: in the result for [overflow_document] the
    scores are [NaN], so the second hotspot's score is not at most the
    first one's; the comparator returns [NaN] and the sort leaves the
    hotspots in the order of the frames. *)
Lemma hotspots_sorted_counterexample :
  (exists summary a b,
     Double.parseSpeedscopeProfile decimal64 overflow_document = Ok summary /\
     Double.hotspots summary !! 0 = Some a /\
     Double.hotspots summary !! 1 = Some b /\
     Double.h_name a = "a" /\ Double.h_name b = "b" /\
     Double.score a = S754_nan /\ Double.score b = S754_nan /\
     Double.compareFn a b = S754_nan) /\
  ~ sorted_by_score_spec.
Proof.
  split.
  - eexists _, _, _. split; [exact overflow_document_result|].
    by repeat split.
  - intros Hspec.
    by apply (Hspec _ _ _ overflow_document_result 0 1 _ _ (le_n 1) eq_refl
                eq_refl).
Qed.

(** After an overflow of the total every comparison ties. *)
Lemma score_overflow (metric : Double.FrameMetrics) :
  nonneg (Double.totalTime metric) -> nonneg (Double.selfTime metric) ->
  Double.score (Double.to_hotspot (S754_infinity false) metric)
  = Double.zero \/
  Double.score (Double.to_hotspot (S754_infinity false) metric) = S754_nan.
Proof.
  unfold nonneg, Double.score, Double.to_hotspot.
  cbn [Double.inclusivePct Double.exclusivePct].
  destruct (Double.totalTime metric) as [s|s| |s mt et],
    (Double.selfTime metric) as [s'|s'| |s' ms es]; try done; simpl;
    intros Ht Hs;
    repeat match goal with H : _ /\ _ |- _ => destruct H as [? _] end;
    subst; by (left + right).
Qed.

Lemma compareFn64_ties (a b : Double.Hotspot) :
  Double.score a = Double.zero \/ Double.score a = S754_nan ->
  Double.score b = Double.zero \/ Double.score b = S754_nan ->
  Double.ltb Double.zero (Double.compareFn a b) = false.
Proof.
  unfold Double.compareFn. by intros [->| ->] [->| ->].
Qed.

Lemma Array_sort64_ties {A} (compare : A -> A -> spec_float) (l : list A) :
  (forall a b, a ∈ l -> b ∈ l -> Double.ltb Double.zero (compare a b) = false) ->
  Double.Array_sort compare l = l.
Proof.
  unfold Double.Array_sort. induction l as [|x l IH]; intros Hl; [done|].
  simpl. rewrite IH by (intros a b Ha Hb; apply Hl; by right).
  destruct l as [|y l]; [done|]. simpl.
  rewrite Hl; [done | by left | by right; left].
Qed.

(** C7, amended.  In a successful result the ranks are 1, 2, ..., N in the
    order listed, N being the number of frames the filter keeps.  Unless
    the total observed has overflowed to [Infinity], no score is [NaN] and
    the hotspots are listed by score, largest first; the same order holds
    whenever no score is [NaN].  After an overflow of the total every
    comparison ties and the hotspots are listed in the order of the
    frames. *)
Theorem hotspots_sorted_unless_overflow
    (Number_toString : spec_float -> string) (payload : value) (count : nat)
    (m : Double.metrics) (totalObserved : spec_float)
    (summary : Double.ParsedProfileSummary) :
  Double.accumulate Number_toString payload = Ok (count, m, totalObserved) ->
  Double.parseSpeedscopeProfile Number_toString payload = Ok summary ->
  Double.rank <$> Double.hotspots summary
  = seq 1 (length (filter Double.observed_frame m)) /\
  (totalObserved <> S754_infinity false ->
   (forall h, h ∈ Double.hotspots summary -> Double.score h <> S754_nan) /\
   forall i j a b,
     i <= j ->
     Double.hotspots summary !! i = Some a ->
     Double.hotspots summary !! j = Some b ->
     Double.le (Double.score b) (Double.score a)) /\
  ((forall h, h ∈ Double.hotspots summary -> Double.score h <> S754_nan) ->
   forall i j a b,
     i <= j ->
     Double.hotspots summary !! i = Some a ->
     Double.hotspots summary !! j = Some b ->
     Double.le (Double.score b) (Double.score a)) /\
  (totalObserved = S754_infinity false ->
   Double.hotspots summary
   = imap Double.with_rank
       (map (Double.to_hotspot totalObserved)
          (filter Double.observed_frame m))).
Proof.
  intros Hacc. unfold Double.parseSpeedscopeProfile. rewrite Hacc.
  cbn [bind].
  destruct (Double.leb totalObserved Double.zero) eqn:Et; [done|].
  intros [= <-]. cbn [Double.hotspots].
  split; [apply rank_hotspots64_rank|].
  assert ((forall h, h ∈ Double.rank_hotspots m totalObserved ->
             Double.score h <> S754_nan) ->
          forall i j a b,
            i <= j ->
            Double.rank_hotspots m totalObserved !! i = Some a ->
            Double.rank_hotspots m totalObserved !! j = Some b ->
            Double.le (Double.score b) (Double.score a)) as Hsorted.
  { intros Hnan i j a b. by apply rank_hotspots64_sorted. }
  destruct (accumulate64_nonneg _ _ _ _ _ Hacc) as [Hm Ht].
  unfold nonneg_metrics in Hm. rewrite Forall_forall in Hm.
  split; [|split; [done|]].
  - intros Hfin.
    assert (forall h, h ∈ Double.rank_hotspots m totalObserved ->
              Double.score h <> S754_nan) as Hnan;
      [|by split; [|apply Hsorted]].
    intros h (i & metric & Hin & ->)%rank_hotspots64_elem.
    rewrite with_rank64_score.
    destruct (Hm metric Hin) as [Htotal Hself].
    unfold nonneg in Ht.
    destruct totalObserved as [s|s| |s mt et]; simpl in Ht.
    + by destruct s.
    + by subst.
    + done.
    + destruct Ht as [-> _].
      pose proof (score_nonneg metric mt et Htotal Hself) as H.
      intros Hs. unfold nonneg in H. by rewrite Hs in H.
  - intros ->. unfold Double.rank_hotspots. f_equal.
    apply Array_sort64_ties. intros a b Ha Hb.
    apply list_elem_of_fmap in Ha as (ma & -> & [_ Hma]%list_elem_of_filter).
    apply list_elem_of_fmap in Hb as (mb & -> & [_ Hmb]%list_elem_of_filter).
    destruct (Hm ma Hma), (Hm mb Hmb).
    by apply compareFn64_ties; apply score_overflow.
Qed.

(** [hotspots_sorted_unless_overflow] at the sampled document of the
    tests. *)
Lemma hotspots_sorted_unless_overflow_witness :
  exists count m totalObserved summary,
    Double.accumulate decimal64 sampled_document
    = Ok (count, m, totalObserved) /\
    Double.parseSpeedscopeProfile decimal64 sampled_document = Ok summary /\
    totalObserved <> S754_infinity false /\
    forall i j a b,
      i <= j ->
      Double.hotspots summary !! i = Some a ->
      Double.hotspots summary !! j = Some b ->
      Double.le (Double.score b) (Double.score a).
Proof.
  destruct (Double.accumulate decimal64 sampled_document)
    as [[[count m] t]|e] eqn:Eacc; [|vm_compute in Eacc; discriminate].
  destruct (Double.parseSpeedscopeProfile decimal64 sampled_document)
    as [summary|e] eqn:E; [|vm_compute in E; discriminate].
  assert (t <> S754_infinity false) as Hfin.
  { vm_compute in Eacc. injection Eacc as _ _ <-. discriminate. }
  exists count, m, t, summary. split; [reflexivity|]. split; [reflexivity|].
  split; [exact Hfin|].
  exact (proj2 (proj1 (proj2 (hotspots_sorted_unless_overflow decimal64
                                sampled_document count m t summary Eacc E))
                  Hfin)).
Defined.

(** ** The numbers a result reports *)

Lemma nonneg_le_zero (x : spec_float) :
  nonneg x -> Double.le Double.zero x.
Proof.
  unfold nonneg. destruct x as [s|s| |s m e]; try done.
  - simpl. by intros ->.
  - intros [-> _]. pose proof (exact_sign false m e) as H.
    cbv beta iota in H. by apply Qlt_le_weak.
Qed.

Lemma Math_round64_nonneg (x : spec_float) :
  nonneg x -> nonneg (Double.Math_round x).
Proof.
  unfold nonneg. destruct x as [s|s| |s m e]; try done.
  intros [-> He]. unfold Double.Math_round.
  pose proof (exact_sign false m e) as Hpos. cbv beta iota in Hpos.
  set (q := Double.exact (S754_finite false m e)) in *.
  assert (0 <= Qfloor (q + (1 # 2)))%Z
    as Hfloor.
  { change 0%Z with (Qfloor 0). apply Qfloor_resp_le. lra. }
  destruct (Qfloor _) as [|n|n]; [done| |lia].
  unfold Double.of_Z, binary_normalize.
  by apply binary_round_rounded.
Qed.

(** X10.  In a successful result the total and the times of every hotspot
    are numbers that are not negative (so none is [NaN]), and so are the
    two percentages of every hotspot unless the total observed has
    overflowed to [Infinity]. *)
Theorem hotspot_numbers_not_negative
    (Number_toString : spec_float -> string) (payload : value) (count : nat)
    (m : Double.metrics) (totalObserved : spec_float)
    (summary : Double.ParsedProfileSummary) :
  Double.accumulate Number_toString payload = Ok (count, m, totalObserved) ->
  Double.parseSpeedscopeProfile Number_toString payload = Ok summary ->
  Double.le Double.zero totalObserved /\
  Double.le Double.zero (Double.totalSamples summary) /\
  forall h,
    h ∈ Double.hotspots summary ->
    Double.le Double.zero (Double.selfTimeMs h) /\
    Double.le Double.zero (Double.totalTimeMs h) /\
    (totalObserved <> S754_infinity false ->
     Double.le Double.zero (Double.inclusivePct h) /\
     Double.le Double.zero (Double.exclusivePct h)).
Proof.
  intros Hacc. unfold Double.parseSpeedscopeProfile. rewrite Hacc.
  cbn [bind].
  destruct (Double.leb totalObserved Double.zero) eqn:Et; [done|].
  intros [= <-]. cbn [Double.hotspots Double.totalSamples].
  destruct (accumulate64_nonneg _ _ _ _ _ Hacc) as [Hm Ht].
  split; [by apply nonneg_le_zero|].
  split; [by apply nonneg_le_zero, Math_round64_nonneg|].
  intros h (i & metric & Hin & ->)%rank_hotspots64_elem.
  unfold nonneg_metrics in Hm. rewrite Forall_forall in Hm.
  destruct (Hm metric Hin) as [Htotal Hself].
  unfold Double.with_rank, Double.to_hotspot.
  cbn [Double.selfTimeMs Double.totalTimeMs Double.inclusivePct
       Double.exclusivePct].
  split; [by apply nonneg_le_zero, toFixed64_nonneg|].
  split; [by apply nonneg_le_zero, toFixed64_nonneg|].
  intros Hfin. unfold nonneg in Ht.
  destruct totalObserved as [s|s| |s mt et]; simpl in Ht.
  - by destruct s.
  - by subst.
  - done.
  - destruct Ht as [-> _].
    split; apply nonneg_le_zero, toFixed64_nonneg;
      (apply mul_nonneg; [|by eexists _, _]); by apply div_nonneg.
Qed.

Lemma hotspot_numbers_not_negative_witness :
  exists count m totalObserved summary,
    Double.accumulate decimal64 recursive_document
    = Ok (count, m, totalObserved) /\
    Double.parseSpeedscopeProfile decimal64 recursive_document = Ok summary /\
    Double.le Double.zero (Double.totalSamples summary).
Proof.
  destruct (Double.accumulate decimal64 recursive_document)
    as [[[count m] t]|e] eqn:Eacc; [|vm_compute in Eacc; discriminate].
  destruct (Double.parseSpeedscopeProfile decimal64 recursive_document)
    as [summary|e] eqn:E; [|vm_compute in E; discriminate].
  exists count, m, t, summary. split; [reflexivity|]. split; [reflexivity|].
  exact (proj1 (proj2 (hotspot_numbers_not_negative decimal64
                         recursive_document count m t summary Eacc E))).
Defined.
